(** * Material node-tree search of the glTF exporter: a shallow embedding

    The development follows
    [addons/io_scene_gltf2/blender/exp/material/gltf2_blender_search_node_tree.py]
    and [.../extensions/gltf2_blender_gather_materials_specular.py].

    Python floats are binary64 numbers: they are modelled by Rocq's primitive
    floats, so that [fac * 2.0], [c == 1] and [abs(x) > 1e-5] compute exactly
    as they do in the interpreter.  The host graph (Blender nodes, sockets and
    links) is read-only data; it is modelled as a record the functions query.
    Exceptions are explicit: every function that can raise returns an
    [outcome]. *)

From Stdlib Require Import Floats.
From Stdlib Require Import Ascii.
From stdpp Require Import base option list strings gmap.

Set Warnings "-inexact-float".

(** ** Exceptions and results *)

Inductive exn :=
  | IndexError | KeyError | AttributeError | AssertionError | TypeError
  | StopIteration | ZeroDivisionError.

(** The result of running a piece of Python: a value, a raised exception, or
    the recursion budget of the model ran out. *)
Inductive outcome (A : Type) :=
  | Ret (a : A)
  | Raise (e : exn)
  | OutOfFuel.
Arguments Ret {A} a.
Arguments Raise {A} e.
Arguments OutOfFuel {A}.

#[global] Instance outcome_ret : MRet outcome := fun A a => Ret a.
#[global] Instance outcome_bind : MBind outcome := fun A B k m =>
  match m with
  | Ret a => k a
  | Raise e => Raise e
  | OutOfFuel => OutOfFuel
  end.

(** ** Values *)

(** What a socket's [default_value] holds: a float property or a
    [bpy_prop_array] of floats.  Python reads them as binary64 floats; the
    host stores them in single precision, so the values a socket can hold
    are the binary64 floats that are single-precision numbers. *)
Inductive prop_value :=
  | PropFloat (x : float)
  | PropArray (xs : list float).

(** The Python values the detectors hand around (next to [None], which is
    [option]'s [None]). *)
Inductive value :=
  | VFloat (x : float)
  | VList (xs : list float)
  | VStr (s : string).

(** [list(p)] *)
Definition py_list (p : prop_value) : outcome (list float) :=
  match p with
  | PropArray xs => Ret xs
  | PropFloat _ => Raise TypeError
  end.

Definition value_of_prop (p : prop_value) : value :=
  match p with
  | PropFloat x => VFloat x
  | PropArray xs => VList xs
  end.

(** [v == x] for a float literal [x]: [None], lists and strings are never
    equal to a number. *)
Definition py_eq_num (v : option value) (x : float) : bool :=
  match v with
  | Some (VFloat y) => PrimFloat.eqb y x
  | _ => false
  end.

(** ** The host graph *)

Definition node_id := nat.

Record socket := Socket {
  s_name : string;
  s_identifier : string;
  s_type : string;
  s_default_value : prop_value;
}.

Record shader_node := ShaderNode {
  n_type : string;
  operation : string;
  data_type : string;
  blend_type : string;
  layer_name : string;
  attribute_type : string;
  attribute_name : string;
  direction_type : string;
  uv_map : string;
  vector_type : string;
  image : option string;
  node_tree : option (list node_id);
  inputs : list socket;
  outputs : list socket;
}.

(** A link goes from an output of [from_node] to an input of [to_node];
    sockets are named by their position in [outputs] and [inputs]. *)
Record link := Link {
  link_from_node : node_id;
  link_from_socket : nat;
  link_to_node : node_id;
  link_to_socket : nat;
}.

Record graph := Graph {
  node_of : node_id -> shader_node;
  links : list link;
}.

(** A reference to a socket object: Python compares them by identity. *)
Record sockref := SockRef {
  sr_node : node_id;
  sr_is_output : bool;
  sr_index : nat;
}.

Definition in_ref (n : node_id) (i : nat) : sockref := SockRef n false i.
Definition out_ref (n : node_id) (i : nat) : sockref := SockRef n true i.

Definition sockref_eqb (a b : sockref) : bool :=
  Nat.eqb (sr_node a) (sr_node b)
  && Bool.eqb (sr_is_output a) (sr_is_output b)
  && Nat.eqb (sr_index a) (sr_index b).

Definition null_socket : socket := Socket "" "" "" (PropFloat 0%float).

Fixpoint find_index {A : Type} (p : A -> bool) (l : list A) : option nat :=
  match l with
  | [] => None
  | x :: l' => if p x then Some 0 else S <$> find_index p l'
  end.

(** What sits on a group path or on a cursor's stack: the material (the
    first entry of every [group_path]) or a group node. *)
Inductive path_obj :=
  | PMaterial
  | PNode (n : node_id).

(** [in_soc] of [select_input_socket]: [None], a socket, an index or a
    name. *)
Inductive selector :=
  | SelNone
  | SelSocket (s : sockref)
  | SelInt (i : nat)
  | SelStr (s : string).

(** ** NodeNav *)

Record NodeNav := mkNav {
  node : node_id;
  in_socket : option sockref;
  out_socket : option sockref;
  stack : list (path_obj * option sockref);
  moved : bool;
}.

Definition set_in_socket (s : option sockref) (self : NodeNav) : NodeNav :=
  mkNav (node self) s (out_socket self) (stack self) (moved self).

Definition set_moved (b : bool) (self : NodeNav) : NodeNav :=
  mkNav (node self) (in_socket self) (out_socket self) (stack self) b.

(** [NodeNav.copy] and [NodeNav.assign]: all five fields are copied, the
    stack by value. *)
Definition assign (self other : NodeNav) : NodeNav :=
  mkNav (node other) (in_socket other) (out_socket other) (stack other)
        (moved other).

Definition copy (self : NodeNav) : NodeNav :=
  assign (mkNav (node self) None None [] false) self.

Section Graph.
Variable G : graph.

Definition sock_of (r : sockref) : socket :=
  let n := node_of G (sr_node r) in
  nth (sr_index r) (if sr_is_output r then outputs n else inputs n)
      null_socket.

(** [socket.links]: the links of the tree that use the socket, in the
    tree's order. *)
Definition links_of (r : sockref) : list link :=
  List.filter
    (fun l =>
       if sr_is_output r
       then Nat.eqb (link_from_node l) (sr_node r)
            && Nat.eqb (link_from_socket l) (sr_index r)
       else Nat.eqb (link_to_node l) (sr_node r)
            && Nat.eqb (link_to_socket l) (sr_index r))
    (links G).

Definition is_linked (r : sockref) : bool :=
  match links_of r with [] => false | _ => true end.

(** [self.node.inputs[key]] for a string key: the first input of that
    name.  The host passes over sockets that are not available when it
    looks a name up; [inputs] has no mark for them, so on a node with
    several inputs of one name the first one stands for the available
    one. *)
Definition input_by_name (n : node_id) (key : string) : outcome sockref :=
  match find_index (fun s => String.eqb (s_name s) key)
                   (inputs (node_of G n)) with
  | Some i => Ret (in_ref n i)
  | None => Raise KeyError
  end.

Definition input_by_index (n : node_id) (i : nat) : outcome sockref :=
  match inputs (node_of G n) !! i with
  | Some _ => Ret (in_ref n i)
  | None => Raise IndexError
  end.

Definition select_input_socket (in_soc : selector) (self : NodeNav)
  : outcome NodeNav :=
  match in_soc with
  | SelNone => Ret self
  | SelSocket s =>
      if Nat.eqb (sr_node s) (node self)
      then Ret (set_in_socket (Some s) self)
      else Raise AssertionError
  | SelInt i =>
      s ← input_by_index (node self) i;
      Ret (set_in_socket (Some s) self)
  | SelStr key =>
      let by_name :=
        s ← input_by_name (node self) key;
        Ret (set_in_socket (Some s) self) in
      match key with
      | String ("#"%char) ident =>
          match find_index (fun s => String.eqb (s_identifier s) ident)
                           (inputs (node_of G (node self))) with
          | Some i => Ret (set_in_socket (Some (in_ref (node self) i)) self)
          | None => by_name
          end
      | _ => by_name
      end
  end.

Definition get_out_socket_index (self : NodeNav) : outcome nat :=
  match out_socket self with
  | None => Raise AssertionError
  | Some o =>
      match find_index (fun i => sockref_eqb (out_ref (node self) i) o)
                       (seq 0 (length (outputs (node_of G (node self))))) with
      | Some i => Ret i
      | None => Raise AssertionError
      end
  end.

Definition descend (self : NodeNav) : outcome NodeNav :=
  let n := node_of G (node self) in
  match node_tree n, out_socket self with
  | Some tree, Some o =>
      if String.eqb (n_type n) "GROUP" then
        i ← get_out_socket_index self;
        let stack' := stack self ++ [(PNode (node self), Some o)] in
        match List.find (fun m => String.eqb (n_type (node_of G m))
                                             "GROUP_OUTPUT") tree with
        | None => Raise StopIteration
        | Some g =>
            s ← input_by_index g i;
            Ret (mkNav g (Some s) None stack' (moved self))
        end
      else Ret self
  | _, _ => Ret self
  end.

Definition ascend (self : NodeNav) : outcome NodeNav :=
  match last (stack self), out_socket self with
  | Some (top, top_socket), Some _ =>
      if String.eqb (n_type (node_of G (node self))) "GROUP_INPUT" then
        i ← get_out_socket_index self;
        match top with
        | PMaterial => Raise AttributeError
        | PNode g =>
            s ← input_by_index g i;
            Ret (mkNav g (Some s) top_socket (removelast (stack self))
                       (moved self))
        end
      else Ret self
  | _, _ => Ret self
  end.

(** [move_back]: [fuel] bounds the number of nested calls that continue
    the move through reroutes and group boundaries. *)
Fixpoint move_back (fuel : nat) (in_soc : selector) (self : NodeNav)
  : outcome NodeNav :=
  let continue_ (sel : selector) (s : NodeNav) :=
    match fuel with
    | 0 => OutOfFuel
    | S fuel' => move_back fuel' sel s
    end in
  self ← select_input_socket in_soc (set_moved false self);
  match in_socket self with
  | None => Ret self
  | Some s =>
      if negb (is_linked s) then Ret self else
      match links_of s with
      | [] => Raise IndexError
      | l :: _ =>
          let self := mkNav (link_from_node l) None
                            (Some (out_ref (link_from_node l)
                                           (link_from_socket l)))
                            (stack self) true in
          let ty := n_type (node_of G (node self)) in
          if String.eqb ty "REROUTE" then continue_ (SelInt 0) self
          else if String.eqb ty "GROUP" then
            self ← descend self; continue_ SelNone self
          else if String.eqb ty "GROUP_INPUT" then
            self ← ascend self; continue_ SelNone self
          else Ret self
      end
  end.

Definition peek_back (fuel : nat) (in_soc : selector) (self : NodeNav)
  : outcome NodeNav :=
  s ← select_input_socket in_soc (copy self);
  move_back fuel SelNone s.

(** [get_constant] selects the socket on [self] (the only change it makes
    to the cursor) and returns the constant, or [None]. *)
Definition get_constant (fuel : nat) (in_soc : selector) (self : NodeNav)
  : outcome (option value * NodeNav) :=
  self ← select_input_socket in_soc self;
  match in_socket self with
  | None => Ret (None, self)
  | Some s =>
      let ty := s_type (sock_of s) in
      if negb (is_linked s) then
        if String.eqb ty "RGBA" then
          color ← py_list (s_default_value (sock_of s));
          Ret (Some (VList (take 3 color)), self)
        else if String.eqb ty "SHADER" then
          Ret (Some (VList [0%float; 0%float; 0%float]), self)
        else if String.eqb ty "VECTOR" then
          v ← py_list (s_default_value (sock_of s));
          Ret (Some (VList v), self)
        else if String.eqb ty "VALUE" then
          Ret (Some (value_of_prop (s_default_value (sock_of s))), self)
        else Ret (None, self)
      else
        nav ← peek_back fuel SelNone self;
        if moved nav then
          if String.eqb ty "RGBA" then
            if String.eqb (n_type (node_of G (node nav))) "RGB" then
              match out_socket nav with
              | None => Raise AttributeError
              | Some o =>
                  color ← py_list (s_default_value (sock_of o));
                  Ret (Some (VList (take 3 color)), self)
              end
            else Ret (None, self)
          else if String.eqb ty "VALUE" then
            if String.eqb (n_type (node_of G (node nav))) "VALUE" then
              (* [nav.node.out_socket]: a node has no such attribute, only
                 the cursor has *)
              Raise AttributeError
            else Ret (None, self)
          else Ret (None, self)
        else Ret (None, self)
  end.

Definition is_none {A : Type} (o : option A) : bool :=
  match o with None => true | Some _ => false end.

Definition get_factor (fuel : nat) (in_soc : selector) (self : NodeNav)
  : outcome (option value * NodeNav) :=
  self ← select_input_socket in_soc self;
  match in_socket self with
  | None => Ret (None, self)
  | Some s =>
      '(fac, self) ← get_constant fuel SelNone self;
      match fac with
      | Some _ => Ret (fac, self)
      | None =>
          nav ← peek_back fuel SelNone self;
          if moved nav then
            let ty := s_type (sock_of s) in
            let n := node_of G (node nav) in
            '(x1, x2) ←
              (if String.eqb ty "RGBA" then
                 if String.eqb (n_type n) "MIX"
                    && String.eqb (data_type n) "RGBA"
                    && String.eqb (blend_type n) "MULTIPLY"
                 then
                   '(x1, nav) ← get_constant fuel (SelStr "#A_Color") nav;
                   '(x2, nav) ← get_constant fuel (SelStr "#B_Color") nav;
                   Ret (x1, x2)
                 else Ret (None, None)
               else if String.eqb ty "VALUE" then
                 if String.eqb (n_type n) "MATH"
                    && String.eqb (operation n) "MULTIPLY"
                 then
                   '(x1, nav) ← get_constant fuel (SelInt 0) nav;
                   '(x2, nav) ← get_constant fuel (SelInt 1) nav;
                   Ret (x1, x2)
                 else Ret (None, None)
               else Ret (None, None));
            if negb (is_none x1) && is_none x2 then Ret (x1, self)
            else if negb (is_none x2) && is_none x1 then Ret (x2, self)
            else Ret (None, self)
          else Ret (None, self)
      end
  end.

(** ** Alpha detectors *)

(** Each detector takes the caller's cursor and returns it next to its
    result: the cursor is the one Python mutates with [assign]. *)

Definition detect_alpha_clip (fuel : nat) (alpha_nav : NodeNav)
  : outcome (option value * NodeNav) :=
  nav ← peek_back fuel SelNone alpha_nav;
  if negb (moved nav) then Ret (None, alpha_nav) else
  let n := node_of G (node nav) in
  if String.eqb (n_type n) "MATH" && String.eqb (operation n) "ROUND" then
    nav ← select_input_socket (SelInt 0) nav;
    Ret (Some (VFloat 0.5%float), assign alpha_nav nav)
  else if String.eqb (n_type n) "MATH"
          && String.eqb (operation n) "SUBTRACT" then
    '(one, nav) ← get_constant fuel (SelInt 0) nav;
    if py_eq_num one 1%float then
      nav2 ← peek_back fuel (SelInt 1) nav;
      let n2 := node_of G (node nav2) in
      if moved nav2 && String.eqb (n_type n2) "MATH" then
        '(in0, nav2) ← get_constant fuel (SelInt 0) nav2;
        '(in1, nav2) ← get_constant fuel (SelInt 1) nav2;
        if String.eqb (operation n2) "LESS_THAN"
           && is_none in0 && negb (is_none in1) then
          nav2 ← select_input_socket (SelInt 0) nav2;
          Ret (in1, assign alpha_nav nav2)
        else if String.eqb (operation n2) "GREATER_THAN"
                && negb (is_none in0) && is_none in1 then
          nav2 ← select_input_socket (SelInt 1) nav2;
          Ret (in0, assign alpha_nav nav2)
        else Ret (None, alpha_nav)
      else Ret (None, alpha_nav)
    else Ret (None, alpha_nav)
  else Ret (None, alpha_nav).

(** [get_multiply_factors]: [fac1] is [prev] itself, [fac2] a copy of it
    taken after [fac1]'s socket was selected. *)
Definition get_multiply_factors (fuel : nat) (nav : NodeNav)
  : outcome (option (NodeNav * NodeNav)) :=
  prev ← peek_back fuel SelNone nav;
  if moved prev then
    match in_socket nav with
    | None => Raise AttributeError
    | Some s =>
        let ty := s_type (sock_of s) in
        let n := node_of G (node prev) in
        if String.eqb ty "RGBA" then
          if String.eqb (n_type n) "MIX"
             && String.eqb (data_type n) "RGBA"
             && String.eqb (blend_type n) "MULTIPLY"
          then
            '(fac, prev) ← get_constant fuel (SelStr "Fac") prev;
            if py_eq_num fac 1%float then
              fac1 ← select_input_socket (SelStr "#A_Color") prev;
              fac2 ← select_input_socket (SelStr "#B_Color") (copy fac1);
              Ret (Some (fac1, fac2))
            else Ret None
          else Ret None
        else if String.eqb ty "VALUE" then
          if String.eqb (n_type n) "MATH"
             && String.eqb (operation n) "MULTIPLY"
          then
            fac1 ← select_input_socket (SelInt 0) prev;
            fac2 ← select_input_socket (SelInt 1) (copy fac1);
            Ret (Some (fac1, fac2))
          else Ret None
        else Ret None
    end
  else Ret None.

Definition detect_multiply_by_constant (fuel : nat) (nav : NodeNav)
  : outcome (option value * NodeNav) :=
  facs ← get_multiply_factors fuel nav;
  match facs with
  | None => Ret (None, nav)
  | Some (fac1, fac2) =>
      '(c, fac1) ← get_constant fuel SelNone fac1;
      match c with
      | Some _ => Ret (c, assign nav fac2)
      | None =>
          '(c, fac2) ← get_constant fuel SelNone fac2;
          match c with
          | Some _ => Ret (c, assign nav fac1)
          | None => Ret (None, nav)
          end
      end
  end.

Definition get_color_attrib (fuel : nat) (nav : NodeNav)
  : outcome (option value) :=
  nav ← peek_back fuel SelNone nav;
  if negb (moved nav) then Ret None else
  let n := node_of G (node nav) in
  if String.eqb (n_type n) "VERTEX_COLOR" then
    Ret (Some (VStr (layer_name n)))
  else if String.eqb (n_type n) "ATTRIBUTE"
          && String.eqb (attribute_type n) "GEOMETRY"
          && negb (String.eqb (attribute_name n) "") then
    Ret (Some (VStr (attribute_name n)))
  else Ret None.

Definition detect_multiply_by_color_attrib (fuel : nat) (nav : NodeNav)
  : outcome (option value * NodeNav) :=
  facs ← get_multiply_factors fuel nav;
  match facs with
  | None => Ret (None, nav)
  | Some (fac1, fac2) =>
      attr ← get_color_attrib fuel fac1;
      match attr with
      | Some _ => Ret (attr, assign nav fac2)
      | None =>
          attr ← get_color_attrib fuel fac2;
          match attr with
          | Some _ => Ret (attr, assign nav fac1)
          | None => Ret (None, nav)
          end
      end
  end.

(** ** gather_alpha_info *)

(** [d[k]] on a dict: [KeyError] when the key is missing. *)
Definition dict_get {V : Type} (d : gmap string V) (k : string)
  : outcome V :=
  match d !! k with
  | Some v => Ret v
  | None => Raise KeyError
  end.

Definition alpha_info_init : gmap string (option value) :=
  <["alphaColorAttrib" := None]>
    (<["alphaFactor" := None]>
       (<["alphaCutoff" := None]> (<["alphaMode" := None]> ∅))).

(** How one round of the [for] loop ends. *)
Inductive flow := Break | Continue | Fall.

(** "No factor found yet?" *)
Definition alpha_factor_step (fuel : nat)
    (info : gmap string (option value)) (alpha_nav : NodeNav)
  : outcome (flow * gmap string (option value) * NodeNav) :=
  f ← dict_get info "alphaFactor";
  if is_none f then
    '(a, alpha_nav) ← get_constant fuel SelNone alpha_nav;
    match a with
    | Some _ => Ret (Break, <["alphaFactor" := a]> info, alpha_nav)
    | None =>
        '(a, alpha_nav) ← detect_multiply_by_constant fuel alpha_nav;
        match a with
        | Some _ => Ret (Continue, <["alphaFactor" := a]> info, alpha_nav)
        | None => Ret (Fall, info, alpha_nav)
        end
    end
  else Ret (Fall, info, alpha_nav).

(** "No color attrib found yet?": the test reads key [alphaColorAttrib],
    the two assignments write key [alphaColorAttr]. *)
Definition alpha_attrib_step (fuel : nat)
    (info : gmap string (option value)) (alpha_nav : NodeNav)
  : outcome (flow * gmap string (option value) * NodeNav) :=
  c ← dict_get info "alphaColorAttrib";
  if is_none c then
    attr ← get_color_attrib fuel alpha_nav;
    match attr with
    | Some _ => Ret (Break, <["alphaColorAttr" := attr]> info, alpha_nav)
    | None =>
        '(attr, alpha_nav) ← detect_multiply_by_color_attrib fuel alpha_nav;
        match attr with
        | Some _ =>
            Ret (Continue, <["alphaColorAttr" := attr]> info, alpha_nav)
        | None => Ret (Fall, info, alpha_nav)
        end
    end
  else Ret (Fall, info, alpha_nav).

(** [for _ in range(rounds)] *)
Fixpoint alpha_loop (fuel rounds : nat)
    (info : gmap string (option value)) (alpha_nav : NodeNav)
  : outcome (gmap string (option value) * NodeNav) :=
  match rounds with
  | 0 => Ret (info, alpha_nav)
  | S rounds' =>
      '(fl, info, alpha_nav) ← alpha_factor_step fuel info alpha_nav;
      match fl with
      | Break => Ret (info, alpha_nav)
      | Continue => alpha_loop fuel rounds' info alpha_nav
      | Fall =>
          '(fl, info, alpha_nav) ← alpha_attrib_step fuel info alpha_nav;
          match fl with
          | Continue => alpha_loop fuel rounds' info alpha_nav
          | _ => Ret (info, alpha_nav)
          end
      end
  end.

(** "Set alpha mode" *)
Definition set_alpha_mode (info : gmap string (option value))
  : outcome (gmap string (option value)) :=
  m ← dict_get info "alphaMode";
  if is_none m then
    f ← dict_get info "alphaFactor";
    if py_eq_num f 0%float then
      Ret (<["alphaCutoff" := Some (VFloat 0.5%float)]>
             (<["alphaMode" := Some (VStr "MASK")]> info))
    else Ret (<["alphaMode" := Some (VStr "BLEND")]> info)
  else Ret info.

Definition gather_alpha_info (fuel : nat) (alpha_nav : option NodeNav)
  : outcome (gmap string (option value) * option NodeNav) :=
  let info := alpha_info_init in
  match alpha_nav with
  | None => Ret (info, None)
  | Some alpha_nav =>
      '(c, alpha_nav) ← get_constant fuel SelNone alpha_nav;
      if py_eq_num c 1%float then
        Ret (<["alphaMode" := Some (VStr "OPAQUE")]> info, Some alpha_nav)
      else
        '(cutoff, alpha_nav) ← detect_alpha_clip fuel alpha_nav;
        let info :=
          match cutoff with
          | Some _ =>
              <["alphaCutoff" := cutoff]>
                (<["alphaMode" := Some (VStr "MASK")]> info)
          | None => info
          end in
        '(info, alpha_nav) ← alpha_loop fuel 2 info alpha_nav;
        info ← set_alpha_mode info;
        Ret (info, Some alpha_nav)
  end.

(** ** NodeSocket and the older socket walkers *)

(** [NodeSocket(None, None)] is the one without a socket: every reader
    looks at [socket] first, and its path is never read. *)
Record NodeSocket := mkNodeSocket {
  ns_socket : option sockref;
  ns_group_path : list path_obj;
}.

Definition to_node_nav (self : NodeSocket) : outcome NodeNav :=
  match ns_socket self with
  | None => Raise AssertionError
  | Some s =>
      Ret (mkNav (sr_node s)
                 (if sr_is_output s then None else Some s)
                 (if sr_is_output s then Some s else None)
                 (map (fun o => (o, None)) (ns_group_path self))
                 false)
  end.

Definition get_factor_from_socket (fuel : nat) (socket : NodeSocket)
    (kind : string) : outcome (option value) :=
  nav ← to_node_nav socket;
  '(c, _) ← get_factor fuel SelNone nav;
  Ret c.

Definition get_const_from_socket (fuel : nat) (socket : NodeSocket)
    (kind : string) : outcome (option value) :=
  nav ← to_node_nav socket;
  '(c, _) ← get_constant fuel SelNone nav;
  Ret c.

(** [[n for n in tree.nodes if n.type == ty][0]] *)
Definition first_of_type (tree : list node_id) (ty : string)
  : outcome node_id :=
  match List.find (fun m => String.eqb (n_type (node_of G m)) ty) tree with
  | Some g => Ret g
  | None => Raise IndexError
  end.

(** [[s for s in n.inputs if s.name == key][0]] *)
Definition first_input_named (n : node_id) (key : string)
  : outcome sockref :=
  match find_index (fun s => String.eqb (s_name s) key)
                   (inputs (node_of G n)) with
  | Some i => Ret (in_ref n i)
  | None => Raise IndexError
  end.

Definition group_output_input (g : node_id) (key : string)
  : outcome sockref :=
  match node_tree (node_of G g) with
  | None => Raise AttributeError
  | Some tree =>
      o ← first_of_type tree "GROUP_OUTPUT";
      first_input_named o key
  end.

(** [group_path[-1].inputs], filtered by name *)
Definition enclosing_group_input (group_path : list path_obj)
    (key : string) : outcome sockref :=
  match last group_path with
  | None => Raise IndexError
  | Some PMaterial => Raise AttributeError
  | Some (PNode g) => first_input_named g key
  end.

(** The [while True] loop of [previous_socket]; [fuel] bounds its
    rounds. *)
Fixpoint previous_socket_loop (fuel : nat) (soc : sockref)
    (group_path : list path_obj) : outcome NodeSocket :=
  if negb (is_linked soc) then Ret (mkNodeSocket None []) else
  match links_of soc with
  | [] => Raise IndexError
  | l :: _ =>
      let from := out_ref (link_from_node l) (link_from_socket l) in
      let ty := n_type (node_of G (link_from_node l)) in
      let continue_ (soc : sockref) (group_path : list path_obj) :=
        match fuel with
        | 0 => OutOfFuel
        | S fuel' => previous_socket_loop fuel' soc group_path
        end in
      if String.eqb ty "GROUP" then
        socket ← group_output_input (link_from_node l)
                                    (s_name (sock_of from));
        continue_ socket (group_path ++ [PNode (link_from_node l)])
      else if String.eqb ty "GROUP_INPUT" then
        socket ← enclosing_group_input group_path (s_name (sock_of from));
        continue_ socket (removelast group_path)
      else if String.eqb ty "REROUTE" then
        socket ← input_by_index (link_from_node l) 0;
        continue_ socket group_path
      else Ret (mkNodeSocket (Some from) group_path)
  end.

Definition previous_socket (fuel : nat) (socket : NodeSocket)
  : outcome NodeSocket :=
  match ns_socket socket with
  | None => Raise AttributeError
  | Some soc => previous_socket_loop fuel soc (ns_group_path socket)
  end.

(** [ShNode(node, group_path)]; [ShNode(None, None)] is [None]. *)
Definition previous_node (fuel : nat) (socket : NodeSocket)
  : outcome (option (node_id * list path_obj)) :=
  prev ← previous_socket fuel socket;
  match ns_socket prev with
  | Some s => Ret (Some (sr_node s, ns_group_path prev))
  | None => Ret None
  end.

(** ** Filtered search *)

(** The class of a node is told by its [type]: [ShaderNodeTexImage] is the
    class of the nodes of type [TEX_IMAGE]. *)
Definition ShaderNodeTexImage : string := "TEX_IMAGE".

Definition FilterByType (type : string) (shader_node : node_id) : bool :=
  String.eqb (n_type (node_of G shader_node)) type.

(** A search result.  The [group_path] list a result shares with the
    running search is left out: nothing here reads it. *)
Record NodeTreeSearchResult := mkResult {
  shader_node_ : node_id;
  path : list link;
}.

Fixpoint fold_outcome {A S : Type} (f : S -> A -> outcome S) (l : list A)
    (s : S) : outcome S :=
  match l with
  | [] => Ret s
  | x :: l' => s' ← f s x; fold_outcome f l' s'
  end.

(** [__search_from_socket].  The loop state is the three lists the loop
    mutates: [results], [search_path] and [group_path]; the function hands
    back [results] and [group_path], the list it shares with its caller. *)
Fixpoint search_from_socket (fuel : nat) (start_socket : sockref)
    (shader_node_filter : node_id -> bool)
    (search_path : list link) (group_path : list path_obj)
  : outcome (list NodeTreeSearchResult * list path_obj) :=
  let recurse (s : sockref) (sp : list link) (gp : list path_obj) :=
    match fuel with
    | 0 => OutOfFuel
    | S fuel' =>
        '(r, _) ← search_from_socket fuel' s shader_node_filter sp gp;
        Ret r
    end in
  '(results, _, group_path) ←
    fold_outcome
      (fun '(results, search_path, group_path) link =>
         let linked_node := link_from_node link in
         let ty := n_type (node_of G linked_node) in
         let from_name :=
           s_name (sock_of (out_ref linked_node (link_from_socket link))) in
         if String.eqb ty "GROUP" then
           socket ← group_output_input linked_node from_name;
           let group_path := group_path ++ [PNode linked_node] in
           linked_results ← recurse socket (search_path ++ [link]) group_path;
           match linked_results with
           | [] => Ret (results, search_path, group_path)
           | _ => Ret (results ++ linked_results, search_path ++ [link],
                       group_path)
           end
         else if String.eqb ty "GROUP_INPUT" then
           socket ← enclosing_group_input group_path from_name;
           linked_results ←
             recurse socket (search_path ++ [link]) (removelast group_path);
           match linked_results with
           | [] => Ret (results, search_path, group_path)
           | _ => Ret (results ++ linked_results, search_path ++ [link],
                       group_path)
           end
         else
           let results :=
             if shader_node_filter linked_node
             then results ++ [mkResult linked_node (search_path ++ [link])]
             else results in
           '(results, search_path) ←
             fold_outcome
               (fun '(results, search_path) i =>
                  linked_results ←
                    recurse (in_ref linked_node i) (search_path ++ [link])
                            group_path;
                  match linked_results with
                  | [] => Ret (results, search_path)
                  | _ => Ret (results ++ linked_results,
                              search_path ++ [link])
                  end)
               (seq 0 (length (inputs (node_of G linked_node))))
               (results, search_path);
           Ret (results, search_path, group_path))
      (links_of start_socket)
      ([], search_path, group_path);
  Ret (results, group_path).

Definition from_socket (fuel : nat) (start_socket : NodeSocket)
    (shader_node_filter : node_id -> bool)
  : outcome (list NodeTreeSearchResult) :=
  match ns_socket start_socket with
  | None => Ret []
  | Some s =>
      if shader_node_filter (sr_node s)
      then Ret [mkResult (sr_node s) []]
      else
        '(r, _) ← search_from_socket fuel s shader_node_filter []
                                     (ns_group_path start_socket);
        Ret r
  end.

Definition get_texture_node_from_socket (fuel : nat) (socket : NodeSocket)
  : outcome (option NodeTreeSearchResult) :=
  result ← from_socket fuel socket (FilterByType ShaderNodeTexImage);
  match result with
  | [] => Ret None
  | r :: _ =>
      if is_none (image (node_of G (shader_node_ r))) then Ret None
      else Ret (Some r)
  end.

Definition has_image_node_from_socket (fuel : nat) (socket : NodeSocket)
  : outcome bool :=
  result ← get_texture_node_from_socket fuel socket;
  Ret (negb (is_none result)).

(** ** Anisotropy *)

Definition output_by_index (n : node_id) (i : nat) : outcome sockref :=
  match outputs (node_of G n) !! i with
  | Some _ => Ret (out_ref n i)
  | None => Raise IndexError
  end.

(** [socket.links[0]] *)
Definition first_link (s : sockref) : outcome link :=
  match links_of s with
  | [] => Raise IndexError
  | l :: _ => Ret l
  end.

(** [p - x] for a float [x] *)
Definition prop_sub (p : prop_value) (x : float) : outcome float :=
  match p with
  | PropFloat y => Ret (y - x)%float
  | PropArray _ => Raise TypeError
  end.

(** [==] on lists of floats *)
Fixpoint float_list_eqb (a b : list float) : bool :=
  match a, b with
  | [], [] => true
  | x :: a', y :: b' => PrimFloat.eqb x y && float_list_eqb a' b'
  | _, _ => false
  end.

Record anisotropy_data := mkAnisotropy {
  anisotropyStrength : option value;
  anisotropyRotation : option value;
  tangent : string;
  tex_socket : NodeSocket;
}.

Definition type_is (n : node_id) (ty : string) : bool :=
  String.eqb (n_type (node_of G n)) ty.

Definition operation_is (n : node_id) (op : string) : bool :=
  String.eqb (operation (node_of G n)) op.

Definition detect_anisotropy_nodes (fuel : nat)
    (anisotropy_socket anisotropy_rotation_socket
       anisotropy_tangent_socket : NodeSocket)
  : outcome (bool * option anisotropy_data) :=
  let no : outcome (bool * option anisotropy_data) := Ret (false, None) in
  match ns_socket anisotropy_socket,
        ns_socket anisotropy_rotation_socket,
        ns_socket anisotropy_tangent_socket with
  | Some a_soc, Some r_soc, Some t_soc =>
    (* the tangent is linked to a tangent node, with UVMap as input *)
    tangent_node ← previous_node fuel anisotropy_tangent_socket;
    match tangent_node with
    | None => no
    | Some (tangent_node, _) =>
    if negb (type_is tangent_node "TANGENT") then no else
    if negb (String.eqb (direction_type (node_of G tangent_node)) "UV_MAP")
    then no else
    (* anisotropy is linked to a multiply node *)
    if negb (is_linked a_soc) then no else
    if negb (is_linked r_soc) then no else
    if negb (is_linked t_soc) then no else
    l ← first_link a_soc;
    let anisotropy_multiply_node := link_from_node l in
    if negb (type_is anisotropy_multiply_node "MATH") then no else
    if negb (operation_is anisotropy_multiply_node "MULTIPLY") then no else
    (* its first input is linked to separate XYZ, on Z *)
    mul0 ← input_by_index anisotropy_multiply_node 0;
    if negb (is_linked mul0) then no else
    l ← first_link mul0;
    let separate_xyz_node := link_from_node l in
    if negb (type_is separate_xyz_node "SEPXYZ") then no else
    l ← first_link mul0;
    let separate_xyz_z_socket :=
      out_ref (link_from_node l) (link_from_socket l) in
    if negb (String.eqb (s_name (sock_of separate_xyz_z_socket)) "Z")
    then no else
    (* separate XYZ feeds ArcTan2 (X on inputs[1], Y on inputs[0]) *)
    sep_out ← output_by_index separate_xyz_node 0;
    if negb (is_linked sep_out) then no else
    l ← first_link sep_out;
    let arctan2_node := link_to_node l in
    if negb (type_is arctan2_node "MATH") then no else
    if negb (operation_is arctan2_node "ARCTAN2") then no else
    at0 ← input_by_index arctan2_node 0;
    l ← first_link at0;
    if negb (String.eqb
               (s_name (sock_of (out_ref (link_from_node l)
                                         (link_from_socket l)))) "Y")
    then no else
    at1 ← input_by_index arctan2_node 1;
    l ← first_link at1;
    if negb (String.eqb
               (s_name (sock_of (out_ref (link_from_node l)
                                         (link_from_socket l)))) "X")
    then no else
    (* ArcTan2 feeds the rotation (Math add node) *)
    at_out ← output_by_index arctan2_node 0;
    if negb (is_linked at_out) then no else
    l ← first_link at_out;
    let anisotropy_rotation_node := link_to_node l in
    if negb (type_is anisotropy_rotation_node "MATH") then no else
    if negb (operation_is anisotropy_rotation_node "ADD") then no else
    (* which feeds the rotation conversion node *)
    rot_out ← output_by_index anisotropy_rotation_node 0;
    if negb (is_linked rot_out) then no else
    l ← first_link rot_out;
    let rotation_conversion_node := link_to_node l in
    if negb (type_is rotation_conversion_node "MATH") then no else
    if negb (operation_is rotation_conversion_node "DIVIDE") then no else
    conv1 ← input_by_index rotation_conversion_node 1;
    d ← prop_sub (s_default_value (sock_of conv1)) 6.283185%float;
    if (0.0001 <? abs d)%float then no else
    (* which feeds the anisotropy rotation socket of Principled BSDF *)
    conv_out ← output_by_index rotation_conversion_node 0;
    if negb (is_linked conv_out) then no else
    l ← first_link conv_out;
    if negb (String.eqb
               (s_name (sock_of (in_ref (link_to_node l) (link_to_socket l))))
               "Anisotropic Rotation")
    then no else
    l ← first_link conv_out;
    if negb (type_is (link_to_node l) "BSDF_PRINCIPLED") then no else
    (* separate XYZ is fed by the multiply-add node (normalization) *)
    sep0 ← input_by_index separate_xyz_node 0;
    if negb (is_linked sep0) then no else
    l ← first_link sep0;
    let anisotropy_multiply_add_node := link_from_node l in
    if negb (type_is anisotropy_multiply_add_node "VECT_MATH") then no else
    if negb (operation_is anisotropy_multiply_add_node "MULTIPLY_ADD")
    then no else
    madd1 ← input_by_index anisotropy_multiply_add_node 1;
    v1 ← py_list (s_default_value (sock_of madd1));
    if negb (float_list_eqb v1 [2.0; 2.0; 1.0]%float) then no else
    madd2 ← input_by_index anisotropy_multiply_add_node 2;
    v2 ← py_list (s_default_value (sock_of madd2));
    if negb (float_list_eqb v2 [(-1.0); (-1.0); 0.0]%float) then no else
    madd0 ← input_by_index anisotropy_multiply_add_node 0;
    if negb (is_linked madd0) then no else
    (* which is fed by a texture node *)
    l ← first_link madd0;
    let anisotropy_texture_node := link_from_node l in
    if negb (type_is anisotropy_texture_node "TEX_IMAGE") then no else
    madd0 ← input_by_index anisotropy_multiply_add_node 0;
    (* the search does not extend the shared [group_path]: the node linked
       here is a texture, not a group *)
    let group_path := ns_group_path anisotropy_socket in
    tex_ok ← has_image_node_from_socket fuel
               (mkNodeSocket (Some madd0) group_path);
    if negb tex_ok then no else
    mul1 ← input_by_index anisotropy_multiply_node 1;
    strength ← get_const_from_socket fuel
                 (mkNodeSocket (Some mul1) group_path)
                 "VALUE";
    rot1 ← input_by_index anisotropy_rotation_node 1;
    rotation ← get_const_from_socket fuel
                 (mkNodeSocket (Some rot1) group_path)
                 "VALUE";
    madd0 ← input_by_index anisotropy_multiply_add_node 0;
    Ret (true,
         Some (mkAnisotropy strength rotation
                            (uv_map (node_of G tangent_node))
                            (mkNodeSocket (Some madd0) group_path)))
    end
  | _, _, _ => no
  end.

End Graph.

(** ** Vertex color attributes *)

Section VertexColor.
Variable G : graph.

(** [get_const_from_default_value_socket]: the default value of a socket,
    even if this socket is linked. *)
Definition get_const_from_default_value_socket (socket : NodeSocket)
    (kind : string) : outcome (option value) :=
  match ns_socket socket with
  | None => Raise AttributeError
  | Some s =>
      if String.eqb kind "RGB" then
        if negb (String.eqb (s_type (sock_of G s)) "RGBA") then Ret None
        else
          color ← py_list (s_default_value (sock_of G s));
          Ret (Some (VList (take 3 color)))
      else if String.eqb kind "VALUE" then
        if negb (String.eqb (s_type (sock_of G s)) "VALUE") then Ret None
        else Ret (Some (value_of_prop (s_default_value (sock_of G s))))
      else Ret None
  end.

(** [get_attribute_name] returns [(use_vc, name, use_active)]. *)
Definition get_attribute_name (fuel : nat) (socket : NodeSocket)
  : outcome (bool * option string * option bool) :=
  node ← previous_node G fuel socket;
  match node with
  | None => Ret (false, None, None)
  | Some (n, _) =>
      let nd := node_of G n in
      if String.eqb (n_type nd) "ATTRIBUTE"
         && String.eqb (attribute_type nd) "GEOMETRY"
         && negb (String.eqb (attribute_name nd) "")
      then Ret (true, Some (attribute_name nd), None)
      else if String.eqb (n_type nd) "ATTRIBUTE"
              && String.eqb (attribute_type nd) "GEOMETRY"
              && String.eqb (attribute_name nd) ""
      then Ret (true, None, Some true)
      else if String.eqb (n_type nd) "VERTEX_COLOR"
              && negb (String.eqb (layer_name nd) "")
      then Ret (true, Some (layer_name nd), None)
      else if String.eqb (n_type nd) "VERTEX_COLOR"
              && String.eqb (layer_name nd) ""
      then Ret (true, None, Some true)
      else Ret (false, None, None)
  end.

(** The type the caller derives from what [get_attribute_name] returned:
    ["active"], ["name"], or none. *)
Definition attribute_type_of (r : bool * option string * option bool)
  : option string :=
  let '(use_vc, attribute_color, use_active) := r in
  match use_vc, use_active, attribute_color with
  | true, Some true, _ => Some "active"
  | true, None, Some _ => Some "name"
  | _, _, _ => None
  end.

(** The first half of [get_vertex_color_info]: the attribute used for the
    color, and its type. *)
Definition vertex_color_of_color_socket (fuel : nat)
    (color_socket : option NodeSocket)
  : outcome (option string * option string) :=
  match color_socket with
  | None => Ret (None, None)
  | Some color_socket =>
      if is_none (ns_socket color_socket) then Ret (None, None) else
      node ← previous_node G fuel color_socket;
      match node with
      | None => Ret (None, None)
      | Some (n, group_path) =>
          let nd := node_of G n in
          if String.eqb (n_type nd) "MIX" && String.eqb (data_type nd) "RGBA"
             && String.eqb (blend_type nd) "MULTIPLY"
          then
            in6 ← input_by_index G n 6;
            r ← get_attribute_name fuel (mkNodeSocket (Some in6) group_path);
            r ← (if negb (fst (fst r)) then
                   in7 ← input_by_index G n 7;
                   get_attribute_name fuel
                     (mkNodeSocket (Some in7) group_path)
                 else Ret r);
            Ret (snd (fst r), attribute_type_of r)
          else if String.eqb (n_type nd) "ATTRIBUTE"
                  || String.eqb (n_type nd) "VERTEX_COLOR"
          then
            out0 ← output_by_index G n 0;
            r ← get_attribute_name fuel (mkNodeSocket (Some out0) group_path);
            Ret (snd (fst r), attribute_type_of r)
          else Ret (None, None)
      end
  end.

(** [v == ''] *)
Definition py_eq_empty (v : option value) : bool :=
  match v with
  | Some (VStr s) => String.eqb s ""
  | _ => false
  end.

(** The second half: the attribute used for alpha, read from the
    [alphaColorAttrib] field of [gather_alpha_info]. *)
Definition vertex_color_of_alpha_socket (fuel : nat)
    (alpha_socket : option NodeSocket)
  : outcome (option value * option string) :=
  match alpha_socket with
  | None => Ret (None, None)
  | Some alpha_socket =>
      if is_none (ns_socket alpha_socket) then Ret (None, None) else
      nav ← to_node_nav alpha_socket;
      '(alpha_info, _) ← gather_alpha_info G fuel (Some nav);
      attrib ← dict_get alpha_info "alphaColorAttrib";
      if py_eq_empty attrib then Ret (None, Some "active")
      else if negb (is_none attrib) then Ret (attrib, Some "name")
      else Ret (None, None)
  end.

Definition opt_str (o : option string) : option value := VStr <$> o.

Definition get_vertex_color_info (fuel : nat)
    (color_socket alpha_socket : option NodeSocket)
  : outcome (gmap string (option value)) :=
  '(attribute_color, attribute_color_type) ←
    vertex_color_of_color_socket fuel color_socket;
  '(attribute_alpha, attribute_alpha_type) ←
    vertex_color_of_alpha_socket fuel alpha_socket;
  Ret (<["alpha_type" := opt_str attribute_alpha_type]>
         (<["color_type" := opt_str attribute_color_type]>
            (<["alpha" := attribute_alpha]>
               (<["color" := opt_str attribute_color]> ∅)))).

End VertexColor.

(** ** Finding the socket of a material *)

(** What the functions read of a [bpy.types.Material]. *)
Record material := Material {
  m_node_tree : option (list node_id);
  use_nodes : bool;
}.

Section Resolver.
Variable G : graph.

(** Host data the functions read and the graph does not carry: [n.mute],
    [n.is_active_output] and [n.node_tree.name]. *)
Variable mute : node_id -> bool.
Variable is_active_output : node_id -> bool.
Variable tree_name : node_id -> string.

(** [get_gltf_node_name()], [get_gltf_node_old_name()] and
    [get_gltf_old_group_node_name()] of
    [blender/com/gltf2_blender_material_helpers.py], and [str.lower]. *)
Variable gltf_node_name gltf_node_old_name gltf_old_group_node_name : string.
Variable lower : string -> string.

(** The groups [get_material_nodes] enters, with their trees. *)
Definition entered_groups (tree : list node_id)
  : list (node_id * list node_id) :=
  flat_map
    (fun n =>
       match node_tree (node_of G n) with
       | Some sub =>
           if type_is G n "GROUP" && negb (mute n)
              && negb (String.eqb (tree_name n) gltf_old_group_node_name)
           then [(n, sub)] else []
       | None => []
       end)
    tree.

(** [get_material_nodes]: the nodes of a class ([type] is the [type] of
    its nodes) of a tree and of the groups below it, each with a copy of
    its group path. *)
Fixpoint get_material_nodes (fuel : nat) (tree : list node_id)
    (group_path : list path_obj) (type : string)
  : outcome (list (node_id * list path_obj)) :=
  let nodes :=
    map (fun n => (n, group_path))
        (List.filter (fun n => type_is G n type && negb (mute n)) tree) in
  fold_outcome
    (fun nodes '(node, sub) =>
       let new_group_path := group_path ++ [PNode node] in
       match fuel with
       | 0 => OutOfFuel
       | S fuel' =>
           more ← get_material_nodes fuel' sub new_group_path type;
           Ret (nodes ++ more)
       end)
    (entered_groups tree) nodes.

(** [[s for s in n.outputs if s.name == key][0]] *)
Definition first_output_named (n : node_id) (key : string)
  : outcome sockref :=
  match find_index (fun s => String.eqb (s_name s) key)
                   (outputs (node_of G n)) with
  | Some i => Ret (out_ref n i)
  | None => Raise IndexError
  end.

(** The loop of [check_if_is_linked_to_active_output].  [group_path] is a
    list object of the caller: [append] changes it in place, while
    [group_path = group_path[:-1]] binds the name to a new list.  [orig] is
    what the caller's list holds, [cur] what the local name is bound to,
    and [same] tells whether the two are still one object.  The function
    hands back its answer and the caller's list. *)
Fixpoint check_links
    (recurse : sockref -> list path_obj -> outcome (bool * list path_obj))
    (ls : list link) (orig cur : list path_obj) (same : bool)
  : outcome (bool * list path_obj) :=
  match ls with
  | [] => Ret (false, orig)
  | l :: ls' =>
      let to_node := link_to_node l in
      let socket_name :=
        s_name (sock_of G (in_ref to_node (link_to_socket l))) in
      if type_is G to_node "GROUP" then
        match node_tree (node_of G to_node) with
        | None => Raise AttributeError
        | Some tree =>
            group_input ← first_of_type G tree "GROUP_INPUT";
            socket ← first_output_named group_input socket_name;
            '(ret, cur) ← recurse socket (cur ++ [PNode to_node]);
            let orig := if same then cur else orig in
            if (ret : bool) then Ret (true, orig)
            else check_links recurse ls' orig cur same
        end
      else if type_is G to_node "GROUP_OUTPUT" then
        match last cur with
        | None => Raise IndexError
        | Some PMaterial => Raise AttributeError
        | Some (PNode group) =>
            socket ← first_output_named group socket_name;
            '(ret, cur) ← recurse socket (removelast cur);
            if (ret : bool) then Ret (true, orig)
            else check_links recurse ls' orig cur false
        end
      else if type_is G to_node "OUTPUT_MATERIAL" && is_active_output to_node
      then Ret (true, orig)
      else if Nat.ltb 0 (length (outputs (node_of G to_node))) then
        '(ret, cur) ← recurse (out_ref to_node 0) cur;
        let orig := if same then cur else orig in
        if (ret : bool) then Ret (true, orig)
        else check_links recurse ls' orig cur same
      else check_links recurse ls' orig cur same
  end.

Fixpoint check_if_is_linked_to_active_output (fuel : nat)
    (shader_socket : sockref) (group_path : list path_obj)
  : outcome (bool * list path_obj) :=
  check_links
    (fun socket group_path =>
       match fuel with
       | 0 => OutOfFuel
       | S fuel' =>
           check_if_is_linked_to_active_output fuel' socket group_path
       end)
    (links_of G shader_socket) group_path group_path true.

(** [[(input, node[1]) for input in node[0].inputs if input.name == name]],
    over all nodes *)
Definition inputs_named (nodes : list (node_id * list path_obj))
    (name : string) : list (sockref * list path_obj) :=
  flat_map
    (fun '(n, group_path) =>
       flat_map
         (fun '(i, s) =>
            if String.eqb (s_name s) name
            then [(in_ref n i, group_path)] else [])
         (imap (fun i s => (i, s)) (inputs (node_of G n))))
    nodes.

Definition first_input (inputs : list (sockref * list path_obj))
  : NodeSocket :=
  match inputs with
  | (socket, group_path) :: _ => mkNodeSocket (Some socket) group_path
  | [] => mkNodeSocket None []
  end.

(** [get_node_socket]: the check of each node runs on the node's own copy
    of the path, and that list goes into the result. *)
Definition get_node_socket (fuel : nat) (blender_material : material)
    (type name : string) : outcome NodeSocket :=
  match m_node_tree blender_material with
  | None => Raise AttributeError
  | Some tree =>
      nodes ← get_material_nodes fuel tree [PMaterial] type;
      nodes ←
        fold_outcome
          (fun kept '(node, group_path) =>
             out0 ← output_by_index G node 0;
             '(ok, group_path) ←
               check_if_is_linked_to_active_output fuel out0 group_path;
             Ret (if (ok : bool) then kept ++ [(node, group_path)]
                  else kept))
          nodes [];
      Ret (first_input (inputs_named nodes name))
  end.

Definition get_socket (fuel : nat) (blender_material : material)
    (name : string) (volume : bool) : outcome NodeSocket :=
  match m_node_tree blender_material with
  | Some _ =>
      if use_nodes blender_material then
        if String.eqb name "Emissive" then
          emissive_socket ←
            get_node_socket fuel blender_material "EMISSION" "Color";
          match ns_socket emissive_socket with
          | Some _ => Ret emissive_socket
          | None =>
              get_node_socket fuel blender_material "BSDF_PRINCIPLED"
                              "Emission Color"
          end
        else if String.eqb name "Background" then
          get_node_socket fuel blender_material "BACKGROUND" "Color"
        else if negb volume then
          get_node_socket fuel blender_material "BSDF_PRINCIPLED" name
        else
          get_node_socket fuel blender_material "VOLUME_ABSORPTION" name
      else Ret (mkNodeSocket None [])
  | None => Ret (mkNodeSocket None [])
  end.

(** [any] of a list of lists: a list counts as true when it is not
    empty. *)
Definition any_of_lists (xs : list (list bool)) : bool :=
  existsb (fun x => negb (Nat.eqb (length x) 0)) xs.

Definition get_socket_from_gltf_material_node (fuel : nat)
    (blender_material : material) (name : string) : outcome NodeSocket :=
  let gltf_node_group_names :=
    [lower gltf_node_name; lower gltf_node_old_name] in
  match m_node_tree blender_material with
  | Some tree =>
      if use_nodes blender_material then
        nodes ← get_material_nodes fuel tree [PMaterial] "GROUP";
        let nodes :=
          List.filter
            (fun '(n, _) =>
               match node_tree (node_of G n) with
               | Some _ =>
                   any_of_lists
                     [map (fun g => String.prefix g (lower (tree_name n)))
                          gltf_node_group_names]
               | None => false
               end)
            nodes in
        Ret (first_input (inputs_named nodes name))
      else Ret (mkNodeSocket None [])
  | None => Ret (mkNodeSocket None [])
  end.

End Resolver.

(** ** Texture transform of a mapping node *)

Section TextureTransform.
Variable G : graph.

(** [texture_transform_blender_to_gltf] lives in
    [blender/com/gltf2_blender_conversion.py]; it maps the dict of a mapping
    transform to the dict of a texture transform. *)
Variable texture_transform_blender_to_gltf :
  gmap string value -> gmap string value.

(** [mathutils]: [Matrix.Rotation(angle, 3, 'Z') @ Vector(v)], and the
    rounding a [Vector] applies to a float stored in it. *)
Variable rotation_z_matmul : float -> float * float * float
                             -> float * float * float.
Variable vector_store : float -> float.

(** [node.inputs[key].default_value[i]] *)
Definition default_component (n : node_id) (key : string) (i : nat)
  : outcome float :=
  s ← input_by_name G n key;
  match s_default_value (sock_of G s) with
  | PropFloat _ => Raise TypeError
  | PropArray xs =>
      match xs !! i with
      | Some x => Ret x
      | None => Raise IndexError
      end
  end.

(** [v[i]] *)
Definition item (v : value) (i : nat) : outcome float :=
  match v with
  | VList xs =>
      match xs !! i with
      | Some x => Ret x
      | None => Raise IndexError
      end
  | _ => Raise TypeError
  end.

Definition as_float (v : value) : outcome float :=
  match v with
  | VFloat x => Ret x
  | _ => Raise TypeError
  end.

(** [a / b] on Python floats *)
Definition py_div (a b : float) : outcome float :=
  if PrimFloat.eqb b 0%float then Raise ZeroDivisionError
  else Ret (a / b)%float.

(** The local function [inverted]: [None] when the inverse of the TRS is
    not taken to be a TRS. *)
Definition inverted (mapping_transform : gmap string value)
  : outcome (option (gmap string value)) :=
  offset ← dict_get mapping_transform "offset";
  rotation ← dict_get mapping_transform "rotation";
  scale ← dict_get mapping_transform "scale";
  rotation ← as_float rotation;
  scale0 ← item scale 0;
  scale1 ← item scale 1;
  if (1e-5 <? abs rotation)%float && (1e-5 <? abs (scale0 - scale1))%float
  then Ret None else
  if (abs scale0 <? 1e-5)%float || (abs scale1 <? 1e-5)%float
  then Ret None else
  offset0 ← item offset 0;
  offset1 ← item offset 1;
  let '(x, y, z) :=
    rotation_z_matmul (- rotation)%float
                      ((- offset0)%float, (- offset1)%float, 1%float) in
  x' ← py_div x scale0;
  y' ← py_div y scale1;
  inv0 ← py_div 1%float scale0;
  inv1 ← py_div 1%float scale1;
  Ret (Some (<["scale" := VList [inv0; inv1]]>
               (<["rotation" := VFloat (- rotation)%float]>
                  (<["offset" := VList [vector_store x'; vector_store y']]>
                     ∅)))).

(** [all([component == x for component in v])] *)
Definition all_eq (v : value) (x : float) : outcome bool :=
  match v with
  | VList xs => Ret (forallb (fun c => PrimFloat.eqb c x) xs)
  | VStr s => Ret (String.eqb s "")
  | VFloat _ => Raise TypeError
  end.

(** The end of the function: default-valued fields are deleted, and an
    empty dict is no transform. *)
Definition drop_defaults (texture_transform : gmap string value)
  : outcome (option (gmap string value)) :=
  offset ← dict_get texture_transform "offset";
  zero ← all_eq offset 0%float;
  let texture_transform :=
    if (zero : bool) then delete "offset" texture_transform
    else texture_transform in
  scale ← dict_get texture_transform "scale";
  one ← all_eq scale 1%float;
  let texture_transform :=
    if (one : bool) then delete "scale" texture_transform
    else texture_transform in
  rotation ← dict_get texture_transform "rotation";
  let texture_transform :=
    if py_eq_num (Some rotation) 0%float
    then delete "rotation" texture_transform else texture_transform in
  if Nat.eqb (size texture_transform) 0 then Ret None
  else Ret (Some texture_transform).

Definition warn_vector_type (vector_type : string) : string :=
  "Skipping exporting texture transform because it had type " +:+
  vector_type +:+ "; recommend using POINT instead".

Definition warn_xy_rotation : string :=
  "Skipping exporting texture transform because it had non-zero " +:+
  "rotations in the X/Y direction; only a Z rotation can be exported!".

Definition warn_not_trs : string :=
  "Skipping exporting texture transform with type TEXTURE because " +:+
  "we couldn't convert it to TRS; recommend using POINT instead".

(** The result comes with the warnings printed on the console. *)
Definition get_texture_transform_from_mapping_node (mapping_node : node_id)
  : outcome (option (gmap string value) * list string) :=
  let vt := vector_type (node_of G mapping_node) in
  if negb (String.eqb vt "TEXTURE" || String.eqb vt "POINT"
           || String.eqb vt "VECTOR")
  then Ret (None, [warn_vector_type vt]) else
  rotation_0 ← default_component mapping_node "Rotation" 0;
  rotation_1 ← default_component mapping_node "Rotation" 1;
  if negb (PrimFloat.eqb rotation_0 0%float)
     || negb (PrimFloat.eqb rotation_1 0%float)
  then Ret (None, [warn_xy_rotation]) else
  mapping_transform ←
    (if negb (String.eqb vt "VECTOR") then
       l0 ← default_component mapping_node "Location" 0;
       l1 ← default_component mapping_node "Location" 1;
       Ret (<["offset" := VList [l0; l1]]> ∅)
     else Ret ∅);
  r2 ← default_component mapping_node "Rotation" 2;
  let mapping_transform := <["rotation" := VFloat r2]> mapping_transform in
  s0 ← default_component mapping_node "Scale" 0;
  s1 ← default_component mapping_node "Scale" 1;
  let mapping_transform := <["scale" := VList [s0; s1]]> mapping_transform in
  if String.eqb vt "TEXTURE" then
    inv ← inverted mapping_transform;
    match inv with
    | None => Ret (None, [warn_not_trs])
    | Some mapping_transform =>
        r ← drop_defaults
              (texture_transform_blender_to_gltf mapping_transform);
        Ret (r, [])
    end
  else
    let mapping_transform :=
      if String.eqb vt "VECTOR"
      then <["offset" := VList [0%float; 0%float]]> mapping_transform
      else mapping_transform in
    r ← drop_defaults (texture_transform_blender_to_gltf mapping_transform);
    Ret (r, []).

End TextureTransform.

(** ** The specular extension *)

Section Specular.
Variable G : graph.

(** [export_specular] takes its sockets and factors from the module
    [gltf2_blender_get] and its textures from [gather_texture_info]; both
    are outside this part of the repository and are taken as they come. *)
Variables material export_settings texture_info uvmap_info : Type.

(** What [get_socket] hands back when it is not [None]. *)
Inductive py_object :=
  | BpyNodeSocket (s : sockref)
  | OtherObject.

Variable gltf2_blender_get_get_socket :
  material -> string -> option py_object.
Variable gltf2_blender_get_get_factor_from_socket :
  py_object -> string -> outcome (option value).
Variable gltf2_blender_get_has_image_node_from_socket :
  py_object -> outcome bool.
Variable gather_texture_info :
  py_object -> export_settings -> outcome (texture_info * uvmap_info).

(** The values of the extension's dict. *)
Inductive ext_value :=
  | ENone
  | EFloat (x : float)
  | ETuple (xs : list float)
  | EList (xs : list float)
  | EStr (s : string)
  | ETexture (t : texture_info).

Record Extension := mkExtension {
  ext_name : string;
  ext_extension : gmap string ext_value;
  ext_required : bool;
}.

Definition ext_of_value (v : option value) : ext_value :=
  match v with
  | None => ENone
  | Some (VFloat x) => EFloat x
  | Some (VList xs) => EList xs
  | Some (VStr s) => EStr s
  end.

(** [v * x], [v < x] and [v > x] for a float [x] *)
Definition ext_mul (v : ext_value) (x : float) : outcome float :=
  match v with
  | EFloat y => Ret (y * x)%float
  | _ => Raise TypeError
  end.

Definition ext_lt (v : ext_value) (x : float) : outcome bool :=
  match v with
  | EFloat y => Ret (y <? x)%float
  | _ => Raise TypeError
  end.

Definition ext_gt (v : ext_value) (x : float) : outcome bool :=
  match v with
  | EFloat y => Ret (x <? y)%float
  | _ => Raise TypeError
  end.

(** [fac is not None and fac > 1.0]: the factor, when it holds. *)
Definition excess (fac : ext_value) : outcome (option float) :=
  match fac with
  | ENone => Ret None
  | EFloat y => Ret (if (1.0 <? y)%float then Some y else None)
  | _ => Raise TypeError
  end.

(** [fac is not None and fac != 1.0] *)
Definition is_factor_not_one (fac : ext_value) : bool :=
  match fac with
  | ENone => false
  | EFloat y => negb (PrimFloat.eqb y 1.0%float)
  | _ => true
  end.

(** [v != (1.0, 1.0, 1.0)]: only a tuple can be equal to a tuple. *)
Definition is_not_white (v : ext_value) : bool :=
  match v with
  | ETuple xs => negb (float_list_eqb xs [1.0; 1.0; 1.0]%float)
  | _ => true
  end.

(** [(c[0] * fac, c[1] * fac, c[2] * fac)] *)
Definition scale_color (c : ext_value) (fac : float) : outcome ext_value :=
  match c with
  | ETuple xs | EList xs =>
      match xs !! 0, xs !! 1, xs !! 2 with
      | Some r, Some g, Some b =>
          Ret (ETuple [r * fac; g * fac; b * fac]%float)
      | _, _, _ => Raise IndexError
      end
  | _ => Raise TypeError
  end.

Definition socket_not_linked (o : py_object) : bool :=
  match o with
  | BpyNodeSocket s => negb (is_linked G s)
  | OtherObject => false
  end.

(** The state the function threads: the extension dict,
    [extensions_needed], [uvmap_infos] and [fac]. *)
Definition specular_state : Type :=
  gmap string ext_value * bool * gmap string uvmap_info * ext_value.

(** [socket.default_value[:3]]: a slice of a [bpy_prop_array] is a
    tuple. *)
Definition default_rgb (s : sockref) : outcome ext_value :=
  match s_default_value (sock_of G s) with
  | PropArray xs => Ret (ETuple (take 3 xs))
  | PropFloat _ => Raise TypeError
  end.

(** The [else] branch of the strength: a factor from the socket and a
    texture. *)
Definition specular_linked (specular_socket : py_object)
    (export_settings_ : export_settings) : outcome specular_state :=
  let specular_extension : gmap string ext_value := ∅ in
  let uvmap_infos : gmap string uvmap_info := ∅ in
  fac ← gltf2_blender_get_get_factor_from_socket specular_socket "VALUE";
  let fac := ext_of_value fac in
  '(specular_extension, extensions_needed, fac) ←
    (if is_factor_not_one fac then
       fac ← ext_mul fac 2.0%float;
       if (fac <? 1.0)%float then
         Ret (<["specularFactor" := EFloat fac]> specular_extension, true,
              EFloat fac)
       else if (1.0 <? fac)%float then
         Ret (specular_extension, true, EFloat fac)
       else Ret (specular_extension, false, EFloat fac)
     else Ret (specular_extension, false, fac));
  has ← gltf2_blender_get_has_image_node_from_socket specular_socket;
  if (has : bool) then
    '(tex, uvmap_info_) ← gather_texture_info specular_socket
                            export_settings_;
    Ret (<["specularTexture" := ETexture tex]> specular_extension, true,
         <["specularTexture" := uvmap_info_]> uvmap_infos, fac)
  else Ret (specular_extension, extensions_needed, uvmap_infos, fac).

(** The first [if]/[else]: the specular strength. *)
Definition specular_strength (specular_socket : py_object)
    (export_settings_ : export_settings) : outcome specular_state :=
  let specular_extension : gmap string ext_value := ∅ in
  let uvmap_infos : gmap string uvmap_info := ∅ in
  match specular_socket with
  | BpyNodeSocket s =>
      if socket_not_linked specular_socket then
        fac ← ext_mul (ext_of_value
                         (Some (value_of_prop
                                  (s_default_value (sock_of G s)))))
                      2.0%float;
        if (fac <? 1.0)%float then
          Ret (<["specularFactor" := EFloat fac]> specular_extension, true,
               uvmap_infos, EFloat fac)
        else if (1.0 <? fac)%float then
          (* specularFactor should be <= 1.0: the tint takes the factor *)
          Ret (specular_extension, true, uvmap_infos, EFloat fac)
        else Ret (specular_extension, false, uvmap_infos, EFloat fac)
      else
        specular_linked specular_socket export_settings_
  | OtherObject => specular_linked specular_socket export_settings_
  end.

(** The second [if]/[else]: the specular tint. *)
Definition specular_tint (speculartint_socket : py_object)
    (export_settings_ : export_settings) (st : specular_state)
  : outcome (gmap string ext_value * bool * gmap string uvmap_info) :=
  let '(specular_extension, extensions_needed, uvmap_infos, fac) := st in
  let tint_linked :=
    fac_color ← gltf2_blender_get_get_factor_from_socket
                  speculartint_socket "RGB";
    let fac_color := ext_of_value fac_color in
    big ← excess fac;
    fac_color ←
      match fac_color, big with
      | ENone, Some f => Ret (ETuple [f; f; f])
      | ENone, None => Ret ENone
      | _, Some f => scale_color fac_color f
      | _, None => Ret fac_color
      end;
    let specular_extension :=
      <["specularColorFactor" :=
          if is_not_white fac_color then fac_color else ENone]>
        specular_extension in
    let extensions_needed := is_not_white fac_color || extensions_needed in
    has ← gltf2_blender_get_has_image_node_from_socket speculartint_socket;
    if (has : bool) then
      '(tex, uvmap_info_) ← gather_texture_info speculartint_socket
                              export_settings_;
      Ret (<["specularColorTexture" := ETexture tex]> specular_extension,
           true, <["specularColorTexture" := uvmap_info_]> uvmap_infos)
    else Ret (specular_extension, extensions_needed, uvmap_infos) in
  match speculartint_socket with
  | BpyNodeSocket s =>
      if socket_not_linked speculartint_socket then
        color ← default_rgb s;
        big ← excess fac;
        color ←
          match big with
          | Some f => scale_color color f
          | None => Ret color
          end;
        Ret (<["specularColorFactor" :=
                 if is_not_white color then color else ENone]>
               specular_extension,
             is_not_white color || extensions_needed, uvmap_infos)
      else tint_linked
  | OtherObject => tint_linked
  end.

Definition export_specular (blender_material : material)
    (export_settings_ : export_settings)
  : outcome (option Extension * gmap string uvmap_info) :=
  match gltf2_blender_get_get_socket blender_material "Specular IOR Level",
        gltf2_blender_get_get_socket blender_material "Specular Tint" with
  | Some specular_socket, Some speculartint_socket =>
      st ← specular_strength specular_socket export_settings_;
      '(specular_extension, extensions_needed, uvmap_infos) ←
        specular_tint speculartint_socket export_settings_ st;
      if negb extensions_needed then Ret (None, ∅)
      else Ret (Some (mkExtension "KHR_materials_specular"
                                  specular_extension false),
                uvmap_infos)
  | _, _ => Ret (None, ∅)
  end.

End Specular.

Arguments ENone {texture_info}.
Arguments EFloat {texture_info} x.
Arguments ETuple {texture_info} xs.
Arguments EList {texture_info} xs.
Arguments EStr {texture_info} s.
Arguments ETexture {texture_info} t.
Arguments mkExtension {texture_info} ext_name ext_extension ext_required.

(** ** The Draco library *)

(** A [pathlib.Path]: its anchor and the components after it. *)
Record py_path := PyPath {
  anchor : string;
  parts : list string;
}.

(** [p.parents[k]] *)
Definition parents (p : py_path) (k : nat) : outcome py_path :=
  if Nat.ltb k (length (parts p))
  then Ret (PyPath (anchor p) (take (length (parts p) - 1 - k) (parts p)))
  else Raise IndexError.

(** [p.parent] *)
Definition parent (p : py_path) : py_path :=
  PyPath (anchor p) (removelast (parts p)).

(** [p / q] for a relative [q], given by its components *)
Definition joinpath (p : py_path) (q : list string) : py_path :=
  PyPath (anchor p) (parts p ++ q).

Section Draco.

(** The host: [Path(s)] and [Path.resolve], [exists], [is_file] and
    [absolute], the text [%s] gives for a path, [bpy.__file__],
    [bpy.app.binary_path], and the two version strings
    ['{v[0]}.{v[1]}'.format(v=bpy.app.version)] and
    ['python{v[0]}.{v[1]}'.format(v=sys.version_info)]. *)
Variable Path : string -> py_path.
Variable resolve : py_path -> py_path.
Variable exists_ : py_path -> bool.
Variable is_file : py_path -> bool.
Variable absolute : py_path -> py_path.
Variable str : py_path -> string.
Variable bpy_file : string.
Variable binary_path : string.
Variable blender_version : string.
Variable python_version : string.

(** The environment variable and [sys.platform]. *)
Variable BLENDER_EXTERN_DRACO_LIBRARY_PATH : option string.
Variable platform : string.

(** [library_name] is [None] when the caller's platform has no entry. *)
Definition find_draco_dll_in_module (library_name : option string)
  : outcome (option py_path) :=
  let bpy_path := resolve (Path bpy_file) in
  bpy_dir ← parents bpy_path 4;
  let lib_dir := joinpath bpy_dir ["lib"] in
  match library_name with
  | None => Raise TypeError
  | Some library_name =>
      let draco_path := joinpath lib_dir [library_name] in
      if exists_ draco_path then Ret (Some draco_path) else Ret None
  end.

(** The dict of library names, read by [.get(sys.platform)]. *)
Definition library_names : option string :=
  if String.eqb platform "win32" then Some "extern_draco.dll"
  else if String.eqb platform "linux" then Some "libextern_draco.so"
  else if String.eqb platform "darwin" then Some "libextern_draco.dylib"
  else None.

(** The dict of site-packages directories, read the same way. *)
Definition site_packages : option py_path :=
  let blender_root := parent (Path binary_path) in
  let python_lib := [blender_version; "python"; "lib"] in
  if String.eqb platform "win32"
  then Some (joinpath (joinpath blender_root python_lib) ["site-packages"])
  else if String.eqb platform "linux"
  then Some (joinpath (joinpath (joinpath blender_root python_lib)
                                [python_version])
                      ["site-packages"])
  else if String.eqb platform "darwin"
  then Some (joinpath (joinpath (joinpath (joinpath (parent blender_root)
                                                    ["Resources"])
                                          python_lib)
                                [python_version])
                      ["site-packages"])
  else None.

Definition unsupported_platform : string :=
  "WARNING Unsupported platform " +:+ platform +:+
  ", Draco mesh compression is unavailable".

(** [dll_path]: the lines it prints, and how it ends. *)
Definition dll_path : list string * outcome py_path :=
  match BLENDER_EXTERN_DRACO_LIBRARY_PATH with
  | Some path => ([], Ret (Path path))
  | None =>
      let library_name := library_names in
      match find_draco_dll_in_module library_name with
      | Raise e => ([], Raise e)
      | OutOfFuel => ([], OutOfFuel)
      | Ret (Some path) => ([], Ret path)
      | Ret None =>
          let path := site_packages in
          let printed :=
            match path, library_name with
            | Some _, Some _ => []
            | _, _ => [unsupported_platform]
            end in
          match path, library_name with
          | Some path, Some library_name =>
              (printed, Ret (joinpath path [library_name]))
          | _, _ => (printed, Raise TypeError)
          end
      end
  end.

(** [dll_exists]: [dll_path] is called again for the message. *)
Definition dll_exists (quiet : bool) : list string * outcome bool :=
  match dll_path with
  | (printed, Ret path) =>
      let found := exists_ path && is_file path in
      if negb quiet then
        match dll_path with
        | (printed', Ret path') =>
            (printed ++ printed' ++
             [if found
              then "INFO Draco mesh compression is available, " +:+
                   "use library at " +:+ str (absolute path')
              else "ERROR Draco mesh compression is not available " +:+
                   "because library could not be found at " +:+
                   str (absolute path')],
             Ret found)
        | (printed', Raise e) => (printed ++ printed', Raise e)
        | (printed', OutOfFuel) => (printed ++ printed', OutOfFuel)
        end
      else (printed, Ret found)
  | (printed, Raise e) => (printed, Raise e)
  | (printed, OutOfFuel) => (printed, OutOfFuel)
  end.

End Draco.

(** ** Predicates used to state the properties *)

(** The two literal-producing node kinds. *)
Definition is_literal_node (n : shader_node) : bool :=
  String.eqb (n_type n) "RGB" || String.eqb (n_type n) "VALUE".

(** The multiply idiom: mix-multiply for colors, math-multiply for
    scalars. *)
Definition is_mix_multiply (n : shader_node) : bool :=
  String.eqb (n_type n) "MIX" && String.eqb (data_type n) "RGBA"
  && String.eqb (blend_type n) "MULTIPLY".

Definition is_math_multiply (n : shader_node) : bool :=
  String.eqb (n_type n) "MATH" && String.eqb (operation n) "MULTIPLY".

(** The nodes [move_back] walks through: reroutes and group boundaries. *)
Definition is_pass_through (n : shader_node) : bool :=
  String.eqb (n_type n) "REROUTE" || String.eqb (n_type n) "GROUP"
  || String.eqb (n_type n) "GROUP_INPUT".

(** The cursor [move_back] leaves on the producer of link [l]. *)
Definition landed (l : link) (stk : list (path_obj * option sockref))
  : NodeNav :=
  mkNav (link_from_node l) None
        (Some (out_ref (link_from_node l) (link_from_socket l))) stk true.

(** What [move_back] does once it has followed link [l]. *)
Definition arrive (G : graph) (fuel : nat) (l : link)
    (stk : list (path_obj * option sockref)) : outcome NodeNav :=
  let continue_ (sel : selector) (s : NodeNav) :=
    match fuel with
    | 0 => OutOfFuel
    | S fuel' => move_back G fuel' sel s
    end in
  let self := landed l stk in
  let ty := n_type (node_of G (node self)) in
  if String.eqb ty "REROUTE" then continue_ (SelInt 0) self
  else if String.eqb ty "GROUP" then
    self ← descend G self; continue_ SelNone self
  else if String.eqb ty "GROUP_INPUT" then
    self ← ascend G self; continue_ SelNone self
  else Ret self.

(** Input socket [s] is fed, through exactly [n] reroute nodes, by link
    [l]: [l] leaves the producer. *)
Inductive reroute_chain (G : graph) : nat -> sockref -> link -> Prop :=
  | chain_direct s l ls :
      links_of G s = l :: ls ->
      reroute_chain G 0 s l
  | chain_reroute n s l0 ls l :
      links_of G s = l0 :: ls ->
      n_type (node_of G (link_from_node l0)) = "REROUTE" ->
      input_by_index G (link_from_node l0) 0
        = Ret (in_ref (link_from_node l0) 0) ->
      reroute_chain G n (in_ref (link_from_node l0) 0) l ->
      reroute_chain G (S n) s l.

(** Input [i] of node [n] is an unconnected scalar socket holding [x]. *)
Definition unlinked_constant (G : graph) (n : node_id) (i : nat) (x : float)
  : Prop :=
  input_by_index G n i = Ret (in_ref n i)
  /\ is_linked G (in_ref n i) = false
  /\ s_type (sock_of G (in_ref n i)) = "VALUE"
  /\ s_default_value (sock_of G (in_ref n i)) = PropFloat x.

(** Input [i] of node [n] is fed directly by a node that is neither walked
    through nor a literal: a texture, say. *)
Definition fed_by_plain_node (G : graph) (n : node_id) (i : nat) : Prop :=
  input_by_index G n i = Ret (in_ref n i)
  /\ exists l ls,
       links_of G (in_ref n i) = l :: ls
       /\ is_pass_through (node_of G (link_from_node l)) = false
       /\ is_literal_node (node_of G (link_from_node l)) = false.

(** The constant [get_factor] keeps out of the two operands. *)
Definition exactly_one (x1 x2 : option value) : option value :=
  match x1, x2 with
  | Some v, None => Some v
  | None, Some v => Some v
  | _, _ => None
  end.

(** The info dict once a clip with cutoff [c] is detected. *)
Definition mask_info (c : value) : gmap string (option value) :=
  <["alphaCutoff" := Some c]>
    (<["alphaMode" := Some (VStr "MASK")]> alpha_info_init).

(** What the amended statement of the TEXTURE mode is about: the guards of
    the function, and the inverse it computes when they let it through. *)
Definition has_xy_rotation (rx ry : float) : bool :=
  negb (PrimFloat.eqb rx 0) || negb (PrimFloat.eqb ry 0).

Definition declines_trs (rz sx sy : float) : bool :=
  ((1e-5 <? abs rz)%float && (1e-5 <? abs (sx - sy))%float)
  || ((abs sx <? 1e-5)%float || (abs sy <? 1e-5)%float).

Definition inverted_trs
    (rotation_z_matmul : float -> float * float * float
                         -> float * float * float)
    (vector_store : float -> float) (lx ly rz sx sy : float)
  : gmap string value :=
  let '(x, y, _) :=
    rotation_z_matmul (- rz)%float ((- lx)%float, (- ly)%float, 1%float) in
  <["scale" := VList [1 / sx; 1 / sy]%float]>
    (<["rotation" := VFloat (- rz)%float]>
       (<["offset" := VList [vector_store (x / sx)%float;
                             vector_store (y / sy)%float]]> ∅)).

(** The dict of a mapping transform. *)
Definition trs (lx ly rz sx sy : float) : gmap string value :=
  <["scale" := VList [sx; sy]]>
    (<["rotation" := VFloat rz]> (<["offset" := VList [lx; ly]]> ∅)).

(** Node [n] has the inputs of a mapping node, holding these values. *)
Definition mapping_values (G : graph) (n : node_id)
    (lx ly rx ry rz sx sy : float) : Prop :=
  default_component G n "Location" 0 = Ret lx
  /\ default_component G n "Location" 1 = Ret ly
  /\ default_component G n "Rotation" 0 = Ret rx
  /\ default_component G n "Rotation" 1 = Ret ry
  /\ default_component G n "Rotation" 2 = Ret rz
  /\ default_component G n "Scale" 0 = Ret sx
  /\ default_component G n "Scale" 1 = Ret sy.

(** A node the alpha detectors see nothing in: not walked through, not a
    literal, no math or mix node, no color attribute.  An image texture is
    one. *)
Definition is_texture_like (n : shader_node) : bool :=
  negb (is_pass_through n) && negb (is_literal_node n)
  && negb (String.eqb (n_type n) "MATH")
  && negb (String.eqb (n_type n) "MIX")
  && negb (String.eqb (n_type n) "VERTEX_COLOR")
  && negb (String.eqb (n_type n) "ATTRIBUTE").

(** What [export_specular] keeps of its two results: a [specularFactor]
    is a float below 1, [uvmap_infos] has an entry exactly where the
    extension has a texture, and only under the two texture keys. *)
Definition is_texture {texture_info : Type} (v : ext_value texture_info)
  : bool :=
  match v with
  | ETexture _ => true
  | _ => false
  end.

Definition specular_well_formed {texture_info uvmap_info : Type}
    (ext : gmap string (ext_value texture_info))
    (uv : gmap string uvmap_info) : Prop :=
  (forall v, ext !! "specularFactor" = Some v ->
             exists f, v = EFloat f /\ (f <? 1)%float = true)
  /\ (forall k, is_Some (uv !! k) <-> exists t, ext !! k = Some (ETexture t))
  /\ (forall k, is_Some (uv !! k) ->
                k = "specularTexture" \/ k = "specularColorTexture").

(** [gp'] is [gp] with group nodes appended. *)
Definition grown_by_groups (G : graph) (gp gp' : list path_obj) : Prop :=
  exists ext,
    gp' = gp ++ ext
    /\ Forall (fun o => exists g, o = PNode g /\ type_is G g "GROUP" = true)
              ext.

(** Some link of the graph goes into an active material output. *)
Definition feeds_active_output (G : graph)
    (is_active_output : node_id -> bool) : Prop :=
  exists l,
    In l (links G)
    /\ type_is G (link_to_node l) "OUTPUT_MATERIAL" = true
    /\ is_active_output (link_to_node l) = true.

(** The node of an entry of [get_material_nodes] has a node tree. *)
Definition has_node_tree (G : graph) (x : node_id * list path_obj) : bool :=
  match node_tree (node_of G (fst x)) with
  | Some _ => true
  | None => false
  end.

(** [s] is the input called [name] of a node of class [type]. *)
Definition input_of_class (G : graph) (s : sockref) (type name : string)
  : Prop :=
  sr_is_output s = false
  /\ type_is G (sr_node s) type = true
  /\ exists sock,
       inputs (node_of G (sr_node s)) !! sr_index s = Some sock
       /\ s_name sock = name.

(** A node found by [get_material_nodes] for a class and a group path: of
    that class, not muted, with a path that starts with the given one. *)
Definition found_node (G : graph) (mute : node_id -> bool) (type : string)
    (group_path : list path_obj) (x : node_id * list path_obj) : Prop :=
  type_is G (fst x) type = true
  /\ mute (fst x) = false
  /\ exists rest, snd x = group_path ++ rest.

(** One round of [search_from_socket], with the nested calls as a
    parameter: the function is this round with itself, one unit of fuel
    less, as [recurse]. *)
Definition search_round (G : graph)
    (recurse : sockref -> list link -> list path_obj
               -> outcome (list NodeTreeSearchResult))
    (start_socket : sockref) (shader_node_filter : node_id -> bool)
    (search_path : list link) (group_path : list path_obj)
  : outcome (list NodeTreeSearchResult * list path_obj) :=
  '(results, _, group_path) ←
    fold_outcome
      (fun '(results, search_path, group_path) link =>
         let linked_node := link_from_node link in
         let ty := n_type (node_of G linked_node) in
         let from_name :=
           s_name (sock_of G (out_ref linked_node (link_from_socket link))) in
         if String.eqb ty "GROUP" then
           socket ← group_output_input G linked_node from_name;
           let group_path := group_path ++ [PNode linked_node] in
           linked_results ← recurse socket (search_path ++ [link]) group_path;
           match linked_results with
           | [] => Ret (results, search_path, group_path)
           | _ => Ret (results ++ linked_results, search_path ++ [link],
                       group_path)
           end
         else if String.eqb ty "GROUP_INPUT" then
           socket ← enclosing_group_input G group_path from_name;
           linked_results ←
             recurse socket (search_path ++ [link]) (removelast group_path);
           match linked_results with
           | [] => Ret (results, search_path, group_path)
           | _ => Ret (results ++ linked_results, search_path ++ [link],
                       group_path)
           end
         else
           let results :=
             if shader_node_filter linked_node
             then results ++ [mkResult linked_node (search_path ++ [link])]
             else results in
           '(results, search_path) ←
             fold_outcome
               (fun '(results, search_path) i =>
                  linked_results ←
                    recurse (in_ref linked_node i) (search_path ++ [link])
                            group_path;
                  match linked_results with
                  | [] => Ret (results, search_path)
                  | _ => Ret (results ++ linked_results,
                              search_path ++ [link])
                  end)
               (seq 0 (length (inputs (node_of G linked_node))))
               (results, search_path);
           Ret (results, search_path, group_path))
      (links_of G start_socket)
      ([], search_path, group_path);
  Ret (results, group_path).

Definition search_nested (G : graph) (fuel : nat)
    (shader_node_filter : node_id -> bool)
    (s : sockref) (sp : list link) (gp : list path_obj)
  : outcome (list NodeTreeSearchResult) :=
  match fuel with
  | 0 => OutOfFuel
  | S fuel' =>
      '(r, _) ← search_from_socket G fuel' s shader_node_filter sp gp;
      Ret r
  end.

(** ** Example graphs *)

Module Fixtures.

Definition mk_node (ty op : string) (ins outs : list socket) : shader_node :=
  ShaderNode ty op "" "" "" "" "" "" "" "" None None ins outs.

Definition value_socket (nm : string) (x : float) : socket :=
  Socket nm nm "VALUE" (PropFloat x).

Definition color_socket (nm ident : string) (xs : list float) : socket :=
  Socket nm ident "RGBA" (PropArray xs).

Definition vector_socket (nm : string) (xs : list float) : socket :=
  Socket nm nm "VECTOR" (PropArray xs).

Definition graph_of (ns : list shader_node) (ls : list link) : graph :=
  Graph (fun i => nth i ns (mk_node "" "" [] [])) ls.

Definition white : list float := [1.0; 1.0; 1.0; 1.0]%float.

Definition tex_image : shader_node :=
  ShaderNode "TEX_IMAGE" "" "" "" "" "" "" "" "" "" (Some "image.png") None
             [vector_socket "Vector" [0; 0; 0]%float]
             [color_socket "Color" "Color" white; value_socket "Alpha" 0].

Definition bsdf (alpha : float) : shader_node :=
  mk_node "BSDF_PRINCIPLED" ""
          [color_socket "Base Color" "Base Color" white;
           value_socket "Alpha" alpha]
          [Socket "BSDF" "BSDF" "SHADER" (PropFloat 0)].

Definition math (op : string) (a b : float) : shader_node :=
  mk_node "MATH" op
          [value_socket "Value" a; Socket "Value" "Value_001" "VALUE"
                                          (PropFloat b)]
          [value_socket "Value" 0].

Definition reroute : shader_node :=
  mk_node "REROUTE" "" [value_socket "Input" 0] [value_socket "Output" 0].

(** The cursor on input [i] of node [n] of the material's own tree. *)
Definition at_input (n : node_id) (i : nat) : NodeNav :=
  mkNav n (Some (in_ref n i)) None [(PMaterial, None)] false.

(** Alpha fed by a value node. *)
Definition g_value : graph :=
  graph_of [bsdf 1; mk_node "VALUE" "" [] [value_socket "Value" 0.5]]
           [Link 1 0 0 1].

(** Alpha of 0.7 and, on a second shader, of 1. *)
Definition g_const : graph :=
  graph_of [bsdf 0.7; bsdf 1] [].

(** Alpha = vertex color "Col" * texture alpha. *)
Definition vertex_color : shader_node :=
  ShaderNode "VERTEX_COLOR" "" "" "" "Col" "" "" "" "" "" None None []
             [color_socket "Color" "Color" white; value_socket "Alpha" 0].

Definition g_attrib : graph :=
  graph_of [bsdf 1; math "MULTIPLY" 0.5 0.5; vertex_color; tex_image]
           [Link 1 0 0 1; Link 2 1 1 0; Link 3 1 1 1].

(** Alpha = round(texture alpha). *)
Definition g_round : graph :=
  graph_of [bsdf 1; math "ROUND" 0.5 0.5; tex_image]
           [Link 1 0 0 1; Link 2 1 1 0].

(** Alpha = 1 - (texture alpha < 0.3). *)
Definition g_clip : graph :=
  graph_of [bsdf 1; math "SUBTRACT" 1 0.5; math "LESS_THAN" 0.5 0.3;
            tex_image]
           [Link 1 0 0 1; Link 2 0 1 1; Link 3 1 2 0].

(** Two shaders fed by the same texture: the first directly, the second
    through two reroutes. *)
Definition g_reroute : graph :=
  graph_of [bsdf 1; bsdf 1; reroute; reroute; tex_image]
           [Link 4 1 0 1; Link 2 0 1 1; Link 3 0 2 0; Link 4 1 3 0].

(** Base color = texture * (0.5, 0.25, 0.125), and alpha = 0.5 * texture
    alpha. *)
Definition mix_multiply : shader_node :=
  ShaderNode "MIX" "" "RGBA" "MULTIPLY" "" "" "" "" "" "" None None
             [value_socket "Factor" 1;
              color_socket "A" "A_Color" white;
              color_socket "B" "B_Color" [0.5; 0.25; 0.125; 1.0]%float]
             [color_socket "Result" "Result_Color" white].

Definition g_factor : graph :=
  graph_of [bsdf 1; mix_multiply; math "MULTIPLY" 0.5 0.5; tex_image]
           [Link 1 0 0 0; Link 3 0 1 1; Link 2 0 0 1; Link 3 1 2 1].

(** A shader whose specular strength and tint are not connected. *)
Definition specular_bsdf (strength : float) : shader_node :=
  mk_node "BSDF_PRINCIPLED" ""
          [value_socket "Specular IOR Level" strength;
           color_socket "Specular Tint" "Specular Tint" white]
          [Socket "BSDF" "BSDF" "SHADER" (PropFloat 0)].

Definition g_specular (strength : float) : graph :=
  graph_of [specular_bsdf strength] [].

Definition specular_sockets (_ : unit) (name : string) : option py_object :=
  if String.eqb name "Specular IOR Level"
  then Some (BpyNodeSocket (in_ref 0 0))
  else if String.eqb name "Specular Tint"
       then Some (BpyNodeSocket (in_ref 0 1))
       else None.

Definition export_specular_of (strength : float)
  : outcome (option (Extension unit) * gmap string unit) :=
  export_specular (g_specular strength) unit unit unit unit specular_sockets
                  (fun _ _ => Ret None) (fun _ => Ret false)
                  (fun _ _ => Ret (tt, tt)) tt tt.

(** The same shader with the alpha of an image texture plugged into the
    specular strength; the stand-ins find an image behind a linked socket
    and gather its name and UV map. *)
Definition g_specular_textured : graph :=
  graph_of [specular_bsdf 0.5; tex_image] [Link 1 1 0 0].

Definition export_specular_textured
  : outcome (option (Extension string) * gmap string string) :=
  export_specular g_specular_textured unit unit string string
                  specular_sockets (fun _ _ => Ret None)
                  (fun o => Ret (match o with
                                 | BpyNodeSocket s =>
                                     is_linked g_specular_textured s
                                 | OtherObject => false
                                 end))
                  (fun _ _ => Ret ("image.png", "UVMap")) tt tt.

(** Mapping nodes in TEXTURE mode: rotated about X; a similarity; rotated
    with unequal scales; the identity. *)
Definition mapping (vt : string) (loc rot scale : list float) : shader_node :=
  ShaderNode "MAPPING" "" "" "" "" "" "" "" "" vt None None
             [vector_socket "Vector" [0; 0; 0]%float;
              vector_socket "Location" loc;
              vector_socket "Rotation" rot;
              vector_socket "Scale" scale]
             [vector_socket "Vector" [0; 0; 0]%float].

Definition g_mapping : graph :=
  graph_of [mapping "TEXTURE" [0; 0; 0]%float [0.5; 0; 0]%float
                    [1; 1; 1]%float;
            mapping "TEXTURE" [0.5; 0.25; 0]%float [0; 0; 0]%float
                    [2; 2; 1]%float;
            mapping "TEXTURE" [0; 0; 0]%float [0; 0; 0.5]%float
                    [1; 2; 1]%float;
            mapping "TEXTURE" [0; 0; 0]%float [0; 0; 0]%float
                    [1; 1; 1]%float]
           [].

(** Stand-ins for the conversion and for [mathutils], to run the function:
    no conversion, no rotation, no rounding. *)
Definition texture_transform_of (n : node_id)
  : outcome (option (gmap string value) * list string) :=
  get_texture_transform_from_mapping_node g_mapping (fun d => d)
                                          (fun _ v => v) (fun x => x) n.

(** A translated, scaled mapping node in POINT mode, and a translated,
    rotated one in VECTOR mode. *)
Definition g_mapping_modes : graph :=
  graph_of [mapping "POINT" [0.5; 0.25; 0]%float [0; 0; 0]%float
                    [2; 2; 1]%float;
            mapping "VECTOR" [0.5; 0.25; 0]%float [0; 0; 0.5]%float
                    [1; 1; 1]%float]
           [].

(** The anisotropy idiom: texture -> multiply-add -> separate XYZ, whose Z
    feeds the strength multiply and whose X and Y feed arctan2 -> add ->
    divide by 2 pi -> anisotropic rotation; and a UV tangent. *)
Definition anisotropy_nodes : list shader_node :=
  [mk_node "BSDF_PRINCIPLED" ""
           [value_socket "Anisotropic" 0;
            value_socket "Anisotropic Rotation" 0;
            vector_socket "Tangent" [0; 0; 0]%float]
           [Socket "BSDF" "BSDF" "SHADER" (PropFloat 0)];
   ShaderNode "TANGENT" "" "" "" "" "" "" "UV_MAP" "UVMap" "" None None []
              [vector_socket "Tangent" [0; 0; 0]%float];
   math "MULTIPLY" 0.5 0.8;
   mk_node "SEPXYZ" "" [vector_socket "Vector" [0; 0; 0]%float]
           [value_socket "X" 0; value_socket "Y" 0; value_socket "Z" 0];
   math "ARCTAN2" 0.5 0.5;
   math "ADD" 0.5 0.25;
   math "DIVIDE" 0.5 6.283185;
   mk_node "VECT_MATH" "MULTIPLY_ADD"
           [vector_socket "Vector" [0; 0; 0]%float;
            Socket "Vector" "Vector_001" "VECTOR"
                   (PropArray [2.0; 2.0; 1.0]%float);
            Socket "Vector" "Vector_002" "VECTOR"
                   (PropArray [-1.0; -1.0; 0.0]%float)]
           [vector_socket "Vector" [0; 0; 0]%float];
   tex_image].

Definition anisotropy_links_without_y : list link :=
  [Link 1 0 0 2; Link 2 0 0 0; Link 3 2 2 0; Link 3 0 4 1;
   Link 4 0 5 0; Link 5 0 6 0; Link 6 0 0 1; Link 7 0 3 0; Link 8 0 7 0].

Definition g_anisotropy : graph :=
  graph_of anisotropy_nodes (anisotropy_links_without_y ++ [Link 3 1 4 0]).

(** The same graph with the Y output of separate XYZ left unconnected. *)
Definition g_anisotropy_without_y : graph :=
  graph_of anisotropy_nodes anisotropy_links_without_y.

Definition bsdf_input (i : nat) : NodeSocket :=
  mkNodeSocket (Some (in_ref 0 i)) [PMaterial].

(** Alpha fed by a reroute that nothing is plugged into. *)
Definition g_dangling : graph :=
  graph_of [bsdf 1; reroute] [Link 1 0 0 1].

(** Alpha fed by a group that hands its input straight to its output; the
    texture's alpha is plugged into the group. *)
Definition pass_group : shader_node :=
  ShaderNode "GROUP" "" "" "" "" "" "" "" "" "" None (Some [2; 3])
             [value_socket "In" 0] [value_socket "Out" 0].

Definition g_group : graph :=
  graph_of [bsdf 1; pass_group;
            mk_node "GROUP_INPUT" "" [] [value_socket "In" 0];
            mk_node "GROUP_OUTPUT" "" [value_socket "Out" 0] [];
            tex_image]
           [Link 1 0 0 1; Link 2 0 3 0; Link 4 1 1 0].

(** Alpha of zero; and alpha = 0.25 * 0.5, both operands constant. *)
Definition g_zero : graph := graph_of [bsdf 0] [].

Definition g_product : graph :=
  graph_of [bsdf 1; math "MULTIPLY" 0.25 0.5] [Link 1 0 0 1].

(** Base color fed by the color attribute "Col". *)
Definition g_color : graph :=
  graph_of [bsdf 1; vertex_color] [Link 1 0 0 0].

(** What [get_vertex_color_info] returns for it. *)
Definition g_color_info : gmap string (option value) :=
  <["alpha_type" := None]>
    (<["color_type" := Some (VStr "name")]>
       (<["alpha" := None]> (<["color" := Some (VStr "Col")]> ∅))).

(** A shader whose output passes through a wrapper group before it reaches
    the active material output.  Node 1 is the group, 2 and 3 its input and
    output nodes, 4 the material output. *)
Definition shader_socket (nm : string) : socket :=
  Socket nm nm "SHADER" (PropFloat 0).

Definition g_wrapped : graph :=
  graph_of [bsdf 1;
            ShaderNode "GROUP" "" "" "" "" "" "" "" "" "" None (Some [2; 3])
                       [shader_socket "Shader"] [shader_socket "Shader"];
            mk_node "GROUP_INPUT" "" [] [shader_socket "Shader"];
            mk_node "GROUP_OUTPUT" "" [shader_socket "Shader"] [];
            mk_node "OUTPUT_MATERIAL" "" [shader_socket "Surface"] []]
           [Link 0 0 1 0; Link 2 0 3 0; Link 1 0 4 0].

Definition wrapped_material : material := Material (Some [0; 1; 4]) true.

Definition wrapped_active (n : node_id) : bool := Nat.eqb n 4.

(** A host for [dll_path]: every string names a file six levels below the
    root, and no file exists. *)
Definition host_path (s : string) : py_path :=
  PyPath "/" ["srv"; "a"; "b"; "c"; "d"; s].

Definition dll_path_on (env : option string) (platform : string)
  : list string * outcome py_path :=
  dll_path host_path (fun p => p) (fun _ => false) "bpy" "blender" "4.2"
           "python3.11" env platform.

End Fixtures.

(** * Properties *)

(** ** Basic facts about the cursor *)

Lemma move_back_unfold (G : graph) (fuel : nat) (in_soc : selector)
    (self : NodeNav) :
  move_back G fuel in_soc self =
  (self ← select_input_socket G in_soc (set_moved false self);
   match in_socket self with
   | None => Ret self
   | Some s =>
       if negb (is_linked G s) then Ret self else
       match links_of G s with
       | [] => Raise IndexError
       | l :: _ => arrive G fuel l (stack self)
       end
   end).
Proof. destruct fuel; reflexivity. Qed.

Lemma is_linked_cons (G : graph) (s : sockref) (l : link) (ls : list link) :
  links_of G s = l :: ls -> is_linked G s = true.
Proof. unfold is_linked. intros ->. reflexivity. Qed.

(** Moving back from a socket with a link follows the link. *)
Lemma move_back_linked (G : graph) (fuel : nat) (self : NodeNav)
    (s : sockref) (l : link) (ls : list link) :
  in_socket self = Some s ->
  links_of G s = l :: ls ->
  move_back G fuel SelNone self = arrive G fuel l (stack self).
Proof.
  intros Hin Hl. rewrite move_back_unfold. simpl.
  rewrite Hin, (is_linked_cons _ _ _ _ Hl), Hl. reflexivity.
Qed.

(** Moving back from a socket without a link stays put. *)
Lemma move_back_unlinked (G : graph) (fuel : nat) (self : NodeNav)
    (s : sockref) :
  in_socket self = Some s ->
  is_linked G s = false ->
  move_back G fuel SelNone self = Ret (set_moved false self).
Proof.
  intros Hin Hl. rewrite move_back_unfold. simpl. rewrite Hin, Hl.
  reflexivity.
Qed.

Lemma arrive_plain (G : graph) (fuel : nat) (l : link)
    (stk : list (path_obj * option sockref)) :
  is_pass_through (node_of G (link_from_node l)) = false ->
  arrive G fuel l stk = Ret (landed l stk).
Proof.
  unfold is_pass_through, arrive. simpl. intros H.
  destruct (String.eqb _ "REROUTE"); [discriminate|].
  destruct (String.eqb _ "GROUP"); [discriminate|].
  destruct (String.eqb _ "GROUP_INPUT"); [discriminate|].
  reflexivity.
Qed.

Lemma copy_eq (self : NodeNav) : copy self = self.
Proof. destruct self; reflexivity. Qed.

Lemma assign_eq (self other : NodeNav) : assign self other = other.
Proof. destruct other; reflexivity. Qed.

Lemma peek_back_none (G : graph) (fuel : nat) (self : NodeNav) :
  peek_back G fuel SelNone self = move_back G fuel SelNone self.
Proof. unfold peek_back. rewrite copy_eq. reflexivity. Qed.

(** Peeking through a direct link to a plain node lands on that node. *)
Lemma peek_back_direct (G : graph) (fuel : nat) (self : NodeNav)
    (s : sockref) (l : link) (ls : list link) :
  in_socket self = Some s ->
  links_of G s = l :: ls ->
  is_pass_through (node_of G (link_from_node l)) = false ->
  peek_back G fuel SelNone self = Ret (landed l (stack self)).
Proof.
  intros Hin Hl Hp. rewrite peek_back_none.
  rewrite (move_back_linked _ _ _ _ _ _ Hin Hl). apply arrive_plain, Hp.
Qed.

Lemma select_none (G : graph) (self : NodeNav) :
  select_input_socket G SelNone self = Ret self.
Proof. reflexivity. Qed.

Lemma select_int (G : graph) (self : NodeNav) (i : nat) :
  input_by_index G (node self) i = Ret (in_ref (node self) i) ->
  select_input_socket G (SelInt i) self
  = Ret (set_in_socket (Some (in_ref (node self) i)) self).
Proof. simpl. intros ->. reflexivity. Qed.

(** ** get_constant and get_factor *)

(** The body of [get_constant] once a linked socket is selected. *)
Lemma get_constant_linked (G : graph) (fuel : nat) (self : NodeNav)
    (s : sockref) (nav : NodeNav) :
  in_socket self = Some s ->
  is_linked G s = true ->
  peek_back G fuel SelNone self = Ret nav ->
  get_constant G fuel SelNone self =
  (if moved nav then
     if String.eqb (s_type (sock_of G s)) "RGBA" then
       if String.eqb (n_type (node_of G (node nav))) "RGB" then
         match out_socket nav with
         | None => Raise AttributeError
         | Some o =>
             color ← py_list (s_default_value (sock_of G o));
             Ret (Some (VList (take 3 color)), self)
         end
       else Ret (None, self)
     else if String.eqb (s_type (sock_of G s)) "VALUE" then
       if String.eqb (n_type (node_of G (node nav))) "VALUE"
       then Raise AttributeError
       else Ret (None, self)
     else Ret (None, self)
   else Ret (None, self)).
Proof.
  intros Hin Hl Hp. unfold get_constant. simpl.
  rewrite Hin, Hl. simpl. rewrite Hp. reflexivity.
Qed.

Lemma get_constant_nonliteral (G : graph) (fuel : nat) (self : NodeNav)
    (s : sockref) (nav : NodeNav) :
  in_socket self = Some s ->
  is_linked G s = true ->
  peek_back G fuel SelNone self = Ret nav ->
  is_literal_node (node_of G (node nav)) = false ->
  get_constant G fuel SelNone self = Ret (None, self).
Proof.
  intros Hin Hl Hp Hlit.
  rewrite (get_constant_linked _ _ _ _ _ Hin Hl Hp).
  unfold is_literal_node in Hlit. apply orb_false_elim in Hlit as [-> ->].
  destruct (moved nav), (String.eqb (s_type (sock_of G s)) "RGBA"),
    (String.eqb (s_type (sock_of G s)) "VALUE"); reflexivity.
Qed.

(** A scalar socket fed by a value node: the lookup of the literal fails,
    [nav.node] has no [out_socket]. *)
Lemma get_constant_value_node (G : graph) (fuel : nat) (self : NodeNav)
    (s : sockref) (nav : NodeNav) :
  in_socket self = Some s ->
  s_type (sock_of G s) = "VALUE" ->
  is_linked G s = true ->
  peek_back G fuel SelNone self = Ret nav ->
  moved nav = true ->
  n_type (node_of G (node nav)) = "VALUE" ->
  get_constant G fuel SelNone self = Raise AttributeError.
Proof.
  intros Hin Hty Hl Hp Hm Hn.
  rewrite (get_constant_linked _ _ _ _ _ Hin Hl Hp), Hm, Hty, Hn.
  reflexivity.
Qed.

(** C2, on the graph whose alpha is fed by a value node: the call raises
    instead of returning the node's value 0.5. *)
Theorem C2_value_node_raises :
  get_constant Fixtures.g_value 1 SelNone (Fixtures.at_input 0 1)
  = Raise AttributeError.
Proof.
  apply (get_constant_value_node _ _ _ (in_ref 0 1)
           (landed (Link 1 0 0 1) [(PMaterial, None)])); reflexivity.
Qed.

(** C5: an unconnected scalar or color input gives its default value (a
    color without its alpha); a connected input whose producer is not a
    literal node gives no constant, and no factor when the producer is not
    the multiply idiom either. *)
Theorem C5_defaults_and_no_value (G : graph) (fuel : nat) (self : NodeNav)
    (s : sockref) :
  in_socket self = Some s ->
  (is_linked G s = false -> s_type (sock_of G s) = "VALUE" ->
   get_constant G fuel SelNone self
   = Ret (Some (value_of_prop (s_default_value (sock_of G s))), self))
  /\ (forall xs, is_linked G s = false -> s_type (sock_of G s) = "RGBA" ->
      s_default_value (sock_of G s) = PropArray xs ->
      get_constant G fuel SelNone self = Ret (Some (VList (take 3 xs)), self))
  /\ (forall nav, is_linked G s = true ->
      peek_back G fuel SelNone self = Ret nav ->
      is_literal_node (node_of G (node nav)) = false ->
      get_constant G fuel SelNone self = Ret (None, self)
      /\ (is_mix_multiply (node_of G (node nav)) = false ->
          is_math_multiply (node_of G (node nav)) = false ->
          get_factor G fuel SelNone self = Ret (None, self))).
Proof.
  intros Hin. split; [|split; [|intros nav H H0 H1; split]].
  - intros Hl Hty. unfold get_constant. simpl. rewrite Hin, Hl, Hty.
    reflexivity.
  - intros xs Hl Hty Hd. unfold get_constant. simpl.
    rewrite Hin, Hl, Hty, Hd. reflexivity.
  - eapply get_constant_nonliteral; eauto.
  - intros Hmix Hmath. unfold get_factor. simpl. rewrite Hin.
    rewrite (get_constant_nonliteral _ _ _ _ _ Hin H H0 H1). simpl.
    rewrite H0. simpl.
    unfold is_mix_multiply in Hmix. unfold is_math_multiply in Hmath.
    rewrite Hmix, Hmath.
    destruct (moved nav), (String.eqb (s_type (sock_of G s)) "RGBA"),
      (String.eqb (s_type (sock_of G s)) "VALUE"); reflexivity.
Qed.

Lemma C5_witness :
  get_constant Fixtures.g_const 0 SelNone (Fixtures.at_input 0 1)
  = Ret (Some (VFloat 0.7), Fixtures.at_input 0 1)
  /\ get_constant Fixtures.g_const 0 SelNone (Fixtures.at_input 0 0)
     = Ret (Some (VList [1.0; 1.0; 1.0]%float), Fixtures.at_input 0 0)
  /\ get_constant Fixtures.g_round 0 SelNone (Fixtures.at_input 0 1)
     = Ret (None, Fixtures.at_input 0 1)
  /\ get_factor Fixtures.g_round 0 SelNone (Fixtures.at_input 0 1)
     = Ret (None, Fixtures.at_input 0 1).
Proof.
  pose proof (C5_defaults_and_no_value Fixtures.g_const 0
                (Fixtures.at_input 0 1) (in_ref 0 1) eq_refl) as [H1 _].
  pose proof (C5_defaults_and_no_value Fixtures.g_const 0
                (Fixtures.at_input 0 0) (in_ref 0 0) eq_refl) as [_ [H2 _]].
  pose proof (C5_defaults_and_no_value Fixtures.g_round 0
                (Fixtures.at_input 0 1) (in_ref 0 1) eq_refl) as [_ [_ H3]].
  specialize (H3 (landed (Link 1 0 0 1) [(PMaterial, None)])
                 eq_refl eq_refl eq_refl) as [H3 H4].
  split; [|split; [|split]].
  - apply H1; reflexivity.
  - apply (H2 Fixtures.white); reflexivity.
  - exact H3.
  - apply H4; reflexivity.
Defined.

Lemma mix_multiply_not_literal (n : shader_node) :
  is_mix_multiply n = true -> is_literal_node n = false.
Proof.
  unfold is_mix_multiply, is_literal_node. intros H.
  apply andb_prop in H as [H _]. apply andb_prop in H as [H _].
  apply String.eqb_eq in H. rewrite H. reflexivity.
Qed.

Lemma math_multiply_not_literal (n : shader_node) :
  is_math_multiply n = true -> is_literal_node n = false.
Proof.
  unfold is_math_multiply, is_literal_node. intros H.
  apply andb_prop in H as [H _].
  apply String.eqb_eq in H. rewrite H. reflexivity.
Qed.

(** C6: behind a connected input, with the multiply idiom as producer
    (mix-multiply for a color socket, read at [#A_Color] and [#B_Color];
    math-multiply for a scalar socket, read at inputs 0 and 1), [get_factor]
    reads both operands with [get_constant] and returns the one constant
    when exactly one operand is constant, and [None] when none or both
    are. *)
Theorem C6_factor_of_multiply (G : graph) (fuel : nat) (self : NodeNav)
    (s : sockref) (nav nav1 nav2 : NodeNav) (selA selB : selector)
    (x1 x2 : option value) :
  in_socket self = Some s ->
  is_linked G s = true ->
  peek_back G fuel SelNone self = Ret nav ->
  moved nav = true ->
  (s_type (sock_of G s) = "RGBA"
   /\ is_mix_multiply (node_of G (node nav)) = true
   /\ selA = SelStr "#A_Color" /\ selB = SelStr "#B_Color")
  \/ (s_type (sock_of G s) = "VALUE"
      /\ is_math_multiply (node_of G (node nav)) = true
      /\ selA = SelInt 0 /\ selB = SelInt 1) ->
  get_constant G fuel selA nav = Ret (x1, nav1) ->
  get_constant G fuel selB nav1 = Ret (x2, nav2) ->
  get_factor G fuel SelNone self = Ret (exactly_one x1 x2, self)
  /\ (forall v, x1 = Some v -> x2 = None -> exactly_one x1 x2 = Some v)
  /\ (forall v, x1 = None -> x2 = Some v -> exactly_one x1 x2 = Some v)
  /\ (x1 = None -> x2 = None -> exactly_one x1 x2 = None)
  /\ (forall v w, x1 = Some v -> x2 = Some w -> exactly_one x1 x2 = None).
Proof.
  intros Hin Hl Hp Hm Hidiom HA HB.
  split; [|split; [|split; [|split]]]; try (intros; subst; reflexivity).
  unfold get_factor. simpl. rewrite Hin.
  destruct Hidiom as [(Hty & Hmul & -> & ->) | (Hty & Hmul & -> & ->)].
  - rewrite (get_constant_nonliteral _ _ _ _ _ Hin Hl Hp
               (mix_multiply_not_literal _ Hmul)). simpl.
    rewrite Hp. simpl. rewrite Hm, Hty. simpl.
    unfold is_mix_multiply in Hmul. rewrite Hmul.
    rewrite HA. simpl. rewrite HB. simpl.
    destruct x1, x2; reflexivity.
  - rewrite (get_constant_nonliteral _ _ _ _ _ Hin Hl Hp
               (math_multiply_not_literal _ Hmul)). simpl.
    rewrite Hp. simpl. rewrite Hm, Hty. simpl.
    unfold is_math_multiply in Hmul. rewrite Hmul.
    rewrite HA. simpl. rewrite HB. simpl.
    destruct x1, x2; reflexivity.
Qed.

Lemma C6_witness :
  get_factor Fixtures.g_factor 0 SelNone (Fixtures.at_input 0 0)
  = Ret (Some (VList [0.5; 0.25; 0.125]%float), Fixtures.at_input 0 0)
  /\ get_factor Fixtures.g_factor 0 SelNone (Fixtures.at_input 0 1)
     = Ret (Some (VFloat 0.5), Fixtures.at_input 0 1).
Proof.
  split.
  - refine (proj1 (C6_factor_of_multiply Fixtures.g_factor 0
                     (Fixtures.at_input 0 0) (in_ref 0 0)
                     (landed (Link 1 0 0 0) [(PMaterial, None)])
                     _ _ (SelStr "#A_Color") (SelStr "#B_Color")
                     None (Some (VList [0.5; 0.25; 0.125]%float))
                     eq_refl eq_refl eq_refl eq_refl _ eq_refl eq_refl)).
    left. repeat split; reflexivity.
  - refine (proj1 (C6_factor_of_multiply Fixtures.g_factor 0
                     (Fixtures.at_input 0 1) (in_ref 0 1)
                     (landed (Link 2 0 0 1) [(PMaterial, None)])
                     _ _ (SelInt 0) (SelInt 1)
                     (Some (VFloat 0.5)) None
                     eq_refl eq_refl eq_refl eq_refl _ eq_refl eq_refl)).
    right. repeat split; reflexivity.
Defined.

(** ** Reroutes are transparent *)

Lemma move_back_select_int (G : graph) (fuel : nat) (self : NodeNav)
    (i : nat) :
  input_by_index G (node self) i = Ret (in_ref (node self) i) ->
  move_back G fuel (SelInt i) self
  = move_back G fuel SelNone
              (set_in_socket (Some (in_ref (node self) i)) self).
Proof.
  intros H. rewrite !move_back_unfold. simpl. rewrite H. reflexivity.
Qed.

Lemma arrive_reroute (G : graph) (fuel : nat) (l : link)
    (stk : list (path_obj * option sockref)) :
  n_type (node_of G (link_from_node l)) = "REROUTE" ->
  arrive G (S fuel) l stk = move_back G fuel (SelInt 0) (landed l stk).
Proof. unfold arrive. simpl. intros ->. reflexivity. Qed.

(** Through a chain of [n] reroutes, [move_back] gets to the producer's link
    with [n] units of fuel less. *)
Lemma move_back_chain (G : graph) (n : nat) (s : sockref) (l : link) :
  reroute_chain G n s l ->
  forall (fuel : nat) (self : NodeNav),
    in_socket self = Some s ->
    move_back G (n + fuel) SelNone self = arrive G fuel l (stack self).
Proof.
  induction 1 as [s l ls Hl | n s l0 ls l Hl Hty Hin0 Hchain IH];
    intros fuel self Hin.
  - apply (move_back_linked _ _ _ _ _ _ Hin Hl).
  - rewrite (move_back_linked _ _ _ _ _ _ Hin Hl). simpl.
    rewrite (arrive_reroute _ _ _ _ Hty).
    rewrite move_back_select_int by exact Hin0.
    etransitivity; [apply IH; reflexivity | reflexivity].
Qed.

(** C9: a cursor whose input is fed through [n] reroutes by a producer
    ends, after [move_back], exactly where a cursor with the same stack
    ends whose input is linked directly to that producer's output: same
    node, sockets, stack and [moved] flag, same exception if one is raised.
    The chain costs [n] nested calls. *)
Theorem C9_reroutes_transparent (G : graph) (n fuel : nat)
    (direct chained : NodeNav) (s1 s2 : sockref) (l1 l2 : link)
    (ls1 : list link) :
  in_socket direct = Some s1 ->
  links_of G s1 = l1 :: ls1 ->
  in_socket chained = Some s2 ->
  reroute_chain G n s2 l2 ->
  link_from_node l1 = link_from_node l2 ->
  link_from_socket l1 = link_from_socket l2 ->
  stack direct = stack chained ->
  move_back G (n + fuel) SelNone chained = move_back G fuel SelNone direct.
Proof.
  intros Hin1 Hl1 Hin2 Hchain Hnode Hsock Hstack.
  rewrite (move_back_chain _ _ _ _ Hchain fuel _ Hin2).
  rewrite (move_back_linked _ _ _ _ _ _ Hin1 Hl1).
  unfold arrive, landed. rewrite Hnode, Hsock, Hstack. reflexivity.
Qed.

Lemma C9_witness :
  move_back Fixtures.g_reroute 2 SelNone (Fixtures.at_input 1 1)
  = move_back Fixtures.g_reroute 0 SelNone (Fixtures.at_input 0 1)
  /\ move_back Fixtures.g_reroute 0 SelNone (Fixtures.at_input 0 1)
     = Ret (landed (Link 4 1 0 1) [(PMaterial, None)]).
Proof.
  split; [|reflexivity].
  apply (C9_reroutes_transparent Fixtures.g_reroute 2 0
           (Fixtures.at_input 0 1) (Fixtures.at_input 1 1)
           (in_ref 0 1) (in_ref 1 1) (Link 4 1 0 1) (Link 4 1 3 0) []);
    try reflexivity.
  eapply chain_reroute; try reflexivity.
  eapply chain_reroute; try reflexivity.
  eapply chain_direct; reflexivity.
Defined.

(** ** The detectors leave the cursor alone unless they detect *)

(** Case analysis along the binds, tests and matches of a run that is known
    to have returned. *)
Ltac run_cases H :=
  repeat (cbn [mbind outcome_bind mret outcome_ret] in H;
          match type of H with
          | Ret _ = Ret _ => fail 1
          | context [mbind _ ?m] =>
              lazymatch m with
              | context [mbind _ _] => fail
              | _ => destruct m as [?|?|] eqn:?; try discriminate H
              end
          | context [if ?b then _ else _] =>
              destruct b eqn:?; try discriminate H
          | context [match ?x with _ => _ end] =>
              destruct x eqn:?; try discriminate H
          end).

Ltac unchanged H :=
  run_cases H;
  try discriminate H;
  inversion H; subst; cbn [is_none negb] in *;
  rewrite ?andb_false_r in *; try discriminate; try reflexivity.

Lemma detect_alpha_clip_atomic (G : graph) (fuel : nat)
    (nav nav' : NodeNav) :
  detect_alpha_clip G fuel nav = Ret (None, nav') -> nav' = nav.
Proof. unfold detect_alpha_clip. intros H. unchanged H. Qed.

Lemma detect_multiply_by_constant_atomic (G : graph) (fuel : nat)
    (nav nav' : NodeNav) :
  detect_multiply_by_constant G fuel nav = Ret (None, nav') -> nav' = nav.
Proof. unfold detect_multiply_by_constant. intros H. unchanged H. Qed.

Lemma detect_multiply_by_color_attrib_atomic (G : graph) (fuel : nat)
    (nav nav' : NodeNav) :
  detect_multiply_by_color_attrib G fuel nav = Ret (None, nav') ->
  nav' = nav.
Proof. unfold detect_multiply_by_color_attrib. intros H. unchanged H. Qed.

(** C10: each of the three detectors is atomic on its cursor: a run that
    returns [None] hands the cursor back exactly as it got it (node, both
    sockets, stack and [moved] flag), so the cursor is advanced only
    together with a result that is not [None]. *)
Theorem C10_detectors_atomic (G : graph) (fuel : nat) (nav nav' : NodeNav)
    (r : option value) :
  r = None ->
  (detect_alpha_clip G fuel nav = Ret (r, nav') -> nav' = nav)
  /\ (detect_multiply_by_constant G fuel nav = Ret (r, nav') -> nav' = nav)
  /\ (detect_multiply_by_color_attrib G fuel nav = Ret (r, nav') ->
      nav' = nav).
Proof.
  intros ->. split; [|split].
  - apply detect_alpha_clip_atomic.
  - apply detect_multiply_by_constant_atomic.
  - apply detect_multiply_by_color_attrib_atomic.
Qed.

Lemma C10_witness :
  (detect_alpha_clip Fixtures.g_attrib 0 (Fixtures.at_input 0 1)
   = Ret (None, Fixtures.at_input 0 1)
   /\ detect_multiply_by_constant Fixtures.g_attrib 0 (Fixtures.at_input 0 1)
      = Ret (None, Fixtures.at_input 0 1)
   /\ detect_multiply_by_color_attrib Fixtures.g_round 0
        (Fixtures.at_input 0 1)
      = Ret (None, Fixtures.at_input 0 1))
  /\ Fixtures.at_input 0 1 = Fixtures.at_input 0 1.
Proof.
  split; [split; [|split]; reflexivity|].
  apply (proj1 (C10_detectors_atomic Fixtures.g_attrib 0
                  (Fixtures.at_input 0 1) (Fixtures.at_input 0 1) None
                  eq_refl)).
  reflexivity.
Defined.

(** Where a detector does detect, it moves the cursor on: after the round
    node is recognised the cursor sits on that node's first input. *)
Example detect_alpha_clip_advances :
  detect_alpha_clip Fixtures.g_round 0 (Fixtures.at_input 0 1)
  = Ret (Some (VFloat 0.5),
         mkNav 1 (Some (in_ref 1 0)) (Some (out_ref 1 0))
               [(PMaterial, None)] true).
Proof. reflexivity. Qed.

(** ** gather_alpha_info *)

Lemma dict_get_insert_eq {V : Type} (d : gmap string V) (k : string)
    (v : V) :
  dict_get (<[k := v]> d) k = Ret v.
Proof. unfold dict_get. rewrite lookup_insert_eq. reflexivity. Qed.

Lemma dict_get_insert_ne {V : Type} (d : gmap string V) (k k' : string)
    (v : V) :
  k <> k' -> dict_get (<[k := v]> d) k' = dict_get d k'.
Proof.
  intros H. unfold dict_get. rewrite lookup_insert_ne by exact H.
  reflexivity.
Qed.

Lemma alpha_factor_step_keeps (G : graph) (fuel : nat) (key : string)
    (info info' : gmap string (option value)) (nav nav' : NodeNav)
    (fl : flow) :
  key <> "alphaFactor" ->
  alpha_factor_step G fuel info nav = Ret (fl, info', nav') ->
  info' !! key = info !! key.
Proof.
  intros Hk H. unfold alpha_factor_step in H.
  destruct (dict_get info "alphaFactor") as [f| |]; try discriminate H.
  cbn [mbind outcome_bind] in H.
  destruct (is_none f); [|injection H as _ <- _; reflexivity].
  destruct (get_constant G fuel SelNone nav) as [[a n]| |];
    try discriminate H.
  cbn [mbind outcome_bind] in H. destruct a.
  { injection H as _ <- _. rewrite lookup_insert_ne by congruence.
    reflexivity. }
  destruct (detect_multiply_by_constant G fuel n) as [[a n2]| |];
    try discriminate H.
  cbn [mbind outcome_bind] in H. destruct a; injection H as _ <- _.
  - rewrite lookup_insert_ne by congruence. reflexivity.
  - reflexivity.
Qed.

Lemma alpha_attrib_step_keeps (G : graph) (fuel : nat) (key : string)
    (info info' : gmap string (option value)) (nav nav' : NodeNav)
    (fl : flow) :
  key <> "alphaColorAttr" ->
  alpha_attrib_step G fuel info nav = Ret (fl, info', nav') ->
  info' !! key = info !! key.
Proof.
  intros Hk H. unfold alpha_attrib_step in H.
  destruct (dict_get info "alphaColorAttrib") as [f| |]; try discriminate H.
  cbn [mbind outcome_bind] in H.
  destruct (is_none f); [|injection H as _ <- _; reflexivity].
  destruct (get_color_attrib G fuel nav) as [a| |]; try discriminate H.
  cbn [mbind outcome_bind] in H. destruct a.
  { injection H as _ <- _. rewrite lookup_insert_ne by congruence.
    reflexivity. }
  destruct (detect_multiply_by_color_attrib G fuel nav) as [[a n2]| |];
    try discriminate H.
  cbn [mbind outcome_bind] in H. destruct a; injection H as _ <- _.
  - rewrite lookup_insert_ne by congruence. reflexivity.
  - reflexivity.
Qed.

(** The loop writes the keys [alphaFactor] and [alphaColorAttr], and no
    other. *)
Lemma alpha_loop_keeps (G : graph) (fuel rounds : nat) (key : string) :
  key <> "alphaFactor" -> key <> "alphaColorAttr" ->
  forall (info info' : gmap string (option value)) (nav nav' : NodeNav),
    alpha_loop G fuel rounds info nav = Ret (info', nav') ->
    info' !! key = info !! key.
Proof.
  intros Hf Ha. induction rounds as [|rounds IH]; intros info info' nav nav' H.
  - simpl in H. injection H as -> _. reflexivity.
  - simpl in H.
    destruct (alpha_factor_step G fuel info nav) as [[[fl i1] n1]| |] eqn:E1;
      try discriminate H.
    cbn [mbind outcome_bind] in H.
    pose proof (alpha_factor_step_keeps _ _ key _ _ _ _ _ Hf E1) as K1.
    destruct fl.
    + injection H as <- _. exact K1.
    + apply IH in H. congruence.
    + destruct (alpha_attrib_step G fuel i1 n1) as [[[fl i2] n2]| |] eqn:E2;
        try discriminate H.
      cbn [mbind outcome_bind] in H.
      pose proof (alpha_attrib_step_keeps _ _ key _ _ _ _ _ Ha E2) as K2.
      destruct fl.
      * injection H as <- _. congruence.
      * apply IH in H. congruence.
      * injection H as <- _. congruence.
Qed.

Lemma set_alpha_mode_keeps (info info' : gmap string (option value))
    (key : string) :
  key <> "alphaMode" -> key <> "alphaCutoff" ->
  set_alpha_mode info = Ret info' -> info' !! key = info !! key.
Proof.
  intros Hm Hc H. unfold set_alpha_mode in H.
  run_cases H; inversion H; subst;
    rewrite ?lookup_insert_ne by congruence; reflexivity.
Qed.

(** Whatever the alpha input looks like, the result's [alphaColorAttrib]
    is [None]: the attribute found by the loop goes to another key. *)
Lemma gather_alpha_info_attrib_none (G : graph) (fuel : nat)
    (nav : option NodeNav) (info : gmap string (option value))
    (nav' : option NodeNav) :
  gather_alpha_info G fuel nav = Ret (info, nav') ->
  info !! "alphaColorAttrib" = Some None.
Proof.
  unfold gather_alpha_info. intros H.
  destruct nav as [nav|]; [|injection H as <- _; reflexivity].
  cbn [mbind outcome_bind] in H.
  destruct (get_constant G fuel SelNone nav) as [[c nav1]| |] eqn:Ec;
    try discriminate H.
  cbn [mbind outcome_bind] in H.
  destruct (py_eq_num c 1).
  { injection H as <- _. reflexivity. }
  destruct (detect_alpha_clip G fuel nav1) as [[cutoff nav2]| |] eqn:Ed;
    try discriminate H.
  cbn [mbind outcome_bind] in H.
  destruct (alpha_loop G fuel 2 _ nav2) as [[info1 nav3]| |] eqn:El;
    try discriminate H.
  cbn [mbind outcome_bind] in H.
  destruct (set_alpha_mode info1) as [info2| |] eqn:Es; try discriminate H.
  injection H as <- _.
  rewrite (set_alpha_mode_keeps _ _ "alphaColorAttrib" ltac:(congruence)
             ltac:(congruence) Es).
  rewrite (alpha_loop_keeps _ _ _ "alphaColorAttrib" ltac:(congruence)
             ltac:(congruence) _ _ _ _ El).
  destruct cutoff; reflexivity.
Qed.

(** C1, on the graph whose alpha is (vertex color "Col") * (texture alpha):
    the multiplication by the color attribute is peeled off, but the
    attribute's name is stored under the key [alphaColorAttr]; the field
    [alphaColorAttrib] of the result is [None]. *)
Theorem C1_attribute_name_lost :
  exists info nav',
    gather_alpha_info Fixtures.g_attrib 0 (Some (Fixtures.at_input 0 1))
    = Ret (info, nav')
    /\ info !! "alphaColorAttrib" = Some None
    /\ info !! "alphaColorAttr" = Some (Some (VStr "Col")).
Proof.
  eexists _, _. split; [reflexivity|]. split; reflexivity.
Qed.

Lemma get_constant_select_int (G : graph) (fuel : nat) (self : NodeNav)
    (i : nat) :
  input_by_index G (node self) i = Ret (in_ref (node self) i) ->
  get_constant G fuel (SelInt i) self
  = get_constant G fuel SelNone
                 (set_in_socket (Some (in_ref (node self) i)) self).
Proof. intros H. unfold get_constant. simpl. rewrite H. reflexivity. Qed.

Lemma get_constant_unlinked_constant (G : graph) (fuel : nat)
    (self : NodeNav) (n : node_id) (i : nat) (x : float) :
  unlinked_constant G n i x ->
  in_socket self = Some (in_ref n i) ->
  get_constant G fuel SelNone self = Ret (Some (VFloat x), self).
Proof.
  intros (_ & Hl & Hty & Hd) Hin. unfold get_constant. simpl.
  rewrite Hin, Hl, Hty, Hd. reflexivity.
Qed.

(** Only an unconnected socket gives a float constant. *)
Lemma get_constant_float_inv (G : graph) (fuel : nat) (nav nav1 : NodeNav)
    (c : float) :
  get_constant G fuel SelNone nav = Ret (Some (VFloat c), nav1) ->
  nav1 = nav /\ exists s, in_socket nav = Some s /\ is_linked G s = false.
Proof.
  unfold get_constant. simpl. intros H.
  destruct (in_socket nav) as [s|] eqn:Hin; [|discriminate H].
  destruct (is_linked G s) eqn:Hl; simpl in H.
  - exfalso.
    destruct (peek_back G fuel SelNone nav) as [p| |]; try discriminate H.
    cbn [mbind outcome_bind] in H.
    destruct (moved p); [|discriminate H].
    destruct (String.eqb (s_type (sock_of G s)) "RGBA").
    + destruct (String.eqb (n_type (node_of G (node p))) "RGB");
        [|discriminate H].
      destruct (out_socket p); [|discriminate H].
      destruct (py_list (s_default_value (sock_of G s0)));
        discriminate H.
    + destruct (String.eqb (s_type (sock_of G s)) "VALUE"); [|discriminate H].
      destruct (String.eqb (n_type (node_of G (node p))) "VALUE");
        discriminate H.
  - split; [|exists s; split; [reflexivity|exact Hl]].
    destruct (String.eqb (s_type (sock_of G s)) "RGBA").
    { destruct (py_list (s_default_value (sock_of G s))); discriminate H. }
    destruct (String.eqb (s_type (sock_of G s)) "SHADER"); [discriminate H|].
    destruct (String.eqb (s_type (sock_of G s)) "VECTOR").
    { destruct (py_list (s_default_value (sock_of G s))); discriminate H. }
    destruct (String.eqb (s_type (sock_of G s)) "VALUE"); [|discriminate H].
    injection H as _ <-. reflexivity.
Qed.

Lemma detect_alpha_clip_unlinked (G : graph) (fuel : nat) (nav : NodeNav)
    (s : sockref) :
  in_socket nav = Some s ->
  is_linked G s = false ->
  detect_alpha_clip G fuel nav = Ret (None, nav).
Proof.
  intros Hin Hl. unfold detect_alpha_clip.
  rewrite peek_back_none, (move_back_unlinked _ _ _ _ Hin Hl). reflexivity.
Qed.

(** A detected clip makes the mode MASK, whatever the loop peels off
    after it. *)
Lemma gather_alpha_info_mask (G : graph) (fuel : nat)
    (nav nav1 nav2 nav' : NodeNav) (c : option value) (k : value)
    (info : gmap string (option value)) :
  get_constant G fuel SelNone nav = Ret (c, nav1) ->
  py_eq_num c 1 = false ->
  detect_alpha_clip G fuel nav1 = Ret (Some k, nav2) ->
  alpha_loop G fuel 2 (mask_info k) nav2 = Ret (info, nav') ->
  gather_alpha_info G fuel (Some nav) = Ret (info, Some nav')
  /\ info !! "alphaMode" = Some (Some (VStr "MASK"))
  /\ info !! "alphaCutoff" = Some (Some k).
Proof.
  intros Hc Hne Hd Hloop.
  assert (Hmode : info !! "alphaMode" = Some (Some (VStr "MASK"))).
  { rewrite (alpha_loop_keeps _ _ _ "alphaMode" ltac:(congruence)
               ltac:(congruence) _ _ _ _ Hloop). reflexivity. }
  assert (Hcut : info !! "alphaCutoff" = Some (Some k)).
  { rewrite (alpha_loop_keeps _ _ _ "alphaCutoff" ltac:(congruence)
               ltac:(congruence) _ _ _ _ Hloop). reflexivity. }
  split; [|split; assumption].
  unfold gather_alpha_info. rewrite Hc. cbn [mbind outcome_bind].
  rewrite Hne, Hd. cbn [mbind outcome_bind].
  fold (mask_info k). rewrite Hloop. cbn [mbind outcome_bind].
  unfold set_alpha_mode, dict_get. rewrite Hmode. reflexivity.
Qed.

Lemma math_is_plain (n : shader_node) :
  n_type n = "MATH" -> is_pass_through n = false /\ is_literal_node n = false.
Proof.
  unfold is_pass_through, is_literal_node. intros ->. split; reflexivity.
Qed.

(** Alpha -> [Math:Round] -> Alpha Socket *)
Lemma detect_alpha_clip_round (G : graph) (fuel : nat) (nav : NodeNav)
    (s : sockref) (l : link) (ls : list link) :
  in_socket nav = Some s ->
  links_of G s = l :: ls ->
  n_type (node_of G (link_from_node l)) = "MATH" ->
  operation (node_of G (link_from_node l)) = "ROUND" ->
  input_by_index G (link_from_node l) 0 = Ret (in_ref (link_from_node l) 0) ->
  detect_alpha_clip G fuel nav
  = Ret (Some (VFloat 0.5),
         set_in_socket (Some (in_ref (link_from_node l) 0))
                       (landed l (stack nav))).
Proof.
  intros Hin Hl Hty Hop Hi. unfold detect_alpha_clip.
  rewrite (peek_back_direct _ _ _ _ _ _ Hin Hl
             (proj1 (math_is_plain _ Hty))).
  cbn [mbind outcome_bind landed moved negb node].
  rewrite Hty, Hop. simpl. rewrite Hi. reflexivity.
Qed.

(** Alpha -> [Math:X < cutoff] -> [Math:1 - X] -> Alpha Socket *)
Lemma detect_alpha_clip_less_than (G : graph) (fuel : nat) (nav : NodeNav)
    (s : sockref) (l l2 : link) (ls ls2 : list link) (cutoff : float) :
  in_socket nav = Some s ->
  links_of G s = l :: ls ->
  n_type (node_of G (link_from_node l)) = "MATH" ->
  operation (node_of G (link_from_node l)) = "SUBTRACT" ->
  unlinked_constant G (link_from_node l) 0 1 ->
  input_by_index G (link_from_node l) 1 = Ret (in_ref (link_from_node l) 1) ->
  links_of G (in_ref (link_from_node l) 1) = l2 :: ls2 ->
  n_type (node_of G (link_from_node l2)) = "MATH" ->
  operation (node_of G (link_from_node l2)) = "LESS_THAN" ->
  fed_by_plain_node G (link_from_node l2) 0 ->
  unlinked_constant G (link_from_node l2) 1 cutoff ->
  detect_alpha_clip G fuel nav
  = Ret (Some (VFloat cutoff),
         set_in_socket (Some (in_ref (link_from_node l2) 0))
                       (landed l2 (stack nav))).
Proof.
  intros Hin Hl Hty Hop Hone Hi1 Hl2 Hty2 Hop2 Hx Hcut.
  destruct Hx as (Hi0 & lx & lsx & Hlx & Hpx & Hlitx).
  unfold detect_alpha_clip.
  rewrite (peek_back_direct _ _ _ _ _ _ Hin Hl
             (proj1 (math_is_plain _ Hty))).
  cbn [mbind outcome_bind landed moved negb node].
  rewrite Hty, Hop. simpl String.eqb. cbn [andb].
  (* nav.get_constant(0) == 1.0 *)
  rewrite get_constant_select_int by (apply Hone).
  erewrite get_constant_unlinked_constant; [|exact Hone|reflexivity].
  cbn [mbind outcome_bind py_eq_num]. change (PrimFloat.eqb 1 1) with true.
  cbn iota.
  (* nav2 = nav.peek_back(1) *)
  unfold peek_back. rewrite copy_eq. rewrite select_int by exact Hi1.
  cbn [mbind outcome_bind].
  erewrite move_back_linked; [|reflexivity|exact Hl2].
  rewrite (arrive_plain _ _ _ _ (proj1 (math_is_plain _ Hty2))).
  cbn [mbind outcome_bind landed moved node stack set_in_socket].
  rewrite Hty2. simpl String.eqb. cbn [andb].
  (* in0 = nav2.get_constant(0) *)
  rewrite get_constant_select_int by (apply Hi0).
  erewrite get_constant_nonliteral;
    [|reflexivity|exact (is_linked_cons _ _ _ _ Hlx)
     |eapply peek_back_direct; [reflexivity|exact Hlx|exact Hpx]
     |exact Hlitx].
  cbn [mbind outcome_bind].
  (* in1 = nav2.get_constant(1) *)
  rewrite get_constant_select_int by (apply Hcut).
  erewrite get_constant_unlinked_constant; [|exact Hcut|reflexivity].
  cbn [mbind outcome_bind]. rewrite Hop2. simpl.
  rewrite Hi0. reflexivity.
Qed.

(** On a cursor fed by a texture-like node the loop finds nothing to peel
    off and returns at once. *)
Lemma alpha_loop_texture (G : graph) (fuel : nat) (nav : NodeNav)
    (s : sockref) (l : link) (ls : list link)
    (info : gmap string (option value)) :
  in_socket nav = Some s ->
  links_of G s = l :: ls ->
  is_texture_like (node_of G (link_from_node l)) = true ->
  info !! "alphaFactor" = Some None ->
  info !! "alphaColorAttrib" = Some None ->
  alpha_loop G fuel 2 info nav = Ret (info, nav).
Proof.
  intros Hin Hl Ht Hf Ha. unfold is_texture_like in Ht.
  apply andb_prop in Ht as [Ht Hattr]. apply andb_prop in Ht as [Ht Hvc].
  apply andb_prop in Ht as [Ht Hmix]. apply andb_prop in Ht as [Ht Hmath].
  apply andb_prop in Ht as [Hpass Hlit].
  apply negb_true_iff in Hattr, Hvc, Hmix, Hmath, Hpass, Hlit.
  pose proof (peek_back_direct _ fuel _ _ _ _ Hin Hl Hpass) as Hp.
  assert (Hfac : get_multiply_factors G fuel nav = Ret None).
  { unfold get_multiply_factors. rewrite Hp, Hin.
    cbn [mbind outcome_bind landed moved node].
    rewrite Hmix, Hmath. cbn [andb].
    destruct (String.eqb (s_type (sock_of G s)) "RGBA"),
      (String.eqb (s_type (sock_of G s)) "VALUE"); reflexivity. }
  assert (Hattrib : get_color_attrib G fuel nav = Ret None).
  { unfold get_color_attrib. rewrite Hp.
    cbn [mbind outcome_bind landed moved node negb].
    rewrite Hvc, Hattr. reflexivity. }
  cbn [alpha_loop]. unfold alpha_factor_step, dict_get.
  rewrite Hf. cbn [mbind outcome_bind is_none].
  rewrite (get_constant_nonliteral _ _ _ _ _ Hin (is_linked_cons _ _ _ _ Hl)
             Hp Hlit).
  cbn [mbind outcome_bind].
  unfold detect_multiply_by_constant. rewrite Hfac.
  cbn [mbind outcome_bind].
  unfold alpha_attrib_step, dict_get. rewrite Ha.
  cbn [mbind outcome_bind is_none]. rewrite Hattrib.
  cbn [mbind outcome_bind].
  unfold detect_multiply_by_color_attrib. rewrite Hfac. reflexivity.
Qed.

(** C4: the alpha mode of the canonical alpha inputs.
    - A constant alpha equal to 1 gives OPAQUE.
    - A round math node on the alpha input gives MASK with cutoff 0.5.
    - Alpha fed by [1 - (x < cutoff)] gives MASK with that cutoff (0.3 in
      the example).
    - A constant alpha that is neither 1 nor 0 gives BLEND with that
      constant as [alphaFactor].
    In the two MASK cases the loop that peels factors off goes on from the
    clip's variable operand; what it finds there lands in other fields. *)
Theorem C4_alpha_modes (G : graph) (fuel : nat) (nav : NodeNav) :
  (forall c nav1,
     get_constant G fuel SelNone nav = Ret (c, nav1) ->
     py_eq_num c 1 = true ->
     gather_alpha_info G fuel (Some nav)
     = Ret (<["alphaMode" := Some (VStr "OPAQUE")]> alpha_info_init,
            Some nav1))
  /\ (forall s l ls info nav',
        in_socket nav = Some s ->
        links_of G s = l :: ls ->
        n_type (node_of G (link_from_node l)) = "MATH" ->
        operation (node_of G (link_from_node l)) = "ROUND" ->
        input_by_index G (link_from_node l) 0
        = Ret (in_ref (link_from_node l) 0) ->
        alpha_loop G fuel 2 (mask_info (VFloat 0.5))
                   (set_in_socket (Some (in_ref (link_from_node l) 0))
                                  (landed l (stack nav)))
        = Ret (info, nav') ->
        gather_alpha_info G fuel (Some nav) = Ret (info, Some nav')
        /\ info !! "alphaMode" = Some (Some (VStr "MASK"))
        /\ info !! "alphaCutoff" = Some (Some (VFloat 0.5)))
  /\ (forall s l l2 ls ls2 cutoff info nav',
        in_socket nav = Some s ->
        links_of G s = l :: ls ->
        n_type (node_of G (link_from_node l)) = "MATH" ->
        operation (node_of G (link_from_node l)) = "SUBTRACT" ->
        unlinked_constant G (link_from_node l) 0 1 ->
        input_by_index G (link_from_node l) 1
        = Ret (in_ref (link_from_node l) 1) ->
        links_of G (in_ref (link_from_node l) 1) = l2 :: ls2 ->
        n_type (node_of G (link_from_node l2)) = "MATH" ->
        operation (node_of G (link_from_node l2)) = "LESS_THAN" ->
        fed_by_plain_node G (link_from_node l2) 0 ->
        unlinked_constant G (link_from_node l2) 1 cutoff ->
        alpha_loop G fuel 2 (mask_info (VFloat cutoff))
                   (set_in_socket (Some (in_ref (link_from_node l2) 0))
                                  (landed l2 (stack nav)))
        = Ret (info, nav') ->
        gather_alpha_info G fuel (Some nav) = Ret (info, Some nav')
        /\ info !! "alphaMode" = Some (Some (VStr "MASK"))
        /\ info !! "alphaCutoff" = Some (Some (VFloat cutoff)))
  /\ (forall c nav1,
        get_constant G fuel SelNone nav = Ret (Some (VFloat c), nav1) ->
        PrimFloat.eqb c 1 = false ->
        PrimFloat.eqb c 0 = false ->
        gather_alpha_info G fuel (Some nav)
        = Ret (<["alphaMode" := Some (VStr "BLEND")]>
                 (<["alphaFactor" := Some (VFloat c)]> alpha_info_init),
               Some nav1)).
Proof.
  split; [|split; [|split]].
  - intros c nav1 Hc Hone. unfold gather_alpha_info.
    rewrite Hc. cbn [mbind outcome_bind]. rewrite Hone. reflexivity.
  - intros s l ls info nav' Hin Hl Hty Hop Hi Hloop.
    eapply gather_alpha_info_mask; [| |
      exact (detect_alpha_clip_round _ _ _ _ _ _ Hin Hl Hty Hop Hi)
      | exact Hloop].
    + eapply get_constant_nonliteral;
        [exact Hin|exact (is_linked_cons _ _ _ _ Hl)
         |exact (peek_back_direct _ _ _ _ _ _ Hin Hl
                   (proj1 (math_is_plain _ Hty)))
         |exact (proj2 (math_is_plain _ Hty))].
    + reflexivity.
  - intros s l l2 ls ls2 cutoff info nav' Hin Hl Hty Hop Hone Hi1 Hl2 Hty2
           Hop2 Hx Hcut Hloop.
    eapply gather_alpha_info_mask; [| |
      exact (detect_alpha_clip_less_than _ _ _ _ _ _ _ _ _ Hin Hl Hty Hop
               Hone Hi1 Hl2 Hty2 Hop2 Hx Hcut)
      | exact Hloop].
    + eapply get_constant_nonliteral;
        [exact Hin|exact (is_linked_cons _ _ _ _ Hl)
         |exact (peek_back_direct _ _ _ _ _ _ Hin Hl
                   (proj1 (math_is_plain _ Hty)))
         |exact (proj2 (math_is_plain _ Hty))].
    + reflexivity.
  - intros c nav1 Hc Hone Hzero.
    destruct (get_constant_float_inv _ _ _ _ _ Hc) as (-> & s & Hin & Hl).
    unfold gather_alpha_info. rewrite Hc. cbn [mbind outcome_bind py_eq_num].
    rewrite Hone, (detect_alpha_clip_unlinked _ _ _ _ Hin Hl).
    cbn [mbind outcome_bind alpha_loop]. unfold alpha_factor_step.
    change (dict_get alpha_info_init "alphaFactor") with
      (Ret (None : option value)).
    cbn [mbind outcome_bind is_none]. rewrite Hc.
    cbn [mbind outcome_bind]. unfold set_alpha_mode.
    rewrite (dict_get_insert_ne _ "alphaFactor" "alphaMode") by discriminate.
    change (dict_get alpha_info_init "alphaMode") with
      (Ret (None : option value)).
    cbn [mbind outcome_bind is_none]. rewrite dict_get_insert_eq.
    cbn [mbind outcome_bind py_eq_num]. rewrite Hzero. reflexivity.
Qed.

Lemma C4_witness :
  gather_alpha_info Fixtures.g_const 0 (Some (Fixtures.at_input 1 1))
  = Ret (<["alphaMode" := Some (VStr "OPAQUE")]> alpha_info_init,
         Some (Fixtures.at_input 1 1))
  /\ gather_alpha_info Fixtures.g_round 0 (Some (Fixtures.at_input 0 1))
     = Ret (mask_info (VFloat 0.5),
            Some (mkNav 1 (Some (in_ref 1 0)) (Some (out_ref 1 0))
                        [(PMaterial, None)] true))
  /\ gather_alpha_info Fixtures.g_clip 0 (Some (Fixtures.at_input 0 1))
     = Ret (mask_info (VFloat 0.3),
            Some (mkNav 2 (Some (in_ref 2 0)) (Some (out_ref 2 0))
                        [(PMaterial, None)] true))
  /\ gather_alpha_info Fixtures.g_const 0 (Some (Fixtures.at_input 0 1))
     = Ret (<["alphaMode" := Some (VStr "BLEND")]>
              (<["alphaFactor" := Some (VFloat 0.7)]> alpha_info_init),
            Some (Fixtures.at_input 0 1)).
Proof.
  split; [|split; [|split]].
  - exact (proj1 (C4_alpha_modes Fixtures.g_const 0
                    (Fixtures.at_input 1 1))
                 (Some (VFloat 1)) _ eq_refl eq_refl).
  - refine (proj1 (proj1 (proj2 (C4_alpha_modes Fixtures.g_round 0
                                   (Fixtures.at_input 0 1)))
                     (in_ref 0 1) (Link 1 0 0 1) [] _ _
                     eq_refl eq_refl eq_refl eq_refl eq_refl eq_refl)).
  - refine (proj1 (proj1 (proj2 (proj2 (C4_alpha_modes Fixtures.g_clip 0
                                          (Fixtures.at_input 0 1))))
                     (in_ref 0 1) (Link 1 0 0 1) (Link 2 0 1 1) [] []
                     0.3%float _ _
                     eq_refl eq_refl eq_refl eq_refl _ eq_refl eq_refl
                     eq_refl eq_refl _ _ eq_refl)).
    + repeat split; reflexivity.
    + split; [reflexivity|].
      exists (Link 3 1 2 0), []. repeat split; reflexivity.
    + repeat split; reflexivity.
  - exact (proj2 (proj2 (proj2 (C4_alpha_modes Fixtures.g_const 0
                                  (Fixtures.at_input 0 1))))
                 0.7%float _ eq_refl eq_refl eq_refl).
Defined.

(** ** The specular extension *)

(** [<] on floats is asymmetric: a doubled strength below 1 is not above
    it. *)
Lemma float_ltb_asym (x y : float) :
  (x <? y)%float = true -> (y <? x)%float = false.
Proof.
  rewrite !FloatAxioms.ltb_spec. unfold SpecFloat.SFltb, SpecFloat.SFcompare.
  destruct (Prim2SF x) as [sx|sx| |sx mx ex],
           (Prim2SF y) as [sy|sy| |sy my ey];
    try discriminate; try reflexivity;
    try (destruct sx, sy; try discriminate; reflexivity);
    try (destruct sx; try discriminate; reflexivity);
    try (destruct sy; try discriminate; reflexivity).
  change (PosDef.Pos.compare_cont Eq mx my) with (Pos.compare mx my).
  change (PosDef.Pos.compare_cont Eq my mx) with (Pos.compare my mx).
  rewrite (Z.compare_antisym ex ey), (Pos.compare_antisym mx my).
  destruct sx, sy; try discriminate; try reflexivity;
    destruct (ex ?= ey)%Z; cbn [CompOpp]; try discriminate;
      try reflexivity;
    destruct (mx ?= my)%positive; cbn [CompOpp]; try discriminate;
      reflexivity.
Qed.

Section SpecularProperties.
Variable G : graph.
Variables material export_settings texture_info uvmap_info : Type.
Variable get_socket : material -> string -> option py_object.
Variable get_factor_from_socket :
  py_object -> string -> outcome (option value).
Variable has_image_node_from_socket : py_object -> outcome bool.
Variable gather_texture_info :
  py_object -> export_settings -> outcome (texture_info * uvmap_info).

(** C3: with both the specular strength and the specular tint unconnected,
    the strength [f] is doubled, and
    - a doubled strength below 1 is written as [specularFactor], without a
      texture, and the tint is written as it is ([None] when white): a
      strength of 0.3 gives its double, 0.6;
    - a doubled strength above 1 writes no [specularFactor], and the tint
      is multiplied by it: a strength of 0.8 scales the tint by its double,
      1.6;
    - otherwise (the default 0.5, doubled to 1.0) there is no
      [specularFactor] and the tint is written as it is; with a white tint
      no extension is emitted. *)
Theorem C3_specular_factor (blender_material : material)
    (settings : export_settings) (s t : sockref) (f r g b : float)
    (rest : list float) :
  get_socket blender_material "Specular IOR Level" = Some (BpyNodeSocket s) ->
  get_socket blender_material "Specular Tint" = Some (BpyNodeSocket t) ->
  is_linked G s = false ->
  is_linked G t = false ->
  s_default_value (sock_of G s) = PropFloat f ->
  s_default_value (sock_of G t) = PropArray (r :: g :: b :: rest) ->
  let fac := (f * 2)%float in
  let tint := ETuple [r; g; b] in
  let scaled := ETuple [r * fac; g * fac; b * fac]%float in
  export_specular G material export_settings texture_info uvmap_info
                  get_socket get_factor_from_socket
                  has_image_node_from_socket gather_texture_info
                  blender_material settings
  = if (fac <? 1)%float then
      Ret (Some (mkExtension "KHR_materials_specular"
                   (<["specularColorFactor" :=
                        if is_not_white texture_info tint
                        then tint else ENone]>
                      (<["specularFactor" := EFloat fac]> ∅))
                   false), ∅)
    else if (1 <? fac)%float then
      Ret (Some (mkExtension "KHR_materials_specular"
                   (<["specularColorFactor" :=
                        if is_not_white texture_info scaled
                        then scaled else ENone]> ∅)
                   false), ∅)
    else if is_not_white texture_info tint then
      Ret (Some (mkExtension "KHR_materials_specular"
                   (<["specularColorFactor" := tint]> ∅) false), ∅)
    else Ret (None, ∅).
Proof.
  intros Hs Ht Hls Hlt Hd Htint fac tint scaled.
  subst fac tint scaled. unfold export_specular. rewrite Hs, Ht.
  unfold specular_strength, specular_tint, socket_not_linked, default_rgb.
  rewrite Hls, Hlt, Hd, Htint. cbn [negb].
  cbn [value_of_prop ext_of_value ext_mul mbind outcome_bind].
  destruct (f * 2 <? 1)%float eqn:Hlt1.
  - cbn [mbind outcome_bind excess]. rewrite (float_ltb_asym _ _ Hlt1).
    cbn -[is_not_white]. rewrite ?take_0.
    destruct (is_not_white texture_info (ETuple [r; g; b])); reflexivity.
  - destruct (1 <? f * 2)%float eqn:Hgt1;
      cbn [mbind outcome_bind excess]; rewrite Hgt1;
      cbn -[is_not_white]; rewrite ?take_0.
    + destruct (is_not_white texture_info _); reflexivity.
    + destruct (is_not_white texture_info (ETuple [r; g; b])); reflexivity.
Qed.

End SpecularProperties.

Lemma C3_witness :
  Fixtures.export_specular_of 0.5 = Ret (None, ∅)
  /\ Fixtures.export_specular_of 0.30000001192092896
     = Ret (Some (mkExtension "KHR_materials_specular"
                    (<["specularColorFactor" := ENone]>
                       (<["specularFactor" := EFloat 0.60000002384185791]>
                          ∅))
                    false), ∅)
  /\ Fixtures.export_specular_of 0.800000011920929
     = Ret (Some (mkExtension "KHR_materials_specular"
                    (<["specularColorFactor" :=
                         ETuple [1.600000023841858; 1.600000023841858;
                                 1.600000023841858]%float]>
                       ∅)
                    false), ∅).
Proof.
  split; [|split].
  - exact (C3_specular_factor (Fixtures.g_specular 0.5) unit unit unit
             unit Fixtures.specular_sockets (fun _ _ => Ret None)
             (fun _ => Ret false) (fun _ _ => Ret (tt, tt)) tt tt
             (in_ref 0 0) (in_ref 0 1) 0.5 1 1 1 [1]%float
             eq_refl eq_refl eq_refl eq_refl eq_refl eq_refl).
  - exact (C3_specular_factor (Fixtures.g_specular 0.30000001192092896)
             unit unit unit unit Fixtures.specular_sockets
             (fun _ _ => Ret None) (fun _ => Ret false)
             (fun _ _ => Ret (tt, tt)) tt tt
             (in_ref 0 0) (in_ref 0 1) 0.30000001192092896 1 1 1 [1]%float
             eq_refl eq_refl eq_refl eq_refl eq_refl eq_refl).
  - exact (C3_specular_factor (Fixtures.g_specular 0.800000011920929)
             unit unit unit unit Fixtures.specular_sockets
             (fun _ _ => Ret None) (fun _ => Ret false)
             (fun _ _ => Ret (tt, tt)) tt tt
             (in_ref 0 0) (in_ref 0 1) 0.800000011920929 1 1 1 [1]%float
             eq_refl eq_refl eq_refl eq_refl eq_refl eq_refl).
Defined.

(** ** Texture transform of a mapping node in TEXTURE mode *)

(** A float that is not below 1e-5 in magnitude is not zero: the divisions
    of [inverted] do not raise. *)
Lemma abs_not_small_nonzero (x : float) :
  (abs x <? 1e-5)%float = false -> PrimFloat.eqb x 0 = false.
Proof.
  rewrite FloatAxioms.ltb_spec, FloatAxioms.eqb_spec, FloatAxioms.abs_spec.
  destruct (Prim2SF x) as [s| s| |s m e]; intros H.
  - exfalso. revert H. vm_compute. discriminate.
  - destruct s; reflexivity.
  - reflexivity.
  - destruct s; reflexivity.
Qed.

Section TextureTransformProperties.
Variable G : graph.
Variable conv : gmap string value -> gmap string value.
Variable rot : float -> float * float * float -> float * float * float.
Variable store : float -> float.

Lemma inverted_spec (lx ly rz sx sy : float) :
  inverted rot store
           (<["scale" := VList [sx; sy]]>
              (<["rotation" := VFloat rz]>
                 (<["offset" := VList [lx; ly]]> ∅)))
  = if declines_trs rz sx sy then Ret None
    else Ret (Some (inverted_trs rot store lx ly rz sx sy)).
Proof.
  unfold inverted, declines_trs, inverted_trs.
  rewrite (dict_get_insert_ne _ "scale" "offset") by discriminate.
  rewrite (dict_get_insert_ne _ "scale" "rotation") by discriminate.
  rewrite (dict_get_insert_ne _ "rotation" "offset") by discriminate.
  rewrite !dict_get_insert_eq. cbn [mbind outcome_bind as_float item].
  simpl lookup. cbn [mbind outcome_bind].
  destruct ((1e-5 <? abs rz)%float && (1e-5 <? abs (sx - sy))%float);
    [reflexivity|].
  cbn [orb].
  destruct (abs sx <? 1e-5)%float eqn:Hx; [reflexivity|].
  destruct (abs sy <? 1e-5)%float eqn:Hy; [reflexivity|].
  cbn [orb]. unfold py_div.
  rewrite (abs_not_small_nonzero _ Hx), (abs_not_small_nonzero _ Hy).
  destruct (rot (- rz)%float ((- lx)%float, (- ly)%float, 1%float))
    as [[x y] z].
  reflexivity.
Qed.

(** C7, amended: for a mapping node in TEXTURE mode, the function declines
    with a diagnostic when the X or Y rotation is not zero, or the Z
    rotation is above 1e-5 in magnitude while the scales differ by more than
    1e-5, or a scale is below 1e-5 in magnitude; otherwise it converts the
    inverted TRS, drops the default-valued fields and returns what is left,
    without a diagnostic. *)
Theorem C7_texture_mode (n : node_id) (lx ly rx ry rz sx sy : float) :
  vector_type (node_of G n) = "TEXTURE" ->
  mapping_values G n lx ly rx ry rz sx sy ->
  get_texture_transform_from_mapping_node G conv rot store n
  = if has_xy_rotation rx ry then Ret (None, [warn_xy_rotation])
    else if declines_trs rz sx sy then Ret (None, [warn_not_trs])
    else r ← drop_defaults (conv (inverted_trs rot store lx ly rz sx sy));
         Ret (r, []).
Proof.
  intros Hvt (Hlx & Hly & Hrx & Hry & Hrz & Hsx & Hsy).
  unfold get_texture_transform_from_mapping_node, has_xy_rotation.
  rewrite Hvt. simpl String.eqb. cbn [orb negb].
  rewrite Hrx, Hry. cbn [mbind outcome_bind].
  destruct (negb (PrimFloat.eqb rx 0) || negb (PrimFloat.eqb ry 0));
    [reflexivity|].
  rewrite Hlx, Hly. cbn [mbind outcome_bind].
  rewrite Hrz. cbn [mbind outcome_bind].
  rewrite Hsx, Hsy. cbn [mbind outcome_bind].
  rewrite inverted_spec.
  destruct (declines_trs rz sx sy); reflexivity.
Qed.

End TextureTransformProperties.

Lemma C7_witness :
  Fixtures.texture_transform_of 0 = Ret (None, [warn_xy_rotation])
  /\ Fixtures.texture_transform_of 2 = Ret (None, [warn_not_trs])
  /\ Fixtures.texture_transform_of 1
     = Ret (Some (<["scale" := VList [0.5; 0.5]%float]>
                    (<["offset" := VList [-0.25; -0.125]%float]> ∅)), []).
Proof.
  split; [|split].
  - exact (C7_texture_mode Fixtures.g_mapping (fun d => d) (fun _ v => v)
             (fun x => x) 0 0 0 0.5 0 0 1 1 eq_refl
             (conj eq_refl (conj eq_refl (conj eq_refl (conj eq_refl
                (conj eq_refl (conj eq_refl eq_refl))))))).
  - exact (C7_texture_mode Fixtures.g_mapping (fun d => d) (fun _ v => v)
             (fun x => x) 2 0 0 0 0 0.5 1 2 eq_refl
             (conj eq_refl (conj eq_refl (conj eq_refl (conj eq_refl
                (conj eq_refl (conj eq_refl eq_refl))))))).
  - exact (C7_texture_mode Fixtures.g_mapping (fun d => d) (fun _ v => v)
             (fun x => x) 1 0.5 0.25 0 0 0 2 2 eq_refl
             (conj eq_refl (conj eq_refl (conj eq_refl (conj eq_refl
                (conj eq_refl (conj eq_refl eq_refl))))))).
Defined.

(** C7 as stated fails: the first mapping node is in TEXTURE mode, its Z
    rotation is zero and its scales are both 1, so neither of the two
    stated conditions holds; it is rotated about X, and the function
    returns none. *)
Lemma C7_counterexample :
  vector_type (node_of Fixtures.g_mapping 0) = "TEXTURE"
  /\ mapping_values Fixtures.g_mapping 0 0 0 0.5 0 0 1 1
  /\ declines_trs 0 1 1 = false
  /\ (forall conv rot store,
        get_texture_transform_from_mapping_node Fixtures.g_mapping conv rot
                                                store 0
        = Ret (None, [warn_xy_rotation])).
Proof.
  split; [reflexivity|]. split; [repeat split; reflexivity|].
  split; [reflexivity|]. intros conv rot store. reflexivity.
Qed.

(** ** Anisotropy *)

(** The complete idiom is detected, with its strength, rotation offset,
    tangent UV map and texture socket. *)
Example detect_anisotropy_complete :
  detect_anisotropy_nodes Fixtures.g_anisotropy 1 (Fixtures.bsdf_input 0)
                          (Fixtures.bsdf_input 1) (Fixtures.bsdf_input 2)
  = Ret (true,
         Some (mkAnisotropy (Some (VFloat 0.8)) (Some (VFloat 0.25)) "UVMap"
                            (mkNodeSocket (Some (in_ref 7 0)) [PMaterial]))).
Proof. reflexivity. Qed.

(** C8, on the idiom with one link missing (Y of separate XYZ is not
    connected to the first input of arctan2): the detector reads
    [arctan2_node.inputs[0].links[0]] without testing [is_linked] and raises
    instead of returning (False, None). *)
Theorem C8_missing_link_raises :
  detect_anisotropy_nodes Fixtures.g_anisotropy_without_y 1
                          (Fixtures.bsdf_input 0) (Fixtures.bsdf_input 1)
                          (Fixtures.bsdf_input 2)
  = Raise IndexError.
Proof. reflexivity. Qed.

(** Other deviations are answered by (False, None): here the rotation
    input of the shader is not connected. *)
Example detect_anisotropy_rotation_unlinked :
  detect_anisotropy_nodes
    (Fixtures.graph_of Fixtures.anisotropy_nodes
       [Link 1 0 0 2; Link 2 0 0 0; Link 3 2 2 0; Link 3 0 4 1;
        Link 4 0 5 0; Link 5 0 6 0; Link 7 0 3 0; Link 8 0 7 0;
        Link 3 1 4 0])
    1 (Fixtures.bsdf_input 0) (Fixtures.bsdf_input 1) (Fixtures.bsdf_input 2)
  = Ret (false, None).
Proof. reflexivity. Qed.

(** ** The clip idioms over a texture *)

(** When the clipped signal is a texture, the loop after the clip finds
    nothing and the result is MASK with the cutoff, and nothing else: the
    function returns, whatever the fuel. *)
Lemma gather_alpha_info_round_texture (G : graph) (fuel : nat)
    (nav : NodeNav) (s : sockref) (l lt : link) (ls lst : list link) :
  in_socket nav = Some s ->
  links_of G s = l :: ls ->
  n_type (node_of G (link_from_node l)) = "MATH" ->
  operation (node_of G (link_from_node l)) = "ROUND" ->
  input_by_index G (link_from_node l) 0 = Ret (in_ref (link_from_node l) 0) ->
  links_of G (in_ref (link_from_node l) 0) = lt :: lst ->
  is_texture_like (node_of G (link_from_node lt)) = true ->
  gather_alpha_info G fuel (Some nav)
  = Ret (mask_info (VFloat 0.5),
         Some (set_in_socket (Some (in_ref (link_from_node l) 0))
                             (landed l (stack nav)))).
Proof.
  intros Hin Hl Hty Hop Hi Hlt Ht.
  eapply gather_alpha_info_mask.
  - eapply get_constant_nonliteral;
      [exact Hin|exact (is_linked_cons _ _ _ _ Hl)
       |exact (peek_back_direct _ _ _ _ _ _ Hin Hl
                 (proj1 (math_is_plain _ Hty)))
       |exact (proj2 (math_is_plain _ Hty))].
  - reflexivity.
  - exact (detect_alpha_clip_round _ _ _ _ _ _ Hin Hl Hty Hop Hi).
  - eapply alpha_loop_texture; [reflexivity|exact Hlt|exact Ht| |];
      reflexivity.
Qed.

Lemma gather_alpha_info_less_than_texture (G : graph) (fuel : nat)
    (nav : NodeNav) (s : sockref) (l l2 lt : link) (ls ls2 lst : list link)
    (cutoff : float) :
  in_socket nav = Some s ->
  links_of G s = l :: ls ->
  n_type (node_of G (link_from_node l)) = "MATH" ->
  operation (node_of G (link_from_node l)) = "SUBTRACT" ->
  unlinked_constant G (link_from_node l) 0 1 ->
  input_by_index G (link_from_node l) 1 = Ret (in_ref (link_from_node l) 1) ->
  links_of G (in_ref (link_from_node l) 1) = l2 :: ls2 ->
  n_type (node_of G (link_from_node l2)) = "MATH" ->
  operation (node_of G (link_from_node l2)) = "LESS_THAN" ->
  input_by_index G (link_from_node l2) 0
  = Ret (in_ref (link_from_node l2) 0) ->
  links_of G (in_ref (link_from_node l2) 0) = lt :: lst ->
  is_texture_like (node_of G (link_from_node lt)) = true ->
  unlinked_constant G (link_from_node l2) 1 cutoff ->
  gather_alpha_info G fuel (Some nav)
  = Ret (mask_info (VFloat cutoff),
         Some (set_in_socket (Some (in_ref (link_from_node l2) 0))
                             (landed l2 (stack nav)))).
Proof.
  intros Hin Hl Hty Hop Hone Hi1 Hl2 Hty2 Hop2 Hi0 Hlt Ht Hcut.
  assert (Hplain : fed_by_plain_node G (link_from_node l2) 0).
  { split; [exact Hi0|]. exists lt, lst. split; [exact Hlt|].
    unfold is_texture_like in Ht.
    do 4 (apply andb_prop in Ht as [Ht _]).
    apply andb_prop in Ht as [Hp Hlit].
    apply negb_true_iff in Hp, Hlit. split; assumption. }
  eapply gather_alpha_info_mask.
  - eapply get_constant_nonliteral;
      [exact Hin|exact (is_linked_cons _ _ _ _ Hl)
       |exact (peek_back_direct _ _ _ _ _ _ Hin Hl
                 (proj1 (math_is_plain _ Hty)))
       |exact (proj2 (math_is_plain _ Hty))].
  - reflexivity.
  - exact (detect_alpha_clip_less_than _ _ _ _ _ _ _ _ _ Hin Hl Hty Hop
             Hone Hi1 Hl2 Hty2 Hop2 Hplain Hcut).
  - eapply alpha_loop_texture; [reflexivity|exact Hlt|exact Ht| |];
      reflexivity.
Qed.

(** * Further properties *)

(** ** What the extractors leave of the cursor *)

(** X1: [get_constant] and [get_factor] change nothing of the cursor but
    the selected input: the cursor they hand back is the one
    [select_input_socket] gives. *)
Theorem extractors_only_select (G : graph) (fuel : nat) (in_soc : selector)
    (self self' : NodeNav) (v : option value) :
  get_constant G fuel in_soc self = Ret (v, self')
  \/ get_factor G fuel in_soc self = Ret (v, self') ->
  select_input_socket G in_soc self = Ret self'.
Proof.
  intros [H | H].
  - unfold get_constant in H.
    destruct (select_input_socket G in_soc self) as [s1| |];
      try discriminate H.
    cbn [mbind outcome_bind] in H. f_equal.
    run_cases H; inversion H; reflexivity.
  - unfold get_factor in H.
    destruct (select_input_socket G in_soc self) as [s1| |];
      try discriminate H.
    cbn [mbind outcome_bind] in H. f_equal.
    destruct (in_socket s1) as [s|]; [|inversion H; reflexivity].
    destruct (get_constant G fuel SelNone s1) as [[fac s2]| |] eqn:Ec;
      try discriminate H.
    assert (s2 = s1) as ->.
    { unfold get_constant in Ec. simpl in Ec.
      run_cases Ec; inversion Ec; reflexivity. }
    cbn [mbind outcome_bind] in H.
    destruct fac; [inversion H; reflexivity|].
    run_cases H; inversion H; reflexivity.
Qed.

Lemma extractors_only_select_witness :
  select_input_socket Fixtures.g_factor (SelInt 1) (Fixtures.at_input 0 0)
  = Ret (Fixtures.at_input 0 1).
Proof.
  apply (extractors_only_select Fixtures.g_factor 0 (SelInt 1)
           (Fixtures.at_input 0 0) (Fixtures.at_input 0 1)
           (Some (VFloat 0.5))).
  right. reflexivity.
Defined.

(** ** Reroutes with nothing plugged in, and groups *)

(** X2: an input fed by a reroute whose own input is not connected: the
    cursor moves onto the reroute, yet [moved] is false at the end, and so
    the input has no constant (the reroute's default value is not read). *)
Theorem dangling_reroute (G : graph) (fuel : nat) (self : NodeNav)
    (s : sockref) (l : link) (ls : list link) :
  in_socket self = Some s ->
  links_of G s = l :: ls ->
  n_type (node_of G (link_from_node l)) = "REROUTE" ->
  input_by_index G (link_from_node l) 0 = Ret (in_ref (link_from_node l) 0) ->
  is_linked G (in_ref (link_from_node l) 0) = false ->
  move_back G (S fuel) SelNone self
  = Ret (mkNav (link_from_node l) (Some (in_ref (link_from_node l) 0))
               (Some (out_ref (link_from_node l) (link_from_socket l)))
               (stack self) false)
  /\ get_constant G (S fuel) SelNone self = Ret (None, self).
Proof.
  intros Hin Hl Hty Hi Hu.
  assert (Hm : move_back G (S fuel) SelNone self
               = Ret (mkNav (link_from_node l)
                            (Some (in_ref (link_from_node l) 0))
                            (Some (out_ref (link_from_node l)
                                           (link_from_socket l)))
                            (stack self) false)).
  { rewrite (move_back_linked _ _ _ _ _ _ Hin Hl).
    rewrite (arrive_reroute _ _ _ _ Hty).
    rewrite move_back_select_int by exact Hi.
    erewrite move_back_unlinked; [reflexivity|reflexivity|exact Hu]. }
  split; [exact Hm|].
  rewrite (get_constant_linked _ _ _ _ _ Hin (is_linked_cons _ _ _ _ Hl)
             (eq_trans (peek_back_none _ _ _) Hm)).
  reflexivity.
Qed.

Lemma dangling_reroute_witness :
  move_back Fixtures.g_dangling 1 SelNone (Fixtures.at_input 0 1)
  = Ret (mkNav 1 (Some (in_ref 1 0)) (Some (out_ref 1 0))
               [(PMaterial, None)] false)
  /\ get_constant Fixtures.g_dangling 1 SelNone (Fixtures.at_input 0 1)
     = Ret (None, Fixtures.at_input 0 1).
Proof.
  exact (dangling_reroute Fixtures.g_dangling 0 (Fixtures.at_input 0 1)
           (in_ref 0 1) (Link 1 0 0 1) [] eq_refl eq_refl eq_refl eq_refl
           eq_refl).
Defined.

Lemma find_index_seq (i start len : nat) :
  start <= i < start + len ->
  find_index (fun k => Nat.eqb k i) (seq start len) = Some (i - start).
Proof.
  revert start. induction len as [|len IH]; intros start H; [lia|].
  simpl. destruct (Nat.eqb start i) eqn:E.
  - apply Nat.eqb_eq in E. subst. f_equal. lia.
  - apply Nat.eqb_neq in E. rewrite IH by lia. simpl. f_equal. lia.
Qed.

Lemma find_index_ext {A : Type} (p q : A -> bool) (l : list A) :
  (forall x, p x = q x) -> find_index p l = find_index q l.
Proof.
  intros H. induction l as [|x l IH]; [reflexivity|].
  simpl. rewrite H, IH. reflexivity.
Qed.

Lemma get_out_socket_index_landed (G : graph) (self : NodeNav) (i : nat) :
  out_socket self = Some (out_ref (node self) i) ->
  i < length (outputs (node_of G (node self))) ->
  get_out_socket_index G self = Ret i.
Proof.
  intros Ho Hi. unfold get_out_socket_index. rewrite Ho.
  rewrite (find_index_ext _ (fun k => Nat.eqb k i)).
  - rewrite find_index_seq by lia. rewrite Nat.sub_0_r. reflexivity.
  - intros k. unfold sockref_eqb. simpl. rewrite Nat.eqb_refl.
    reflexivity.
Qed.

(** X3: a group that hands its input [j] straight to its output [i] is
    transparent.  Moving back from a socket fed by output [i] of the group
    descends, lands on the group-input node, ascends, and goes on exactly as
    a cursor does that sits on input [j] of the group with the same stack:
    what [descend] pushed, [ascend] popped. *)
Theorem move_back_through_group (G : graph) (fuel : nat) (self : NodeNav)
    (s : sockref) (l l1 : link) (ls ls1 : list link)
    (tree : list node_id) (go : node_id) :
  in_socket self = Some s ->
  links_of G s = l :: ls ->
  n_type (node_of G (link_from_node l)) = "GROUP" ->
  node_tree (node_of G (link_from_node l)) = Some tree ->
  link_from_socket l < length (outputs (node_of G (link_from_node l))) ->
  List.find (fun m => String.eqb (n_type (node_of G m)) "GROUP_OUTPUT") tree
  = Some go ->
  input_by_index G go (link_from_socket l)
  = Ret (in_ref go (link_from_socket l)) ->
  links_of G (in_ref go (link_from_socket l)) = l1 :: ls1 ->
  n_type (node_of G (link_from_node l1)) = "GROUP_INPUT" ->
  link_from_socket l1 < length (outputs (node_of G (link_from_node l1))) ->
  input_by_index G (link_from_node l) (link_from_socket l1)
  = Ret (in_ref (link_from_node l) (link_from_socket l1)) ->
  move_back G (2 + fuel) SelNone self
  = move_back G fuel SelNone
      (mkNav (link_from_node l)
             (Some (in_ref (link_from_node l) (link_from_socket l1)))
             (Some (out_ref (link_from_node l) (link_from_socket l)))
             (stack self) true).
Proof.
  intros Hin Hl Hg Htree Hi Hfind Hgo Hl1 Hgi Hj Hin_j.
  change (2 + fuel) with (S (S fuel)).
  rewrite (move_back_linked _ _ _ _ _ _ Hin Hl).
  unfold arrive. cbn [landed node]. rewrite Hg. simpl String.eqb. cbn iota.
  unfold descend. cbn [landed node out_socket stack moved].
  rewrite Htree, Hg.
  simpl String.eqb. cbn iota.
  erewrite get_out_socket_index_landed; [|reflexivity|exact Hi].
  cbn [mbind outcome_bind]. rewrite Hfind, Hgo. cbn [mbind outcome_bind].
  erewrite (move_back_linked G (S fuel)); [|reflexivity|exact Hl1].
  unfold arrive. cbn [landed node stack]. rewrite Hgi. simpl String.eqb.
  cbn iota.
  unfold ascend. cbn [landed node out_socket stack moved].
  rewrite last_snoc, Hgi. simpl String.eqb. cbn iota.
  erewrite get_out_socket_index_landed; [|reflexivity|exact Hj].
  cbn [mbind outcome_bind]. rewrite Hin_j. cbn [mbind outcome_bind].
  rewrite removelast_last. reflexivity.
Qed.

Lemma move_back_through_group_witness :
  move_back Fixtures.g_group 2 SelNone (Fixtures.at_input 0 1)
  = move_back Fixtures.g_group 0 SelNone
      (mkNav 1 (Some (in_ref 1 0)) (Some (out_ref 1 0))
             [(PMaterial, None)] true)
  /\ move_back Fixtures.g_group 2 SelNone (Fixtures.at_input 0 1)
     = Ret (landed (Link 4 1 1 0) [(PMaterial, None)]).
Proof.
  split; [|reflexivity].
  apply (move_back_through_group Fixtures.g_group 0 (Fixtures.at_input 0 1)
           (in_ref 0 1) (Link 1 0 0 1) (Link 2 0 3 0) [] [] [2; 3] 3);
    try reflexivity; simpl; lia.
Defined.

(** ** The alpha mode *)

(** X4: whenever [gather_alpha_info] returns for a cursor, [alphaMode] is
    one of OPAQUE, MASK and BLEND, and [alphaCutoff] is set exactly when the
    mode is MASK. *)
Theorem gather_alpha_info_mode (G : graph) (fuel : nat) (nav : NodeNav)
    (info : gmap string (option value)) (nav' : option NodeNav) :
  gather_alpha_info G fuel (Some nav) = Ret (info, nav') ->
  exists m,
    info !! "alphaMode" = Some (Some (VStr m))
    /\ (m = "OPAQUE" \/ m = "MASK" \/ m = "BLEND")
    /\ (m = "MASK" -> exists c, info !! "alphaCutoff" = Some (Some c))
    /\ (m <> "MASK" -> info !! "alphaCutoff" = Some None).
Proof.
  unfold gather_alpha_info. intros H.
  destruct (get_constant G fuel SelNone nav) as [[c nav1]| |];
    try discriminate H.
  cbn [mbind outcome_bind] in H.
  destruct (py_eq_num c 1).
  { injection H as <- _. exists "OPAQUE".
    split; [reflexivity|]. split; [auto|]. split; [discriminate|].
    reflexivity. }
  destruct (detect_alpha_clip G fuel nav1) as [[cutoff nav2]| |];
    try discriminate H.
  cbn [mbind outcome_bind] in H.
  destruct (alpha_loop G fuel 2 _ nav2) as [[info1 nav3]| |] eqn:El;
    try discriminate H.
  cbn [mbind outcome_bind] in H.
  destruct (set_alpha_mode info1) as [info2| |] eqn:Es; try discriminate H.
  injection H as <- _.
  pose proof (alpha_loop_keeps _ _ _ "alphaMode" ltac:(congruence)
                ltac:(congruence) _ _ _ _ El) as Km.
  pose proof (alpha_loop_keeps _ _ _ "alphaCutoff" ltac:(congruence)
                ltac:(congruence) _ _ _ _ El) as Kc.
  unfold set_alpha_mode, dict_get in Es.
  destruct cutoff as [k|].
  - change (info1 !! "alphaMode" = Some (Some (VStr "MASK"))) in Km.
    change (info1 !! "alphaCutoff" = Some (Some k)) in Kc.
    rewrite Km in Es. injection Es as <-. exists "MASK".
    split; [exact Km|]. split; [auto|]. split; [eauto|congruence].
  - change (info1 !! "alphaMode" = Some None) in Km.
    change (info1 !! "alphaCutoff" = Some None) in Kc.
    rewrite Km in Es. cbn [mbind outcome_bind is_none] in Es.
    destruct (info1 !! "alphaFactor") as [f|]; [|discriminate Es].
    cbn [mbind outcome_bind] in Es.
    destruct (py_eq_num f 0); injection Es as <-.
    + exists "MASK". rewrite lookup_insert_ne by discriminate.
      rewrite !lookup_insert_eq.
      split; [reflexivity|]. split; [auto|]. split; [eauto|congruence].
    + exists "BLEND". rewrite lookup_insert_eq.
      rewrite lookup_insert_ne by discriminate.
      split; [reflexivity|]. split; [auto|]. split; [discriminate|].
      intros _. exact Kc.
Qed.

Lemma gather_alpha_info_mode_witness :
  exists m,
    mask_info (VFloat 0.3) !! "alphaMode" = Some (Some (VStr m))
    /\ (m = "OPAQUE" \/ m = "MASK" \/ m = "BLEND")
    /\ (m = "MASK" ->
        exists c, mask_info (VFloat 0.3) !! "alphaCutoff" = Some (Some c))
    /\ (m <> "MASK" -> mask_info (VFloat 0.3) !! "alphaCutoff" = Some None).
Proof.
  exact (gather_alpha_info_mode Fixtures.g_clip 0 (Fixtures.at_input 0 1)
           (mask_info (VFloat 0.3))
           (Some (mkNav 2 (Some (in_ref 2 0)) (Some (out_ref 2 0))
                        [(PMaterial, None)] true))
           eq_refl).
Defined.

Lemma float_zero_not_one (c : float) :
  PrimFloat.eqb c 0 = true -> PrimFloat.eqb c 1 = false.
Proof.
  rewrite !FloatAxioms.eqb_spec.
  destruct (Prim2SF c) as [s| s| |s m e]; intros H.
  - reflexivity.
  - destruct s; discriminate H.
  - discriminate H.
  - destruct s; discriminate H.
Qed.

(** X5: a constant alpha equal to zero is treated as a mask: the mode is
    MASK with cutoff 0.5, and the zero is kept as [alphaFactor]. *)
Theorem gather_alpha_info_zero (G : graph) (fuel : nat) (nav nav1 : NodeNav)
    (c : float) :
  get_constant G fuel SelNone nav = Ret (Some (VFloat c), nav1) ->
  PrimFloat.eqb c 0 = true ->
  gather_alpha_info G fuel (Some nav)
  = Ret (<["alphaCutoff" := Some (VFloat 0.5)]>
           (<["alphaMode" := Some (VStr "MASK")]>
              (<["alphaFactor" := Some (VFloat c)]> alpha_info_init)),
         Some nav1).
Proof.
  intros Hc Hzero.
  destruct (get_constant_float_inv _ _ _ _ _ Hc) as (-> & s & Hin & Hl).
  unfold gather_alpha_info. rewrite Hc. cbn [mbind outcome_bind py_eq_num].
  rewrite (float_zero_not_one _ Hzero),
    (detect_alpha_clip_unlinked _ _ _ _ Hin Hl).
  cbn [mbind outcome_bind alpha_loop]. unfold alpha_factor_step.
  change (dict_get alpha_info_init "alphaFactor") with
    (Ret (None : option value)).
  cbn [mbind outcome_bind is_none]. rewrite Hc.
  cbn [mbind outcome_bind]. unfold set_alpha_mode.
  rewrite (dict_get_insert_ne _ "alphaFactor" "alphaMode") by discriminate.
  change (dict_get alpha_info_init "alphaMode") with
    (Ret (None : option value)).
  cbn [mbind outcome_bind is_none]. rewrite dict_get_insert_eq.
  cbn [mbind outcome_bind py_eq_num]. rewrite Hzero. reflexivity.
Qed.

Lemma gather_alpha_info_zero_witness :
  gather_alpha_info Fixtures.g_zero 0 (Some (Fixtures.at_input 0 1))
  = Ret (<["alphaCutoff" := Some (VFloat 0.5)]>
           (<["alphaMode" := Some (VStr "MASK")]>
              (<["alphaFactor" := Some (VFloat 0)]> alpha_info_init)),
         Some (Fixtures.at_input 0 1)).
Proof.
  exact (gather_alpha_info_zero Fixtures.g_zero 0 (Fixtures.at_input 0 1)
           (Fixtures.at_input 0 1) 0 eq_refl eq_refl).
Defined.

(** ** Peeling a constant off a product *)

Lemma get_constant_none_same (G : graph) (fuel : nat) (self self' : NodeNav)
    (v : option value) :
  get_constant G fuel SelNone self = Ret (v, self') -> self' = self.
Proof.
  unfold get_constant. simpl. intros H.
  run_cases H; inversion H; reflexivity.
Qed.

Lemma get_multiply_factors_math (G : graph) (fuel : nat) (nav : NodeNav)
    (s : sockref) (l : link) (ls : list link) :
  in_socket nav = Some s ->
  s_type (sock_of G s) = "VALUE" ->
  links_of G s = l :: ls ->
  is_math_multiply (node_of G (link_from_node l)) = true ->
  input_by_index G (link_from_node l) 0 = Ret (in_ref (link_from_node l) 0) ->
  input_by_index G (link_from_node l) 1 = Ret (in_ref (link_from_node l) 1) ->
  get_multiply_factors G fuel nav
  = Ret (Some (set_in_socket (Some (in_ref (link_from_node l) 0))
                             (landed l (stack nav)),
               set_in_socket (Some (in_ref (link_from_node l) 1))
                             (landed l (stack nav)))).
Proof.
  intros Hin Hty Hl Hmul Hi0 Hi1.
  pose proof Hmul as Hmath. unfold is_math_multiply in Hmath.
  apply andb_prop in Hmath as [Hmath _]. apply String.eqb_eq in Hmath.
  unfold get_multiply_factors.
  rewrite (peek_back_direct _ _ _ _ _ _ Hin Hl
             (proj1 (math_is_plain _ Hmath))).
  cbn [mbind outcome_bind landed moved node]. rewrite Hin, Hty.
  simpl String.eqb. cbn iota.
  unfold is_math_multiply in Hmul. rewrite Hmul.
  rewrite select_int by exact Hi0. cbn [mbind outcome_bind].
  rewrite copy_eq. rewrite select_int by exact Hi1. reflexivity.
Qed.

(** X6: on a scalar input fed by a math-multiply node,
    [detect_multiply_by_constant] returns the constant of the first operand
    if it has one, and moves the cursor to the second operand; else the
    constant of the second operand, moving to the first; else nothing,
    leaving the cursor.  With two constant operands it still returns the
    first (where [get_factor] returns none). *)
Theorem detect_multiply_by_constant_math (G : graph) (fuel : nat)
    (nav c1 c2 : NodeNav) (s : sockref) (l : link) (ls : list link)
    (x1 x2 : option value) :
  in_socket nav = Some s ->
  s_type (sock_of G s) = "VALUE" ->
  links_of G s = l :: ls ->
  is_math_multiply (node_of G (link_from_node l)) = true ->
  input_by_index G (link_from_node l) 0 = Ret (in_ref (link_from_node l) 0) ->
  input_by_index G (link_from_node l) 1 = Ret (in_ref (link_from_node l) 1) ->
  let operand i :=
    set_in_socket (Some (in_ref (link_from_node l) i))
                  (landed l (stack nav)) in
  get_constant G fuel SelNone (operand 0) = Ret (x1, c1) ->
  get_constant G fuel SelNone (operand 1) = Ret (x2, c2) ->
  detect_multiply_by_constant G fuel nav
  = Ret (match x1, x2 with
         | Some v, _ => (Some v, operand 1)
         | None, Some v => (Some v, operand 0)
         | None, None => (None, nav)
         end).
Proof.
  intros Hin Hty Hl Hmul Hi0 Hi1 operand H1 H2.
  pose proof (get_constant_none_same _ _ _ _ _ H1) as ->.
  pose proof (get_constant_none_same _ _ _ _ _ H2) as ->.
  unfold detect_multiply_by_constant.
  rewrite (get_multiply_factors_math _ _ _ _ _ _ Hin Hty Hl Hmul Hi0 Hi1).
  cbn [mbind outcome_bind]. fold (operand 0) (operand 1).
  rewrite H1. cbn [mbind outcome_bind].
  destruct x1 as [v|]; [rewrite assign_eq; reflexivity|].
  rewrite H2. cbn [mbind outcome_bind].
  destruct x2 as [v|]; [rewrite assign_eq; reflexivity|reflexivity].
Qed.

Lemma detect_multiply_by_constant_math_witness :
  detect_multiply_by_constant Fixtures.g_product 0 (Fixtures.at_input 0 1)
  = Ret (Some (VFloat 0.25),
         mkNav 1 (Some (in_ref 1 1)) (Some (out_ref 1 0))
               [(PMaterial, None)] true)
  /\ get_factor Fixtures.g_product 0 SelNone (Fixtures.at_input 0 1)
     = Ret (None, Fixtures.at_input 0 1).
Proof.
  split; [|reflexivity].
  exact (detect_multiply_by_constant_math Fixtures.g_product 0
           (Fixtures.at_input 0 1) _ _ (in_ref 0 1) (Link 1 0 0 1) []
           (Some (VFloat 0.25)) (Some (VFloat 0.5))
           eq_refl eq_refl eq_refl eq_refl eq_refl eq_refl eq_refl eq_refl).
Defined.

(** ** Vertex color attributes *)

Lemma vertex_color_of_alpha_socket_none (G : graph) (fuel : nat)
    (alpha_socket : option NodeSocket) (a : option value)
    (t : option string) :
  vertex_color_of_alpha_socket G fuel alpha_socket = Ret (a, t) ->
  a = None /\ t = None.
Proof.
  unfold vertex_color_of_alpha_socket. intros H.
  destruct alpha_socket as [sock|]; [|inversion H; auto].
  destruct (is_none (ns_socket sock)); [inversion H; auto|].
  destruct (to_node_nav sock) as [nav| |]; try discriminate H.
  cbn [mbind outcome_bind] in H.
  destruct (gather_alpha_info G fuel (Some nav)) as [[info nav']| |] eqn:E;
    try discriminate H.
  cbn [mbind outcome_bind] in H. unfold dict_get in H.
  rewrite (gather_alpha_info_attrib_none _ _ _ _ _ E) in H.
  cbn in H. inversion H. auto.
Qed.

(** X7: [get_vertex_color_info] never reports a color attribute for alpha:
    it reads the field [alphaColorAttrib] of [gather_alpha_info], which is
    always [None], so ["alpha"] and ["alpha_type"] are [None] whatever feeds
    the alpha socket. *)
Theorem get_vertex_color_info_alpha_none (G : graph) (fuel : nat)
    (color_socket alpha_socket : option NodeSocket)
    (d : gmap string (option value)) :
  get_vertex_color_info G fuel color_socket alpha_socket = Ret d ->
  d !! "alpha" = Some None /\ d !! "alpha_type" = Some None.
Proof.
  unfold get_vertex_color_info. intros H.
  destruct (vertex_color_of_color_socket G fuel color_socket)
    as [[c ct]| |]; try discriminate H.
  cbn [mbind outcome_bind] in H.
  destruct (vertex_color_of_alpha_socket G fuel alpha_socket)
    as [[a t]| |] eqn:E; try discriminate H.
  cbn [mbind outcome_bind] in H.
  destruct (vertex_color_of_alpha_socket_none _ _ _ _ _ E) as [-> ->].
  injection H as <-. split.
  - rewrite !lookup_insert_ne by discriminate. apply lookup_insert_eq.
  - apply lookup_insert_eq.
Qed.

Lemma get_vertex_color_info_alpha_none_witness :
  get_vertex_color_info Fixtures.g_attrib 0 None (Some (Fixtures.bsdf_input 1))
  = Ret (<["alpha_type" := None]>
           (<["color_type" := None]>
              (<["alpha" := None]> (<["color" := None]> ∅))))
  /\ (<["alpha_type" := None]>
        (<["color_type" := None]>
           (<["alpha" := None]>
              (<["color" := None]> (∅ : gmap string (option value))))))
     !! "alpha" = Some None.
Proof.
  split; [reflexivity|].
  exact (proj1 (get_vertex_color_info_alpha_none Fixtures.g_attrib 0 None
                  (Some (Fixtures.bsdf_input 1)) _ eq_refl)).
Defined.

(** What [get_attribute_name] can return: a name that is not blank, or
    "use the active attribute", or nothing. *)
Lemma get_attribute_name_shapes (G : graph) (fuel : nat) (socket : NodeSocket)
    (r : bool * option string * option bool) :
  get_attribute_name G fuel socket = Ret r ->
  (exists n, n <> "" /\ r = (true, Some n, None))
  \/ r = (true, None, Some true)
  \/ r = (false, None, None).
Proof.
  unfold get_attribute_name. intros H.
  destruct (previous_node G fuel socket) as [[[n gp]|]| |];
    try discriminate H; cbn [mbind outcome_bind] in H;
    [|inversion H; auto].
  destruct (_ && _ && negb (String.eqb (attribute_name (node_of G n)) ""))
    eqn:E1.
  { apply andb_prop in E1 as [_ E1]. apply negb_true_iff in E1.
    apply String.eqb_neq in E1. inversion H. left. eauto. }
  destruct (_ && _ && String.eqb (attribute_name (node_of G n)) "");
    [inversion H; auto|].
  destruct (_ && negb (String.eqb (layer_name (node_of G n)) "")) eqn:E3.
  { apply andb_prop in E3 as [_ E3]. apply negb_true_iff in E3.
    apply String.eqb_neq in E3. inversion H. left. eauto. }
  destruct (_ && String.eqb (layer_name (node_of G n)) "");
    inversion H; auto.
Qed.

(** The color half of [get_vertex_color_info] gives a name with type
    ["name"], or no name with type ["active"] or none. *)
Lemma vertex_color_of_color_socket_shapes (G : graph) (fuel : nat)
    (color_socket : option NodeSocket) (c t : option string) :
  vertex_color_of_color_socket G fuel color_socket = Ret (c, t) ->
  (exists n, n <> "" /\ c = Some n /\ t = Some "name")
  \/ (c = None /\ (t = Some "active" \/ t = None)).
Proof.
  assert (Hshape : forall r,
             (exists n, n <> "" /\ r = (true, Some n, None))
             \/ r = (true, None, Some true) \/ r = (false, None, None) ->
             (exists n, n <> "" /\ snd (fst r) = Some n
                        /\ attribute_type_of r = Some "name")
             \/ (snd (fst r) = None
                 /\ (attribute_type_of r = Some "active"
                     \/ attribute_type_of r = None))).
  { intros r [(n & Hn & ->) | [-> | ->]]; simpl; eauto 6. }
  unfold vertex_color_of_color_socket. intros H.
  destruct color_socket as [sock|]; [|inversion H; auto].
  destruct (is_none (ns_socket sock)); [inversion H; auto|].
  destruct (previous_node G fuel sock) as [[[n gp]|]| |];
    try discriminate H; cbn [mbind outcome_bind] in H;
    [|inversion H; auto].
  destruct (_ && _ && _).
  - destruct (input_by_index G n 6) as [in6| |]; try discriminate H.
    cbn [mbind outcome_bind] in H.
    destruct (get_attribute_name G fuel (mkNodeSocket (Some in6) gp))
      as [r| |] eqn:E6; try discriminate H.
    cbn [mbind outcome_bind] in H.
    destruct (negb (fst (fst r))).
    + destruct (input_by_index G n 7) as [in7| |]; try discriminate H.
      cbn [mbind outcome_bind] in H.
      destruct (get_attribute_name G fuel (mkNodeSocket (Some in7) gp))
        as [r7| |] eqn:E7; try discriminate H.
      cbn [mbind outcome_bind] in H. injection H as <- <-.
      apply Hshape, (get_attribute_name_shapes _ _ _ _ E7).
    + cbn [mbind outcome_bind] in H. injection H as <- <-.
      apply Hshape, (get_attribute_name_shapes _ _ _ _ E6).
  - destruct (_ || _); [|inversion H; auto].
    destruct (output_by_index G n 0) as [out0| |]; try discriminate H.
    cbn [mbind outcome_bind] in H.
    destruct (get_attribute_name G fuel (mkNodeSocket (Some out0) gp))
      as [r| |] eqn:E0; try discriminate H.
    cbn [mbind outcome_bind] in H. injection H as <- <-.
    apply Hshape, (get_attribute_name_shapes _ _ _ _ E0).
Qed.

(** X8: in the result of [get_vertex_color_info], ["color"] holds a name
    exactly when ["color_type"] is ["name"], and that name is never blank;
    otherwise ["color"] is [None] and the type is ["active"] or [None]. *)
Theorem get_vertex_color_info_color (G : graph) (fuel : nat)
    (color_socket alpha_socket : option NodeSocket)
    (d : gmap string (option value)) :
  get_vertex_color_info G fuel color_socket alpha_socket = Ret d ->
  (exists n, n <> ""
             /\ d !! "color" = Some (Some (VStr n))
             /\ d !! "color_type" = Some (Some (VStr "name")))
  \/ (d !! "color" = Some None
      /\ (d !! "color_type" = Some (Some (VStr "active"))
          \/ d !! "color_type" = Some None)).
Proof.
  unfold get_vertex_color_info. intros H.
  destruct (vertex_color_of_color_socket G fuel color_socket)
    as [[c ct]| |] eqn:E; try discriminate H.
  cbn [mbind outcome_bind] in H.
  destruct (vertex_color_of_alpha_socket G fuel alpha_socket)
    as [[a t]| |]; try discriminate H.
  cbn [mbind outcome_bind] in H. injection H as <-.
  rewrite !(lookup_insert_ne _ "alpha_type") by discriminate.
  rewrite (lookup_insert_ne _ "color_type" "color") by discriminate.
  rewrite (lookup_insert_ne _ "alpha" "color") by discriminate.
  rewrite !lookup_insert_eq.
  destruct (vertex_color_of_color_socket_shapes _ _ _ _ _ E)
    as [(n & Hn & -> & ->) | (-> & [-> | ->])]; simpl; eauto 7.
Qed.

Lemma get_vertex_color_info_color_witness :
  get_vertex_color_info Fixtures.g_color 0 (Some (Fixtures.bsdf_input 0)) None
  = Ret Fixtures.g_color_info
  /\ ((exists n, n <> ""
         /\ Fixtures.g_color_info !! "color" = Some (Some (VStr n))
         /\ Fixtures.g_color_info !! "color_type"
            = Some (Some (VStr "name")))
      \/ (Fixtures.g_color_info !! "color" = Some None
          /\ (Fixtures.g_color_info !! "color_type"
              = Some (Some (VStr "active"))
              \/ Fixtures.g_color_info !! "color_type" = Some None))).
Proof.
  split; [reflexivity|].
  exact (get_vertex_color_info_color Fixtures.g_color 0
           (Some (Fixtures.bsdf_input 0)) None Fixtures.g_color_info
           eq_refl).
Defined.

(** ** The filtered search *)

Lemma search_from_socket_unfold (G : graph) (fuel : nat) (s : sockref)
    (shader_node_filter : node_id -> bool) (sp : list link)
    (gp : list path_obj) :
  search_from_socket G fuel s shader_node_filter sp gp
  = search_round G (search_nested G fuel shader_node_filter) s
                 shader_node_filter sp gp.
Proof. destruct fuel; reflexivity. Qed.

(** An invariant of the loop state is kept by a loop that returns. *)
Lemma fold_outcome_inv {A S : Type} (P : S -> Prop)
    (f : S -> A -> outcome S) (l : list A) :
  (forall st x st', P st -> f st x = Ret st' -> P st') ->
  forall s s', P s -> fold_outcome f l s = Ret s' -> P s'.
Proof.
  intros Hf. induction l as [|x l IH]; intros s s' Hs H; simpl in H.
  - injection H as <-. exact Hs.
  - destruct (f s x) as [s1| |] eqn:E; try discriminate H.
    cbn [mbind outcome_bind] in H. exact (IH _ _ (Hf _ _ _ Hs E) H).
Qed.

Lemma search_round_sound (G : graph) (shader_node_filter : node_id -> bool)
    (recurse : sockref -> list link -> list path_obj
               -> outcome (list NodeTreeSearchResult)) :
  (forall s sp gp r,
     recurse s sp gp = Ret r ->
     Forall (fun x => shader_node_filter (shader_node_ x) = true) r) ->
  forall s sp gp res gp',
    search_round G recurse s shader_node_filter sp gp = Ret (res, gp') ->
    Forall (fun x => shader_node_filter (shader_node_ x) = true) res.
Proof.
  intros Hrec s sp gp res gp' H. unfold search_round in H.
  match type of H with
  | mbind _ (fold_outcome ?f ?l ?st) = _ =>
      destruct (fold_outcome f l st) as [[[r1 sp1] gp1]| |] eqn:E;
        try discriminate H;
      cbn [mbind outcome_bind] in H; injection H as <- _;
      revert E;
      apply (fold_outcome_inv
               (fun state : list NodeTreeSearchResult * list link
                            * list path_obj =>
                  Forall (fun x => shader_node_filter (shader_node_ x) = true)
                         (fst (fst state))) f l)
  end; [|constructor].
  intros [[results spx] gpx] lk [[results' spx'] gpx'] Hres Hstep.
  cbn [fst] in *. cbv zeta in Hstep.
  destruct (String.eqb _ "GROUP").
  { destruct (group_output_input G _ _) as [sock| |]; try discriminate Hstep.
    cbn [mbind outcome_bind] in Hstep.
    destruct (recurse sock _ _) as [lr| |] eqn:Er; try discriminate Hstep.
    cbn [mbind outcome_bind] in Hstep. apply Hrec in Er.
    destruct lr; injection Hstep as <- _ _; [exact Hres|].
    apply Forall_app. split; assumption. }
  destruct (String.eqb _ "GROUP_INPUT").
  { destruct (enclosing_group_input G _ _) as [sock| |];
      try discriminate Hstep.
    cbn [mbind outcome_bind] in Hstep.
    destruct (recurse sock _ _) as [lr| |] eqn:Er; try discriminate Hstep.
    cbn [mbind outcome_bind] in Hstep. apply Hrec in Er.
    destruct lr; injection Hstep as <- _ _; [exact Hres|].
    apply Forall_app. split; assumption. }
  match type of Hstep with
  | mbind _ (fold_outcome ?f ?l ?st) = _ =>
      destruct (fold_outcome f l st) as [[r2 sp2]| |] eqn:E2;
        try discriminate Hstep;
      cbn [mbind outcome_bind] in Hstep; injection Hstep as <- _ _;
      revert E2;
      apply (fold_outcome_inv
               (fun state : list NodeTreeSearchResult * list link =>
                  Forall (fun x => shader_node_filter (shader_node_ x) = true)
                         (fst state)) f l)
  end.
  - intros [ra spa] i [rb spb] Ha Hb. cbn [fst] in *.
    destruct (recurse _ _ _) as [lr| |] eqn:Er; try discriminate Hb.
    cbn [mbind outcome_bind] in Hb. apply Hrec in Er.
    destruct lr; injection Hb as <- _; [exact Ha|].
    apply Forall_app. split; assumption.
  - cbn [fst].
    destruct (shader_node_filter (link_from_node lk)) eqn:Ef; [|exact Hres].
    apply Forall_app. split; [exact Hres|].
    constructor; [exact Ef|constructor].
Qed.

Lemma search_from_socket_sound (G : graph)
    (shader_node_filter : node_id -> bool) (fuel : nat) :
  forall s sp gp res gp',
    search_from_socket G fuel s shader_node_filter sp gp = Ret (res, gp') ->
    Forall (fun x => shader_node_filter (shader_node_ x) = true) res.
Proof.
  induction fuel as [|fuel IH]; intros s sp gp res gp' H;
    rewrite search_from_socket_unfold in H;
    revert H; apply search_round_sound.
  - intros ? ? ? ? Hr. discriminate Hr.
  - intros s' sp' gp'' r Hr. cbn [search_nested] in Hr.
    destruct (search_from_socket G fuel s' shader_node_filter sp' gp'')
      as [[r' g']| |] eqn:E; try discriminate Hr.
    cbn [mbind outcome_bind] in Hr. injection Hr as <-.
    exact (IH _ _ _ _ _ E).
Qed.

(** X9: [from_socket] returns only nodes for which the filter holds,
    however far the search went. *)
Theorem from_socket_sound (G : graph) (fuel : nat)
    (start_socket : NodeSocket) (shader_node_filter : node_id -> bool)
    (results : list NodeTreeSearchResult) :
  from_socket G fuel start_socket shader_node_filter = Ret results ->
  Forall (fun x => shader_node_filter (shader_node_ x) = true) results.
Proof.
  unfold from_socket. intros H.
  destruct (ns_socket start_socket) as [s|];
    [|injection H as <-; constructor].
  destruct (shader_node_filter (sr_node s)) eqn:Ef.
  - injection H as <-. constructor; [exact Ef|constructor].
  - destruct (search_from_socket G fuel s shader_node_filter []
                (ns_group_path start_socket)) as [[r g]| |] eqn:E;
      try discriminate H.
    cbn [mbind outcome_bind] in H. injection H as <-.
    exact (search_from_socket_sound _ _ _ _ _ _ _ _ E).
Qed.

Lemma from_socket_sound_witness :
  Forall (fun x => FilterByType Fixtures.g_anisotropy ShaderNodeTexImage
                                (shader_node_ x) = true)
         [mkResult 8 [Link 7 0 3 0; Link 8 0 7 0]].
Proof.
  exact (from_socket_sound Fixtures.g_anisotropy 3
           (mkNodeSocket (Some (in_ref 3 0)) [PMaterial])
           (FilterByType Fixtures.g_anisotropy ShaderNodeTexImage)
           [mkResult 8 [Link 7 0 3 0; Link 8 0 7 0]] eq_refl).
Defined.

(** X10: the node [get_texture_node_from_socket] returns is an image
    texture node that has an image. *)
Theorem get_texture_node_from_socket_image (G : graph) (fuel : nat)
    (socket : NodeSocket) (r : NodeTreeSearchResult) :
  get_texture_node_from_socket G fuel socket = Ret (Some r) ->
  n_type (node_of G (shader_node_ r)) = "TEX_IMAGE"
  /\ image (node_of G (shader_node_ r)) <> None.
Proof.
  unfold get_texture_node_from_socket. intros H.
  destruct (from_socket G fuel socket (FilterByType G ShaderNodeTexImage))
    as [rs| |] eqn:E; try discriminate H.
  cbn [mbind outcome_bind] in H.
  destruct rs as [|r0 rs]; [discriminate H|].
  destruct (image (node_of G (shader_node_ r0))) as [img|] eqn:Ei;
    [|discriminate H].
  injection H as <-. split; [|rewrite Ei; discriminate].
  unfold from_socket in E.
  destruct (ns_socket socket) as [s|]; [|discriminate E].
  destruct (FilterByType G ShaderNodeTexImage (sr_node s)) eqn:Ef.
  - injection E as <- _. apply String.eqb_eq. exact Ef.
  - destruct (search_from_socket G fuel s _ [] (ns_group_path socket))
      as [[rr g]| |] eqn:Es; try discriminate E.
    cbn [mbind outcome_bind] in E. injection E as ->.
    apply search_from_socket_sound in Es.
    apply Forall_cons in Es as [Es _]. apply String.eqb_eq. exact Es.
Qed.

Lemma get_texture_node_from_socket_image_witness :
  n_type (node_of Fixtures.g_anisotropy 8) = "TEX_IMAGE"
  /\ image (node_of Fixtures.g_anisotropy 8) <> None.
Proof.
  exact (get_texture_node_from_socket_image Fixtures.g_anisotropy 3
           (mkNodeSocket (Some (in_ref 3 0)) [PMaterial])
           (mkResult 8 [Link 7 0 3 0; Link 8 0 7 0]) eq_refl).
Defined.

(** ** The older walker *)

Lemma previous_socket_loop_unfold (G : graph) (fuel : nat) (soc : sockref)
    (group_path : list path_obj) :
  previous_socket_loop G fuel soc group_path =
  (if negb (is_linked G soc) then Ret (mkNodeSocket None []) else
   match links_of G soc with
   | [] => Raise IndexError
   | l :: _ =>
       let from := out_ref (link_from_node l) (link_from_socket l) in
       let ty := n_type (node_of G (link_from_node l)) in
       let continue_ (soc : sockref) (group_path : list path_obj) :=
         match fuel with
         | 0 => OutOfFuel
         | S fuel' => previous_socket_loop G fuel' soc group_path
         end in
       if String.eqb ty "GROUP" then
         socket ← group_output_input G (link_from_node l)
                                     (s_name (sock_of G from));
         continue_ socket (group_path ++ [PNode (link_from_node l)])
       else if String.eqb ty "GROUP_INPUT" then
         socket ← enclosing_group_input G group_path (s_name (sock_of G from));
         continue_ socket (removelast group_path)
       else if String.eqb ty "REROUTE" then
         socket ← input_by_index G (link_from_node l) 0;
         continue_ socket group_path
       else Ret (mkNodeSocket (Some from) group_path)
   end).
Proof. destruct fuel; reflexivity. Qed.

Lemma previous_socket_loop_chain (G : graph) (n : nat) (s : sockref)
    (l : link) :
  reroute_chain G n s l ->
  is_pass_through (node_of G (link_from_node l)) = false ->
  forall (fuel : nat) (group_path : list path_obj),
    previous_socket_loop G (n + fuel) s group_path
    = Ret (mkNodeSocket
             (Some (out_ref (link_from_node l) (link_from_socket l)))
             group_path).
Proof.
  induction 1 as [s l ls Hl | n s l0 ls l Hl Hty Hin0 Hchain IH];
    intros Hp fuel gp; rewrite previous_socket_loop_unfold;
    rewrite (is_linked_cons _ _ _ _ Hl), Hl; cbn [negb]; cbv zeta.
  - unfold is_pass_through in Hp.
    apply orb_false_elim in Hp as [Hp Hgi].
    apply orb_false_elim in Hp as [Hr Hg].
    rewrite Hg, Hgi, Hr. reflexivity.
  - rewrite Hty. simpl String.eqb. cbn iota. rewrite Hin0.
    cbn [mbind outcome_bind]. simpl plus. exact (IH Hp fuel gp).
Qed.

(** X11: the two walkers agree on reroutes.  From an input fed through [n]
    reroutes by a plain node, [previous_socket] returns that node's output
    socket with the group path it was given, and [move_back] leaves the
    cursor on the same output socket. *)
Theorem walkers_agree_on_reroutes (G : graph) (n fuel : nat) (s : sockref)
    (l : link) (group_path : list path_obj) (nav : NodeNav) :
  reroute_chain G n s l ->
  is_pass_through (node_of G (link_from_node l)) = false ->
  in_socket nav = Some s ->
  previous_socket G (n + fuel) (mkNodeSocket (Some s) group_path)
  = Ret (mkNodeSocket
           (Some (out_ref (link_from_node l) (link_from_socket l)))
           group_path)
  /\ move_back G (n + fuel) SelNone nav
     = Ret (mkNav (link_from_node l) None
                  (Some (out_ref (link_from_node l) (link_from_socket l)))
                  (stack nav) true).
Proof.
  intros Hchain Hp Hin. split.
  - unfold previous_socket. cbn [ns_socket ns_group_path].
    exact (previous_socket_loop_chain _ _ _ _ Hchain Hp fuel group_path).
  - rewrite (move_back_chain _ _ _ _ Hchain fuel _ Hin).
    exact (arrive_plain _ _ _ _ Hp).
Qed.

Lemma walkers_agree_on_reroutes_witness :
  previous_socket Fixtures.g_reroute 2
                  (mkNodeSocket (Some (in_ref 1 1)) [PMaterial])
  = Ret (mkNodeSocket (Some (out_ref 4 1)) [PMaterial])
  /\ move_back Fixtures.g_reroute 2 SelNone (Fixtures.at_input 1 1)
     = Ret (mkNav 4 None (Some (out_ref 4 1)) [(PMaterial, None)] true).
Proof.
  apply (walkers_agree_on_reroutes Fixtures.g_reroute 2 0 (in_ref 1 1)
           (Link 4 1 3 0) [PMaterial] (Fixtures.at_input 1 1));
    try reflexivity.
  eapply chain_reroute; try reflexivity.
  eapply chain_reroute; try reflexivity.
  eapply chain_direct; reflexivity.
Defined.

(** ** Texture transforms in POINT and VECTOR mode, and what is returned *)

Lemma drop_defaults_some (d t : gmap string value) :
  drop_defaults d = Ret (Some t) ->
  t <> ∅
  /\ (forall v, t !! "offset" = Some v -> all_eq v 0 = Ret false)
  /\ (forall v, t !! "scale" = Some v -> all_eq v 1 = Ret false)
  /\ (forall v, t !! "rotation" = Some v -> py_eq_num (Some v) 0 = false).
Proof.
  unfold drop_defaults, dict_get. intros H.
  destruct (d !! "offset") as [o|] eqn:Eo; [|discriminate H].
  cbn [mbind outcome_bind] in H.
  destruct (all_eq o 0) as [zero| |] eqn:Ez; try discriminate H.
  cbn [mbind outcome_bind] in H.
  set (d1 := if zero then delete "offset" d else d) in *.
  destruct (d1 !! "scale") as [sc|] eqn:Es; [|discriminate H].
  cbn [mbind outcome_bind] in H.
  destruct (all_eq sc 1) as [one| |] eqn:Eone; try discriminate H.
  cbn [mbind outcome_bind] in H.
  set (d2 := if one then delete "scale" d1 else d1) in *.
  destruct (d2 !! "rotation") as [r|] eqn:Er; [|discriminate H].
  cbn [mbind outcome_bind] in H.
  set (d3 := if py_eq_num (Some r) 0 then delete "rotation" d2 else d2) in *.
  destruct (size d3 =? 0) eqn:En; [discriminate H|].
  assert (t = d3) by congruence. subst t.
  assert (H3 : forall k, k <> "rotation" -> d3 !! k = d2 !! k).
  { intros k Hk. subst d3. destruct (py_eq_num (Some r) 0); [|reflexivity].
    apply lookup_delete_ne. congruence. }
  assert (H2 : forall k, k <> "scale" -> d2 !! k = d1 !! k).
  { intros k Hk. subst d2. destruct one; [|reflexivity].
    apply lookup_delete_ne. congruence. }
  split; [|split; [|split]].
  - intros E. rewrite E, map_size_empty in En. discriminate En.
  - intros v Hv. rewrite H3, H2 in Hv by discriminate.
    subst d1. destruct zero.
    + rewrite lookup_delete_eq in Hv. discriminate Hv.
    + congruence.
  - intros v Hv. rewrite H3 in Hv by discriminate.
    subst d2. destruct one.
    + rewrite lookup_delete_eq in Hv. discriminate Hv.
    + congruence.
  - intros v Hv. subst d3.
    destruct (py_eq_num (Some r) 0) eqn:E0.
    + rewrite lookup_delete_eq in Hv. discriminate Hv.
    + congruence.
Qed.

Section TextureTransformModes.
Variable G : graph.
Variable conv : gmap string value -> gmap string value.
Variable rot : float -> float * float * float -> float * float * float.
Variable store : float -> float.

Lemma texture_transform_some_inv (n : node_id) (t : gmap string value)
    (w : list string) :
  get_texture_transform_from_mapping_node G conv rot store n
  = Ret (Some t, w) ->
  w = [] /\ exists m, drop_defaults (conv m) = Ret (Some t).
Proof.
  unfold get_texture_transform_from_mapping_node. intros H.
  run_cases H; inversion H; subst; (split; [reflexivity|]);
    eexists; eassumption.
Qed.

(** X12: a transform that is returned came without a warning, is not
    empty, and holds no field at its default: no offset of zeros, no scale
    of ones, no rotation of zero. *)
Theorem texture_transform_no_defaults (n : node_id)
    (t : gmap string value) (w : list string) :
  get_texture_transform_from_mapping_node G conv rot store n
  = Ret (Some t, w) ->
  w = []
  /\ t <> ∅
  /\ (forall v, t !! "offset" = Some v -> all_eq v 0 = Ret false)
  /\ (forall v, t !! "scale" = Some v -> all_eq v 1 = Ret false)
  /\ (forall v, t !! "rotation" = Some v -> py_eq_num (Some v) 0 = false).
Proof.
  intros H. apply texture_transform_some_inv in H as [Hw [m Hm]].
  split; [exact Hw|]. exact (drop_defaults_some _ _ Hm).
Qed.

(** X13: in POINT mode the transform is the node's location, Z rotation and
    scale as they are; in VECTOR mode the location is not read and the
    offset is zero.  Either way a rotation about X or Y declines. *)
Theorem point_and_vector_modes (n : node_id)
    (lx ly rx ry rz sx sy : float) :
  default_component G n "Rotation" 0 = Ret rx ->
  default_component G n "Rotation" 1 = Ret ry ->
  default_component G n "Rotation" 2 = Ret rz ->
  default_component G n "Scale" 0 = Ret sx ->
  default_component G n "Scale" 1 = Ret sy ->
  (vector_type (node_of G n) = "POINT"
   /\ default_component G n "Location" 0 = Ret lx
   /\ default_component G n "Location" 1 = Ret ly)
  \/ (vector_type (node_of G n) = "VECTOR" /\ lx = 0%float /\ ly = 0%float) ->
  get_texture_transform_from_mapping_node G conv rot store n
  = if has_xy_rotation rx ry then Ret (None, [warn_xy_rotation])
    else r ← drop_defaults (conv (trs lx ly rz sx sy)); Ret (r, []).
Proof.
  intros Hrx Hry Hrz Hsx Hsy Hmode.
  unfold get_texture_transform_from_mapping_node, has_xy_rotation, trs.
  destruct Hmode as [(Hvt & Hlx & Hly) | (Hvt & -> & ->)];
    rewrite Hvt; simpl String.eqb; cbn [orb negb];
    rewrite Hrx, Hry; cbn [mbind outcome_bind];
    (destruct (negb (PrimFloat.eqb rx 0) || negb (PrimFloat.eqb ry 0));
     [reflexivity|]).
  - rewrite Hlx, Hly. cbn [mbind outcome_bind].
    rewrite Hrz. cbn [mbind outcome_bind].
    rewrite Hsx, Hsy. cbn [mbind outcome_bind]. reflexivity.
  - cbn [mbind outcome_bind].
    rewrite Hrz. cbn [mbind outcome_bind].
    rewrite Hsx, Hsy. cbn [mbind outcome_bind].
    rewrite (insert_insert_ne _ "offset" "scale") by discriminate.
    rewrite (insert_insert_ne _ "offset" "rotation") by discriminate.
    reflexivity.
Qed.

End TextureTransformModes.

Lemma texture_transform_no_defaults_witness :
  Fixtures.texture_transform_of 1
  = Ret (Some (<["scale" := VList [0.5; 0.5]%float]>
                 (<["offset" := VList [-0.25; -0.125]%float]> ∅)), [])
  /\ ([] : list string) = []
  /\ (<["scale" := VList [0.5; 0.5]%float]>
        (<["offset" := VList [-0.25; -0.125]%float]> ∅)
      : gmap string value) <> ∅
  /\ (forall v,
        (<["scale" := VList [0.5; 0.5]%float]>
           (<["offset" := VList [-0.25; -0.125]%float]> ∅)
         : gmap string value) !! "offset" = Some v ->
        all_eq v 0 = Ret false)
  /\ (forall v,
        (<["scale" := VList [0.5; 0.5]%float]>
           (<["offset" := VList [-0.25; -0.125]%float]> ∅)
         : gmap string value) !! "scale" = Some v ->
        all_eq v 1 = Ret false)
  /\ (forall v,
        (<["scale" := VList [0.5; 0.5]%float]>
           (<["offset" := VList [-0.25; -0.125]%float]> ∅)
         : gmap string value) !! "rotation" = Some v ->
        py_eq_num (Some v) 0 = false).
Proof.
  assert (H : Fixtures.texture_transform_of 1
              = Ret (Some (<["scale" := VList [0.5; 0.5]%float]>
                             (<["offset" := VList [-0.25; -0.125]%float]>
                                ∅)), []))
    by reflexivity.
  split; [exact H|].
  exact (texture_transform_no_defaults Fixtures.g_mapping (fun d => d)
           (fun _ v => v) (fun x => x) 1 _ _ H).
Defined.

Lemma point_and_vector_modes_witness :
  get_texture_transform_from_mapping_node Fixtures.g_mapping_modes
    (fun d => d) (fun _ v => v) (fun x => x) 0
  = Ret (Some (<["scale" := VList [2; 2]%float]>
                 (<["offset" := VList [0.5; 0.25]%float]> ∅)), [])
  /\ get_texture_transform_from_mapping_node Fixtures.g_mapping_modes
       (fun d => d) (fun _ v => v) (fun x => x) 1
     = Ret (Some (<["rotation" := VFloat 0.5]> ∅), []).
Proof.
  split.
  - exact (point_and_vector_modes Fixtures.g_mapping_modes (fun d => d)
             (fun _ v => v) (fun x => x) 0 0.5 0.25 0 0 0 2 2
             eq_refl eq_refl eq_refl eq_refl eq_refl
             (or_introl (conj eq_refl (conj eq_refl eq_refl)))).
  - exact (point_and_vector_modes Fixtures.g_mapping_modes (fun d => d)
             (fun _ v => v) (fun x => x) 1 0 0 0 0 0.5 1 1
             eq_refl eq_refl eq_refl eq_refl eq_refl
             (or_intror (conj eq_refl (conj eq_refl eq_refl)))).
Defined.

(** ** What the specular extension holds *)

Section SpecularShape.
Variables texture_info uvmap_info : Type.
Implicit Types (ext : gmap string (ext_value texture_info))
  (uv : gmap string uvmap_info).

Lemma wf_empty :
  specular_well_formed (∅ : gmap string (ext_value texture_info))
                       (∅ : gmap string uvmap_info).
Proof.
  split; [|split].
  - intros v H. rewrite lookup_empty in H. discriminate H.
  - intros k. rewrite !lookup_empty. split.
    + intros [x Hx]. discriminate Hx.
    + intros [t Ht]. discriminate Ht.
  - intros k. rewrite lookup_empty. intros [x Hx]. discriminate Hx.
Qed.

Lemma wf_insert_value ext uv (k : string) (c : ext_value texture_info) :
  specular_well_formed ext uv ->
  k <> "specularTexture" -> k <> "specularColorTexture" ->
  is_texture c = false ->
  (k = "specularFactor" -> exists f, c = EFloat f /\ (f <? 1)%float = true) ->
  specular_well_formed (<[k := c]> ext) uv.
Proof.
  intros (H1 & H2 & H3) Hk1 Hk2 Hc Hf. split; [|split].
  - intros v Hv. destruct (decide (k = "specularFactor")) as [->|Hne].
    + rewrite lookup_insert_eq in Hv. injection Hv as <-. auto.
    + rewrite lookup_insert_ne in Hv by exact Hne. auto.
  - intros k'. destruct (decide (k = k')) as [<-|Hne].
    + rewrite lookup_insert_eq. split.
      * intros Hs. destruct (H3 _ Hs); contradiction.
      * intros [t Ht]. injection Ht as ->. discriminate Hc.
    + rewrite lookup_insert_ne by exact Hne. apply H2.
  - exact H3.
Qed.

Lemma wf_insert_texture ext uv (k : string) (t : texture_info)
    (u : uvmap_info) :
  specular_well_formed ext uv ->
  k = "specularTexture" \/ k = "specularColorTexture" ->
  specular_well_formed (<[k := ETexture t]> ext) (<[k := u]> uv).
Proof.
  intros (H1 & H2 & H3) Hk. split; [|split].
  - intros v Hv. rewrite lookup_insert_ne in Hv; [auto|].
    destruct Hk as [-> | ->]; discriminate.
  - intros k'. destruct (decide (k = k')) as [<-|Hne].
    + rewrite !lookup_insert_eq. split; eauto.
    + rewrite !lookup_insert_ne by exact Hne. apply H2.
  - intros k'. destruct (decide (k = k')) as [<-|Hne]; [auto|].
    rewrite lookup_insert_ne by exact Hne. apply H3.
Qed.

Lemma ext_of_value_not_texture (v : option value) :
  is_texture (ext_of_value texture_info v) = false.
Proof. destruct v as [[]|]; reflexivity. Qed.

Lemma scale_color_not_texture (c c' : ext_value texture_info) (f : float) :
  scale_color texture_info c f = Ret c' -> is_texture c' = false.
Proof.
  unfold scale_color.
  destruct c as [|x|xs|xs|s|t]; try discriminate;
    destruct (xs !! 0), (xs !! 1), (xs !! 2); try discriminate;
    intros H; injection H as <-; reflexivity.
Qed.

Lemma tint_value_not_texture (c : ext_value texture_info) :
  is_texture c = false ->
  is_texture (if is_not_white texture_info c then c else ENone) = false.
Proof. intros H. destruct (is_not_white texture_info c); auto. Qed.

Variable G : graph.
Variables material export_settings : Type.
Variable get_socket : material -> string -> option py_object.
Variable get_factor_from_socket :
  py_object -> string -> outcome (option value).
Variable has_image_node_from_socket : py_object -> outcome bool.
Variable gather_texture_info :
  py_object -> export_settings -> outcome (texture_info * uvmap_info).

Ltac wf_done H :=
  inversion H; subst;
  repeat first
    [ apply wf_empty
    | apply wf_insert_texture; [|auto]
    | apply wf_insert_value;
      [|discriminate|discriminate|reflexivity|intros _; eauto] ].

Lemma specular_linked_wf (o : py_object) (settings : export_settings)
    ext (needed : bool) uv (fac : ext_value texture_info) :
  specular_linked export_settings texture_info uvmap_info
                    get_factor_from_socket has_image_node_from_socket
                    gather_texture_info o settings
  = Ret (ext, needed, uv, fac) ->
  specular_well_formed ext uv.
Proof.
  unfold specular_linked. intros H.
  destruct (get_factor_from_socket o "VALUE") as [fv| |];
    try discriminate H.
  cbn [mbind outcome_bind] in H. cbv zeta in H.
  destruct (is_factor_not_one texture_info (ext_of_value texture_info fv)).
  - destruct (ext_mul texture_info (ext_of_value texture_info fv) 2)
      as [f2| |]; try discriminate H.
    cbn [mbind outcome_bind] in H.
    destruct (f2 <? 1)%float eqn:Hlt; [|destruct (1 <? f2)%float];
      cbn [mbind outcome_bind] in H;
      (destruct (has_image_node_from_socket o) as [[]| |];
       try discriminate H; cbn [mbind outcome_bind] in H;
       [destruct (gather_texture_info o settings) as [[t u]| |];
        try discriminate H; cbn [mbind outcome_bind] in H|]);
      wf_done H.
  - cbn [mbind outcome_bind] in H.
    destruct (has_image_node_from_socket o) as [[]| |];
      try discriminate H; cbn [mbind outcome_bind] in H;
      [destruct (gather_texture_info o settings) as [[t u]| |];
       try discriminate H; cbn [mbind outcome_bind] in H|];
      wf_done H.
Qed.

Lemma specular_strength_wf (o : py_object) (settings : export_settings)
    ext (needed : bool) uv (fac : ext_value texture_info) :
  specular_strength G export_settings texture_info uvmap_info
                    get_factor_from_socket has_image_node_from_socket
                    gather_texture_info o settings
  = Ret (ext, needed, uv, fac) ->
  specular_well_formed ext uv.
Proof.
  unfold specular_strength. intros H.
  destruct o as [s|]; [|exact (specular_linked_wf _ _ _ _ _ _ H)].
  destruct (socket_not_linked G (BpyNodeSocket s));
    [|exact (specular_linked_wf _ _ _ _ _ _ H)].
  destruct (ext_mul texture_info _ 2) as [f2| |]; try discriminate H.
  cbn [mbind outcome_bind] in H.
  destruct (f2 <? 1)%float eqn:Hlt; [|destruct (1 <? f2)%float];
    wf_done H.
Qed.

Lemma specular_tint_wf (o : py_object) (settings : export_settings)
    ext (needed : bool) uv (fac : ext_value texture_info)
    ext' (needed' : bool) uv' :
  specular_well_formed ext uv ->
  specular_tint G export_settings texture_info uvmap_info
                get_factor_from_socket has_image_node_from_socket
                gather_texture_info o settings (ext, needed, uv, fac)
  = Ret (ext', needed', uv') ->
  specular_well_formed ext' uv'
  /\ is_Some (ext' !! "specularColorFactor").
Proof.
  intros Hwf. unfold specular_tint.
  assert (Hlinked :
    (fac_color ← get_factor_from_socket o "RGB";
     let fac_color := ext_of_value texture_info fac_color in
     big ← excess texture_info fac;
     fac_color ←
       match fac_color, big with
       | ENone, Some f => Ret (ETuple [f; f; f])
       | ENone, None => Ret ENone
       | _, Some f => scale_color texture_info fac_color f
       | _, None => Ret fac_color
       end;
     let specular_extension :=
       <["specularColorFactor" :=
           if is_not_white texture_info fac_color then fac_color else ENone]>
         ext in
     let extensions_needed :=
       is_not_white texture_info fac_color || needed in
     has ← has_image_node_from_socket o;
     if (has : bool) then
       '(tex, uvmap_info_) ← gather_texture_info o settings;
       Ret (<["specularColorTexture" := ETexture tex]> specular_extension,
            true, <["specularColorTexture" := uvmap_info_]> uv)
     else Ret (specular_extension, extensions_needed, uv))
    = Ret (ext', needed', uv') ->
    specular_well_formed ext' uv'
    /\ is_Some (ext' !! "specularColorFactor")).
  { intros H.
    destruct (get_factor_from_socket o "RGB") as [fc| |];
      try discriminate H.
    cbn [mbind outcome_bind] in H. cbv zeta in H.
    destruct (excess texture_info fac) as [big| |]; try discriminate H.
    cbn [mbind outcome_bind] in H.
    match type of H with
    | context [mbind _ ?m] =>
        lazymatch m with
        | context [mbind _ _] => fail
        | _ => destruct m as [c| |] eqn:Ec; try discriminate H
        end
    end.
    assert (Hc : is_texture c = false).
    { pose proof (ext_of_value_not_texture fc) as Hfc.
      destruct (ext_of_value texture_info fc), big;
        try discriminate Hfc;
        try (injection Ec as <-; reflexivity);
        exact (scale_color_not_texture _ _ _ Ec). }
    cbn [mbind outcome_bind] in H.
    destruct (has_image_node_from_socket o) as [[]| |];
      try discriminate H; cbn [mbind outcome_bind] in H;
      [destruct (gather_texture_info o settings) as [[t u]| |];
       try discriminate H; cbn [mbind outcome_bind] in H|];
      inversion H; subst; (split; [|]).
    - apply wf_insert_texture; [|auto].
      apply wf_insert_value;
        [exact Hwf|discriminate|discriminate
        |exact (tint_value_not_texture _ Hc)|discriminate].
    - rewrite lookup_insert_ne by discriminate.
      rewrite lookup_insert_eq. eauto.
    - apply wf_insert_value;
        [exact Hwf|discriminate|discriminate
        |exact (tint_value_not_texture _ Hc)|discriminate].
    - rewrite lookup_insert_eq. eauto. }
  destruct o as [s|]; [|exact Hlinked].
  destruct (socket_not_linked G (BpyNodeSocket s)); [|exact Hlinked].
  clear Hlinked. intros H. unfold default_rgb in H.
  destruct (s_default_value (sock_of G s)) as [x|xs]; [discriminate H|].
  cbn [mbind outcome_bind] in H.
  destruct (excess texture_info fac) as [big| |]; try discriminate H.
  cbn [mbind outcome_bind] in H.
  match type of H with
  | context [mbind _ ?m] =>
      lazymatch m with
      | context [mbind _ _] => fail
      | _ => destruct m as [c| |] eqn:Ec; try discriminate H
      end
  end.
  assert (Hc : is_texture c = false).
  { destruct big; [exact (scale_color_not_texture _ _ _ Ec)|].
    injection Ec as <-. reflexivity. }
  cbn [mbind outcome_bind] in H. inversion H; subst. split.
  - apply wf_insert_value;
      [exact Hwf|discriminate|discriminate
      |exact (tint_value_not_texture _ Hc)|discriminate].
  - rewrite lookup_insert_eq. eauto.
Qed.

Lemma export_specular_wf (blender_material : material)
    (settings : export_settings) (e : Extension texture_info) uv :
  export_specular G material export_settings texture_info uvmap_info
                  get_socket get_factor_from_socket
                  has_image_node_from_socket gather_texture_info
                  blender_material settings
  = Ret (Some e, uv) ->
  ext_name _ e = "KHR_materials_specular"
  /\ ext_required _ e = false
  /\ specular_well_formed (ext_extension _ e) uv
  /\ is_Some (ext_extension _ e !! "specularColorFactor").
Proof.
  unfold export_specular. intros H.
  destruct (get_socket blender_material "Specular IOR Level") as [s|];
    [|discriminate H].
  destruct (get_socket blender_material "Specular Tint") as [t|];
    [|discriminate H].
  destruct (specular_strength _ _ _ _ _ _ _ s settings)
    as [[[[ext needed] uv0] fac]| |] eqn:Es; try discriminate H.
  cbn [mbind outcome_bind] in H.
  destruct (specular_tint _ _ _ _ _ _ _ t settings _)
    as [[[ext' needed'] uv']| |] eqn:Et; try discriminate H.
  cbn [mbind outcome_bind] in H.
  destruct needed'; [|discriminate H].
  cbn [negb] in H. inversion H; subst.
  cbn [ext_name ext_required ext_extension].
  split; [reflexivity|]. split; [reflexivity|].
  exact (specular_tint_wf _ _ _ _ _ _ _ _ _
           (specular_strength_wf _ _ _ _ _ _ Es) Et).
Qed.

(** X14: an extension that is returned is [KHR_materials_specular], not
    required, always has a [specularColorFactor] entry, and its
    [specularFactor], when there is one, is a float below 1. *)
Theorem specular_factor_below_one (blender_material : material)
    (settings : export_settings) (e : Extension texture_info) uv :
  export_specular G material export_settings texture_info uvmap_info
                  get_socket get_factor_from_socket
                  has_image_node_from_socket gather_texture_info
                  blender_material settings
  = Ret (Some e, uv) ->
  ext_name _ e = "KHR_materials_specular"
  /\ ext_required _ e = false
  /\ is_Some (ext_extension _ e !! "specularColorFactor")
  /\ (forall v, ext_extension _ e !! "specularFactor" = Some v ->
                exists f, v = EFloat f /\ (f <? 1)%float = true).
Proof.
  intros H. apply export_specular_wf in H as (Hn & Hr & (Hf & _) & Hc).
  auto.
Qed.

(** X15: [uvmap_infos] has an entry exactly under the keys where the
    returned extension has a texture, which are [specularTexture] and
    [specularColorTexture] only; without an extension it is empty. *)
Theorem uvmap_infos_match_textures (blender_material : material)
    (settings : export_settings) (r : option (Extension texture_info)) uv :
  export_specular G material export_settings texture_info uvmap_info
                  get_socket get_factor_from_socket
                  has_image_node_from_socket gather_texture_info
                  blender_material settings
  = Ret (r, uv) ->
  (forall k, is_Some (uv !! k) <->
             exists e t, r = Some e
                         /\ ext_extension _ e !! k = Some (ETexture t))
  /\ (forall k, is_Some (uv !! k) ->
                k = "specularTexture" \/ k = "specularColorTexture").
Proof.
  intros H. destruct r as [e|].
  - apply export_specular_wf in H as (_ & _ & (_ & Hiff & Hkeys) & _).
    split; [|exact Hkeys]. intros k. rewrite Hiff. split.
    + intros [t Ht]. eauto.
    + intros (e' & t & He & Ht). injection He as <-. eauto.
  - assert (uv = ∅) as ->.
    { revert H. unfold export_specular.
      destruct (get_socket blender_material "Specular IOR Level") as [s|];
        [|congruence].
      destruct (get_socket blender_material "Specular Tint") as [t|];
        [|congruence].
      destruct (specular_strength _ _ _ _ _ _ _ s settings)
        as [st| |]; try discriminate.
      cbn [mbind outcome_bind].
      destruct (specular_tint _ _ _ _ _ _ _ t settings st)
        as [[[ext' needed'] uv']| |]; try discriminate.
      cbn [mbind outcome_bind].
      destruct needed'; cbn [negb]; congruence. }
    split; intros k; rewrite lookup_empty.
    + split.
      * intros [x Hx]. discriminate Hx.
      * intros (e & t & He & _). discriminate He.
    + intros [x Hx]. discriminate Hx.
Qed.

End SpecularShape.

Lemma specular_factor_below_one_witness :
  Fixtures.export_specular_of 0.3
  = Ret (Some (mkExtension "KHR_materials_specular"
                 (<["specularColorFactor" := ENone]>
                    (<["specularFactor" := EFloat 0.6]> ∅))
                 false), ∅)
  /\ is_Some ((<["specularColorFactor" := ENone]>
                 (<["specularFactor" := EFloat 0.6]> ∅)
               : gmap string (ext_value unit)) !! "specularColorFactor")
  /\ (forall v,
        (<["specularColorFactor" := ENone]>
           (<["specularFactor" := EFloat 0.6]> ∅)
         : gmap string (ext_value unit)) !! "specularFactor" = Some v ->
        exists f, v = EFloat f /\ (f <? 1)%float = true).
Proof.
  assert (H : Fixtures.export_specular_of 0.3
              = Ret (Some (mkExtension "KHR_materials_specular"
                             (<["specularColorFactor" := ENone]>
                                (<["specularFactor" := EFloat 0.6]> ∅))
                             false), ∅))
    by reflexivity.
  split; [exact H|].
  exact (proj2 (proj2 (specular_factor_below_one unit unit
                         (Fixtures.g_specular 0.3) unit unit
                         Fixtures.specular_sockets (fun _ _ => Ret None)
                         (fun _ => Ret false) (fun _ _ => Ret (tt, tt))
                         tt tt _ _ H))).
Defined.

Lemma uvmap_infos_match_textures_witness :
  Fixtures.export_specular_textured
  = Ret (Some (mkExtension "KHR_materials_specular"
                 (<["specularColorFactor" := ENone]>
                    (<["specularTexture" := ETexture "image.png"]> ∅))
                 false),
         <["specularTexture" := "UVMap"]> ∅)
  /\ (forall k,
        is_Some ((<["specularTexture" := "UVMap"]> ∅ : gmap string string)
                 !! k) ->
        k = "specularTexture" \/ k = "specularColorTexture").
Proof.
  assert (H : Fixtures.export_specular_textured
              = Ret (Some (mkExtension "KHR_materials_specular"
                             (<["specularColorFactor" := ENone]>
                                (<["specularTexture" :=
                                     ETexture "image.png"]> ∅))
                             false),
                     <["specularTexture" := "UVMap"]> ∅))
    by reflexivity.
  split; [exact H|].
  exact (proj2 (uvmap_infos_match_textures string string
                  Fixtures.g_specular_textured unit unit
                  Fixtures.specular_sockets (fun _ _ => Ret None) _
                  (fun _ _ => Ret ("image.png", "UVMap")) tt tt _ _ H)).
Defined.

(** ** What a detected anisotropy idiom stands on *)

Lemma first_link_links (G : graph) (s : sockref) (l : link) :
  first_link G s = Ret l -> exists rest, links_of G s = l :: rest.
Proof.
  unfold first_link. destruct (links_of G s) as [|l' rest]; [discriminate|].
  intros H. injection H as ->. eauto.
Qed.

(** Follows a run that returned through its tests and binds; a test that
    answers (False, None) closes its branch. *)
Ltac walk H :=
  repeat (lazymatch type of H with
          | (if ?b then _ else _) = Ret _ =>
              destruct b eqn:?;
              [inversion H; subst; left; split; reflexivity|]
          | mbind _ ?m = Ret _ =>
              destruct m as [?|?|] eqn:?;
              cbn [mbind outcome_bind] in H; [|discriminate H..]
          end).

(** X16: the detector answers (False, None) or (True, data), never a mix.
    When it detects, the tangent is the UV map of a tangent node in UV_MAP
    direction, and the texture socket it hands back carries the group path
    of the anisotropy socket and is fed, by its first link, by an image
    texture node. *)
Theorem detect_anisotropy_nodes_sound (G : graph) (fuel : nat)
    (anisotropy_socket anisotropy_rotation_socket
       anisotropy_tangent_socket : NodeSocket)
    (detected : bool) (r : option anisotropy_data) :
  detect_anisotropy_nodes G fuel anisotropy_socket
                          anisotropy_rotation_socket
                          anisotropy_tangent_socket
  = Ret (detected, r) ->
  (detected = false /\ r = None)
  \/ (detected = true
      /\ exists d tangent_node tangent_path s l rest,
           r = Some d
           /\ previous_node G fuel anisotropy_tangent_socket
              = Ret (Some (tangent_node, tangent_path))
           /\ n_type (node_of G tangent_node) = "TANGENT"
           /\ direction_type (node_of G tangent_node) = "UV_MAP"
           /\ tangent d = uv_map (node_of G tangent_node)
           /\ tex_socket d = mkNodeSocket (Some s)
                                          (ns_group_path anisotropy_socket)
           /\ links_of G s = l :: rest
           /\ n_type (node_of G (link_from_node l)) = "TEX_IMAGE").
Proof.
  unfold detect_anisotropy_nodes. intros H. cbv zeta in H.
  destruct (ns_socket anisotropy_socket) as [a_soc|];
    [|inversion H; left; split; reflexivity].
  destruct (ns_socket anisotropy_rotation_socket) as [r_soc|];
    [|inversion H; left; split; reflexivity].
  destruct (ns_socket anisotropy_tangent_socket) as [t_soc|];
    [|inversion H; left; split; reflexivity].
  destruct (previous_node G fuel anisotropy_tangent_socket)
    as [[[tangent_node tangent_path]|]| |] eqn:Etangent;
    cbn [mbind outcome_bind] in H; try discriminate H;
    [|inversion H; left; split; reflexivity].
  destruct (negb (type_is G tangent_node "TANGENT")) eqn:Hty;
    [inversion H; left; split; reflexivity|].
  destruct (negb (String.eqb (direction_type (node_of G tangent_node))
                             "UV_MAP")) eqn:Hdir;
    [inversion H; left; split; reflexivity|].
  walk H.
  inversion H; subst. right. split; [reflexivity|].
  apply negb_false_iff in Hty, Hdir.
  apply String.eqb_eq in Hty, Hdir.
  match goal with
  | Hl : first_link G ?s = Ret ?l,
    Ht : negb (type_is G (link_from_node ?l) "TEX_IMAGE") = false |- _ =>
      apply first_link_links in Hl as [rest Hl];
      apply negb_false_iff, String.eqb_eq in Ht;
      eexists _, tangent_node, tangent_path, s, l, rest
  end.
  repeat (split; [first [reflexivity | assumption]|]). assumption.
Qed.

Lemma detect_anisotropy_nodes_sound_witness :
  detect_anisotropy_nodes Fixtures.g_anisotropy 1 (Fixtures.bsdf_input 0)
                          (Fixtures.bsdf_input 1) (Fixtures.bsdf_input 2)
  = Ret (true,
         Some (mkAnisotropy (Some (VFloat 0.8)) (Some (VFloat 0.25)) "UVMap"
                            (mkNodeSocket (Some (in_ref 7 0)) [PMaterial])))
  /\ ((true = false
       /\ Some (mkAnisotropy (Some (VFloat 0.8)) (Some (VFloat 0.25)) "UVMap"
                  (mkNodeSocket (Some (in_ref 7 0)) [PMaterial])) = None)
      \/ (true = true
          /\ exists d tangent_node tangent_path s l rest,
               Some (mkAnisotropy (Some (VFloat 0.8)) (Some (VFloat 0.25))
                       "UVMap"
                       (mkNodeSocket (Some (in_ref 7 0)) [PMaterial]))
               = Some d
               /\ previous_node Fixtures.g_anisotropy 1
                                (Fixtures.bsdf_input 2)
                  = Ret (Some (tangent_node, tangent_path))
               /\ n_type (node_of Fixtures.g_anisotropy tangent_node)
                  = "TANGENT"
               /\ direction_type (node_of Fixtures.g_anisotropy tangent_node)
                  = "UV_MAP"
               /\ tangent d
                  = uv_map (node_of Fixtures.g_anisotropy tangent_node)
               /\ tex_socket d
                  = mkNodeSocket (Some s)
                      (ns_group_path (Fixtures.bsdf_input 0))
               /\ links_of Fixtures.g_anisotropy s = l :: rest
               /\ n_type (node_of Fixtures.g_anisotropy (link_from_node l))
                  = "TEX_IMAGE")).
Proof.
  split; [reflexivity|].
  exact (detect_anisotropy_nodes_sound Fixtures.g_anisotropy 1
           (Fixtures.bsdf_input 0) (Fixtures.bsdf_input 1)
           (Fixtures.bsdf_input 2) _ _ eq_refl).
Defined.

(** ** Finding the socket of a material *)

Lemma grown_refl (G : graph) (gp : list path_obj) : grown_by_groups G gp gp.
Proof. exists []. rewrite app_nil_r. split; [reflexivity|constructor]. Qed.

Lemma grown_trans (G : graph) (a b c : list path_obj) :
  grown_by_groups G a b -> grown_by_groups G b c -> grown_by_groups G a c.
Proof.
  intros (e1 & -> & H1) (e2 & -> & H2). exists (e1 ++ e2).
  rewrite app_assoc. split; [reflexivity|].
  apply Forall_app. split; assumption.
Qed.

Lemma grown_snoc (G : graph) (gp : list path_obj) (g : node_id) :
  type_is G g "GROUP" = true -> grown_by_groups G gp (gp ++ [PNode g]).
Proof.
  intros Hg. exists [PNode g]. split; [reflexivity|].
  constructor; [eauto|constructor].
Qed.

Lemma links_of_In (G : graph) (s : sockref) (l : link) :
  In l (links_of G s) -> In l (links G).
Proof. unfold links_of. intros H. apply filter_In in H. tauto. Qed.

Section ResolverProperties.
Variable G : graph.
Variable mute : node_id -> bool.
Variable is_active_output : node_id -> bool.
Variable tree_name : node_id -> string.
Variable gltf_old_group_node_name : string.

Lemma check_links_grown
    (recurse : sockref -> list path_obj -> outcome (bool * list path_obj)) :
  (forall s gp b gp',
     recurse s gp = Ret (b, gp') -> grown_by_groups G gp gp') ->
  forall ls orig cur same b out,
    (same = true -> grown_by_groups G orig cur) ->
    check_links G is_active_output recurse ls orig cur same = Ret (b, out) ->
    grown_by_groups G orig out.
Proof.
  intros Hrec. induction ls as [|l ls IH]; intros orig cur same b out Hs H;
    cbn [check_links] in H.
  - injection H as _ <-. apply grown_refl.
  - cbv zeta in H.
    destruct (type_is G (link_to_node l) "GROUP") eqn:Hg.
    { destruct (node_tree (node_of G (link_to_node l))) as [tree|];
        [|discriminate H].
      destruct (first_of_type G tree "GROUP_INPUT") as [gi| |];
        try discriminate H.
      cbn [mbind outcome_bind] in H.
      destruct (first_output_named G gi _) as [sk| |]; try discriminate H.
      cbn [mbind outcome_bind] in H.
      destruct (recurse sk (cur ++ [PNode (link_to_node l)]))
        as [[ret cur']| |] eqn:Er; try discriminate H.
      cbn [mbind outcome_bind] in H.
      apply Hrec in Er.
      assert (Ho : grown_by_groups G orig (if same then cur' else orig)).
      { destruct same; [|apply grown_refl].
        eapply grown_trans; [exact (Hs eq_refl)|].
        eapply grown_trans; [exact (grown_snoc G cur _ Hg)|exact Er]. }
      destruct ret.
      - injection H as _ <-. exact Ho.
      - eapply grown_trans; [exact Ho|].
        eapply IH; [|exact H].
        intros ->. apply grown_refl. }
    destruct (type_is G (link_to_node l) "GROUP_OUTPUT").
    { destruct (last cur) as [[|group]|]; try discriminate H.
      destruct (first_output_named G group _) as [sk| |];
        try discriminate H.
      cbn [mbind outcome_bind] in H.
      destruct (recurse sk (removelast cur)) as [[ret cur']| |];
        try discriminate H.
      cbn [mbind outcome_bind] in H.
      destruct ret.
      - injection H as _ <-. apply grown_refl.
      - eapply IH; [|exact H]. discriminate. }
    destruct (type_is G (link_to_node l) "OUTPUT_MATERIAL"
              && is_active_output (link_to_node l)).
    { injection H as _ <-. apply grown_refl. }
    destruct (0 <? length (outputs (node_of G (link_to_node l))))%nat.
    { destruct (recurse (out_ref (link_to_node l) 0) cur)
        as [[ret cur']| |] eqn:Er; try discriminate H.
      cbn [mbind outcome_bind] in H.
      apply Hrec in Er.
      assert (Ho : grown_by_groups G orig (if same then cur' else orig)).
      { destruct same; [|apply grown_refl].
        eapply grown_trans; [exact (Hs eq_refl)|exact Er]. }
      destruct ret.
      - injection H as _ <-. exact Ho.
      - eapply grown_trans; [exact Ho|].
        eapply IH; [|exact H].
        intros ->. apply grown_refl. }
    eapply IH; [exact Hs|exact H].
Qed.

Lemma check_links_sound
    (recurse : sockref -> list path_obj -> outcome (bool * list path_obj)) :
  (forall s gp gp',
     recurse s gp = Ret (true, gp') ->
     feeds_active_output G is_active_output) ->
  forall ls orig cur same out,
    (forall l, In l ls -> In l (links G)) ->
    check_links G is_active_output recurse ls orig cur same
    = Ret (true, out) ->
    feeds_active_output G is_active_output.
Proof.
  intros Hrec. induction ls as [|l ls IH]; intros orig cur same out Hin H;
    cbn [check_links] in H.
  - discriminate H.
  - cbv zeta in H.
    assert (Hin' : forall l', In l' ls -> In l' (links G)).
    { intros l' Hl'. apply Hin. right. exact Hl'. }
    destruct (type_is G (link_to_node l) "GROUP").
    { destruct (node_tree (node_of G (link_to_node l))) as [tree|];
        [|discriminate H].
      destruct (first_of_type G tree "GROUP_INPUT") as [gi| |];
        try discriminate H.
      cbn [mbind outcome_bind] in H.
      destruct (first_output_named G gi _) as [sk| |]; try discriminate H.
      cbn [mbind outcome_bind] in H.
      destruct (recurse sk (cur ++ [PNode (link_to_node l)]))
        as [[[] cur']| |] eqn:Er; try discriminate H;
        cbn [mbind outcome_bind] in H.
      - exact (Hrec _ _ _ Er).
      - exact (IH _ _ _ _ Hin' H). }
    destruct (type_is G (link_to_node l) "GROUP_OUTPUT").
    { destruct (last cur) as [[|group]|]; try discriminate H.
      destruct (first_output_named G group _) as [sk| |];
        try discriminate H.
      cbn [mbind outcome_bind] in H.
      destruct (recurse sk (removelast cur)) as [[[] cur']| |] eqn:Er;
        try discriminate H; cbn [mbind outcome_bind] in H.
      - exact (Hrec _ _ _ Er).
      - exact (IH _ _ _ _ Hin' H). }
    destruct (type_is G (link_to_node l) "OUTPUT_MATERIAL"
              && is_active_output (link_to_node l)) eqn:Hout.
    { apply andb_true_iff in Hout as [Hty Hact].
      exists l. split; [apply Hin; left; reflexivity|]. split; assumption. }
    destruct (0 <? length (outputs (node_of G (link_to_node l))))%nat.
    { destruct (recurse (out_ref (link_to_node l) 0) cur)
        as [[[] cur']| |] eqn:Er; try discriminate H;
        cbn [mbind outcome_bind] in H.
      - exact (Hrec _ _ _ Er).
      - exact (IH _ _ _ _ Hin' H). }
    exact (IH _ _ _ _ Hin' H).
Qed.

Lemma check_unfold (fuel : nat) (s : sockref) (gp : list path_obj) :
  check_if_is_linked_to_active_output G is_active_output fuel s gp
  = check_links G is_active_output
      (fun socket group_path =>
         match fuel with
         | 0 => OutOfFuel
         | S fuel' =>
             check_if_is_linked_to_active_output G is_active_output fuel'
                                                 socket group_path
         end)
      (links_of G s) gp gp true.
Proof. destruct fuel; reflexivity. Qed.

Lemma check_grown (fuel : nat) :
  forall s gp b gp',
    check_if_is_linked_to_active_output G is_active_output fuel s gp
    = Ret (b, gp') ->
    grown_by_groups G gp gp'.
Proof.
  induction fuel as [|fuel IH]; intros s gp b gp' H;
    rewrite check_unfold in H;
    (eapply check_links_grown; [|intros _; apply grown_refl|exact H]).
  - intros s' g' b' o' Hr. discriminate Hr.
  - exact IH.
Qed.

Lemma check_sound (fuel : nat) :
  forall s gp gp',
    check_if_is_linked_to_active_output G is_active_output fuel s gp
    = Ret (true, gp') ->
    feeds_active_output G is_active_output.
Proof.
  induction fuel as [|fuel IH]; intros s gp gp' H;
    rewrite check_unfold in H;
    (eapply check_links_sound; [|apply links_of_In|exact H]).
  - intros s' g' o' Hr. discriminate Hr.
  - exact IH.
Qed.

(** X18: the check never shortens or rewrites the caller's group path: what
    the caller's list holds afterwards is what it held, followed by group
    nodes the walk went into. *)
Theorem check_appends_groups (fuel : nat) (shader_socket : sockref)
    (group_path group_path' : list path_obj) (linked : bool) :
  check_if_is_linked_to_active_output G is_active_output fuel shader_socket
                                      group_path
  = Ret (linked, group_path') ->
  grown_by_groups G group_path group_path'.
Proof. apply check_grown. Qed.

End ResolverProperties.

Lemma fold_outcome_inv_in {A S : Type} (P : S -> Prop)
    (f : S -> A -> outcome S) (l : list A) :
  (forall st x st', In x l -> P st -> f st x = Ret st' -> P st') ->
  forall s s', P s -> fold_outcome f l s = Ret s' -> P s'.
Proof.
  induction l as [|x l IH]; intros Hf s s' Hs H; simpl in H.
  - injection H as <-. exact Hs.
  - destruct (f s x) as [s1| |] eqn:E; try discriminate H.
    cbn [mbind outcome_bind] in H.
    refine (IH _ _ _ (Hf _ _ _ (or_introl eq_refl) Hs E) H).
    intros st y st' Hy. apply Hf. right. exact Hy.
Qed.

Section ResolverSockets.
Variable G : graph.
Variable mute : node_id -> bool.
Variable is_active_output : node_id -> bool.
Variable tree_name : node_id -> string.
Variable gltf_old_group_node_name : string.

Lemma get_material_nodes_unfold (fuel : nat) (tree : list node_id)
    (group_path : list path_obj) (type : string) :
  get_material_nodes G mute tree_name gltf_old_group_node_name fuel tree
                     group_path type
  = fold_outcome
      (fun nodes '(node, sub) =>
         match fuel with
         | 0 => OutOfFuel
         | S fuel' =>
             more ← get_material_nodes G mute tree_name
                                       gltf_old_group_node_name fuel' sub
                                       (group_path ++ [PNode node]) type;
             Ret (nodes ++ more)
         end)
      (entered_groups G mute tree_name gltf_old_group_node_name tree)
      (map (fun n => (n, group_path))
           (List.filter (fun n => type_is G n type && negb (mute n)) tree)).
Proof. destruct fuel; reflexivity. Qed.

Lemma get_material_nodes_found (fuel : nat) :
  forall tree group_path type nodes,
    get_material_nodes G mute tree_name gltf_old_group_node_name fuel tree
                       group_path type
    = Ret nodes ->
    Forall (found_node G mute type group_path) nodes.
Proof.
  induction fuel as [|fuel IH]; intros tree gp type nodes H;
    rewrite get_material_nodes_unfold in H;
    (eapply fold_outcome_inv; [| |exact H]).
  - intros st [node sub] st' _ Hx. discriminate Hx.
  - apply Forall_forall. intros [n p] Hin.
    apply list_elem_of_In, in_map_iff in Hin.
    destruct Hin as (n' & Heq & Hin). injection Heq as -> <-.
    apply filter_In in Hin as [_ Hin].
    apply andb_true_iff in Hin as [Hty Hm]. apply negb_true_iff in Hm.
    split; [exact Hty|]. split; [exact Hm|]. exists []. cbn.
    rewrite app_nil_r. reflexivity.
  - intros st [node sub] st' Hst Hx.
    destruct (get_material_nodes G mute tree_name gltf_old_group_node_name
                fuel sub (gp ++ [PNode node]) type)
      as [more| |] eqn:Em; try discriminate Hx.
    cbn [mbind outcome_bind] in Hx. injection Hx as <-.
    apply Forall_app. split; [exact Hst|].
    apply IH in Em. eapply Forall_impl; [exact Em|].
    intros [n p] (Hty & Hm & rest & Hp). split; [exact Hty|].
    split; [exact Hm|]. exists ([PNode node] ++ rest). cbn in *.
    rewrite Hp, <- app_assoc. reflexivity.
  - apply Forall_forall. intros [n p] Hin.
    apply list_elem_of_In, in_map_iff in Hin.
    destruct Hin as (n' & Heq & Hin). injection Heq as -> <-.
    apply filter_In in Hin as [_ Hin].
    apply andb_true_iff in Hin as [Hty Hm]. apply negb_true_iff in Hm.
    split; [exact Hty|]. split; [exact Hm|]. exists []. cbn.
    rewrite app_nil_r. reflexivity.
Qed.

Lemma inputs_named_In (nodes : list (node_id * list path_obj))
    (name : string) (s : sockref) (gp : list path_obj) :
  In (s, gp) (inputs_named G nodes name) ->
  exists n i sock,
    In (n, gp) nodes /\ s = in_ref n i
    /\ inputs (node_of G n) !! i = Some sock /\ s_name sock = name.
Proof.
  unfold inputs_named. intros H. apply in_flat_map in H.
  destruct H as ([n p] & Hn & H). apply in_flat_map in H.
  destruct H as ([j sk] & Hi & H).
  apply list_elem_of_In, elem_of_lookup_imap in Hi.
  destruct Hi as (i & sock & Heq & Hi). injection Heq as -> ->.
  destruct (String.eqb (s_name sock) name) eqn:E; [|destruct H].
  destruct H as [H|[]]. injection H as <- <-.
  apply String.eqb_eq in E. exists n, i, sock. auto.
Qed.

Lemma first_input_In (inputs : list (sockref * list path_obj))
    (s : sockref) (gp : list path_obj) :
  first_input inputs = mkNodeSocket (Some s) gp -> In (s, gp) inputs.
Proof.
  destruct inputs as [|[s' gp'] rest]; cbn; [discriminate|].
  intros H. injection H as -> ->. left. reflexivity.
Qed.

Lemma get_node_socket_inv (fuel : nat) (blender_material : material)
    (type name : string) (s : sockref) (gp : list path_obj) :
  get_node_socket G mute is_active_output tree_name
                  gltf_old_group_node_name fuel blender_material type name
  = Ret (mkNodeSocket (Some s) gp) ->
  sr_is_output s = false
  /\ type_is G (sr_node s) type = true
  /\ mute (sr_node s) = false
  /\ (exists sock, inputs (node_of G (sr_node s)) !! sr_index s = Some sock
                   /\ s_name sock = name)
  /\ (exists rest, gp = PMaterial :: rest)
  /\ feeds_active_output G is_active_output.
Proof.
  unfold get_node_socket. intros H.
  destruct (m_node_tree blender_material) as [tree|]; [|discriminate H].
  destruct (get_material_nodes G mute tree_name gltf_old_group_node_name
              fuel tree [PMaterial] type) as [nodes| |] eqn:En;
    try discriminate H.
  cbn [mbind outcome_bind] in H.
  apply get_material_nodes_found in En.
  match type of H with
  | mbind _ (fold_outcome ?f ?l ?st) = _ =>
      destruct (fold_outcome f l st) as [kept| |] eqn:Ek;
        try discriminate H
  end.
  cbn [mbind outcome_bind] in H. injection H as H.
  apply first_input_In, inputs_named_In in H.
  destruct H as (n & i & sock & Hin & -> & Hi & Hname).
  assert (Hkept :
    Forall (fun x => found_node G mute type [PMaterial] x
                     /\ feeds_active_output G is_active_output) kept).
  { eapply fold_outcome_inv_in; [| |exact Ek]; [|constructor].
    intros st [node p] st' Hx Hst Hstep.
    rewrite Forall_forall in En.
    specialize (En _ (proj2 (list_elem_of_In _ _) Hx)).
    destruct En as (Hty & Hm & rest & Hp). cbn [fst snd] in *.
    destruct (output_by_index G node 0) as [out0| |]; try discriminate Hstep.
    cbn [mbind outcome_bind] in Hstep.
    destruct (check_if_is_linked_to_active_output G is_active_output fuel
                                                  out0 p)
      as [[ok p']| |] eqn:Ec; try discriminate Hstep.
    cbn [mbind outcome_bind] in Hstep. injection Hstep as <-.
    destruct ok; [|exact Hst].
    apply Forall_app. split; [exact Hst|].
    constructor; [|constructor]. split.
    - split; [exact Hty|]. split; [exact Hm|].
      apply check_grown in Ec as (ext & -> & _). subst p.
      exists (rest ++ ext). cbn [snd]. rewrite app_assoc. reflexivity.
    - exact (check_sound _ _ _ _ _ _ Ec). }
  rewrite Forall_forall in Hkept.
  destruct (Hkept _ (proj2 (list_elem_of_In _ _) Hin))
    as ((Hty & Hm & rest & Hp) & Hact).
  cbn [fst snd sr_is_output sr_node sr_index in_ref] in *.
  split; [reflexivity|]. split; [exact Hty|]. split; [exact Hm|].
  split; [eauto|]. split; [|exact Hact].
  exists rest. exact Hp.
Qed.

(** X19: a socket handed back by [get_node_socket] is an input of that
    name, of a node of that class that is not muted; some link of the graph
    goes into an active material output; and its group path starts at the
    material. *)
Theorem get_node_socket_sound (fuel : nat) (blender_material : material)
    (type name : string) (s : sockref) (gp : list path_obj) :
  get_node_socket G mute is_active_output tree_name
                  gltf_old_group_node_name fuel blender_material type name
  = Ret (mkNodeSocket (Some s) gp) ->
  sr_is_output s = false
  /\ type_is G (sr_node s) type = true
  /\ mute (sr_node s) = false
  /\ (exists sock, inputs (node_of G (sr_node s)) !! sr_index s = Some sock
                   /\ s_name sock = name)
  /\ (exists rest, gp = PMaterial :: rest)
  /\ feeds_active_output G is_active_output.
Proof. apply get_node_socket_inv. Qed.

(** X20: [get_socket] hands back a socket only for a material that uses
    nodes and feeds an active output, and only from the class the name
    stands for: "Emissive" is the Color of a dedicated emission node and,
    only when the search for one came back empty, the Emission Color of the
    principled shader; "Background" is the Color of a background node;
    any other name is that input of the principled shader, or of the
    volume absorption node when [volume] is set. *)
Theorem get_socket_classes (fuel : nat) (blender_material : material)
    (name : string) (volume : bool) (s : sockref) (gp : list path_obj) :
  get_socket G mute is_active_output tree_name gltf_old_group_node_name
             fuel blender_material name volume
  = Ret (mkNodeSocket (Some s) gp) ->
  use_nodes blender_material = true
  /\ feeds_active_output G is_active_output
  /\ mute (sr_node s) = false
  /\ if String.eqb name "Emissive" then
       input_of_class G s "EMISSION" "Color"
       \/ (input_of_class G s "BSDF_PRINCIPLED" "Emission Color"
           /\ exists e,
                get_node_socket G mute is_active_output tree_name
                                gltf_old_group_node_name fuel
                                blender_material "EMISSION" "Color"
                = Ret e
                /\ ns_socket e = None)
     else if String.eqb name "Background" then
       input_of_class G s "BACKGROUND" "Color"
     else
       input_of_class G s
         (if volume then "VOLUME_ABSORPTION" else "BSDF_PRINCIPLED") name.
Proof.
  unfold get_socket, input_of_class. intros H.
  destruct (m_node_tree blender_material) as [tree|]; [|discriminate H].
  destruct (use_nodes blender_material); [|discriminate H].
  split; [reflexivity|].
  destruct (String.eqb name "Emissive").
  - destruct (get_node_socket _ _ _ _ _ fuel blender_material "EMISSION"
                              "Color") as [e| |] eqn:Ee;
      try discriminate H.
    cbn [mbind outcome_bind] in H.
    destruct (ns_socket e) as [s'|] eqn:Es.
    + injection H as ->.
      apply get_node_socket_inv in Ee as (Ho & Hty & Hm & Hs & _ & Ha).
      auto 6.
    + apply get_node_socket_inv in H as (Ho & Hty & Hm & Hs & _ & Ha).
      split; [exact Ha|]. split; [exact Hm|]. right.
      split; [auto|]. exists e. split; [reflexivity|exact Es].
  - destruct (String.eqb name "Background").
    + apply get_node_socket_inv in H as (Ho & Hty & Hm & Hs & _ & Ha).
      auto 6.
    + destruct volume; cbn [negb] in H;
        apply get_node_socket_inv in H as (Ho & Hty & Hm & Hs & _ & Ha);
        auto 6.
Qed.

End ResolverSockets.

(** X17: the test on the group's name in
    [get_socket_from_gltf_material_node] holds for every group, since
    [any] is given a list holding one list that is not empty.  The
    function answers with the first input of that name among all the
    groups [get_material_nodes] finds that have a node tree, whatever
    their trees are called. *)
Theorem gltf_group_names_ignored (G : graph) (mute : node_id -> bool)
    (tree_name : node_id -> string)
    (gltf_node_name gltf_node_old_name gltf_old_group_node_name : string)
    (lower : string -> string) (fuel : nat) (blender_material : material)
    (name : string) (tree : list node_id)
    (nodes : list (node_id * list path_obj)) :
  m_node_tree blender_material = Some tree ->
  use_nodes blender_material = true ->
  get_material_nodes G mute tree_name gltf_old_group_node_name fuel tree
                     [PMaterial] "GROUP"
  = Ret nodes ->
  get_socket_from_gltf_material_node G mute tree_name gltf_node_name
    gltf_node_old_name gltf_old_group_node_name lower fuel blender_material
    name
  = Ret (first_input
           (inputs_named G (List.filter (has_node_tree G) nodes) name)).
Proof.
  intros Hm Hu Hn. unfold get_socket_from_gltf_material_node.
  rewrite Hm, Hu, Hn. cbn [mbind outcome_bind]. do 3 f_equal.
  apply filter_ext. intros [n p]. unfold has_node_tree. cbn [fst].
  destruct (node_tree (node_of G n)); reflexivity.
Qed.

Lemma gltf_group_names_ignored_witness :
  get_socket_from_gltf_material_node Fixtures.g_wrapped (fun _ => false)
    (fun _ => "Wrapper") "glTF Material Output" "glTF Settings"
    "glTF Settings Old" (fun s => s) 1 Fixtures.wrapped_material "Shader"
  = Ret (mkNodeSocket (Some (in_ref 1 0)) [PMaterial])
  /\ String.prefix "glTF Material Output" "Wrapper" = false
  /\ String.prefix "glTF Settings" "Wrapper" = false.
Proof.
  split; [|split; reflexivity].
  exact (gltf_group_names_ignored Fixtures.g_wrapped (fun _ => false)
           (fun _ => "Wrapper") "glTF Material Output" "glTF Settings"
           "glTF Settings Old" (fun s => s) 1 Fixtures.wrapped_material
           "Shader" [0; 1; 4] [(1, [PMaterial])] eq_refl eq_refl eq_refl).
Defined.

Lemma check_appends_groups_witness :
  check_if_is_linked_to_active_output Fixtures.g_wrapped
    Fixtures.wrapped_active 2 (out_ref 0 0) [PMaterial]
  = Ret (true, [PMaterial; PNode 1])
  /\ grown_by_groups Fixtures.g_wrapped [PMaterial] [PMaterial; PNode 1].
Proof.
  split; [reflexivity|].
  exact (check_appends_groups Fixtures.g_wrapped Fixtures.wrapped_active 2
           (out_ref 0 0) [PMaterial] [PMaterial; PNode 1] true eq_refl).
Defined.

Lemma get_node_socket_sound_witness :
  get_node_socket Fixtures.g_wrapped (fun _ => false)
    Fixtures.wrapped_active (fun _ => "Wrapper") "glTF Settings" 2
    Fixtures.wrapped_material "BSDF_PRINCIPLED" "Alpha"
  = Ret (mkNodeSocket (Some (in_ref 0 1)) [PMaterial; PNode 1])
  /\ type_is Fixtures.g_wrapped 0 "BSDF_PRINCIPLED" = true
  /\ (exists sock,
        inputs (node_of Fixtures.g_wrapped 0) !! 1 = Some sock
        /\ s_name sock = "Alpha")
  /\ (exists rest, [PMaterial; PNode 1] = PMaterial :: rest)
  /\ feeds_active_output Fixtures.g_wrapped Fixtures.wrapped_active.
Proof.
  split; [reflexivity|].
  destruct (get_node_socket_sound Fixtures.g_wrapped (fun _ => false)
              Fixtures.wrapped_active (fun _ => "Wrapper") "glTF Settings" 2
              Fixtures.wrapped_material "BSDF_PRINCIPLED" "Alpha"
              (in_ref 0 1) [PMaterial; PNode 1] eq_refl)
    as (_ & Hty & _ & Hs & Hp & Ha).
  exact (conj Hty (conj Hs (conj Hp Ha))).
Defined.

Lemma get_socket_classes_witness :
  get_socket Fixtures.g_wrapped (fun _ => false) Fixtures.wrapped_active
    (fun _ => "Wrapper") "glTF Settings" 2 Fixtures.wrapped_material
    "Alpha" false
  = Ret (mkNodeSocket (Some (in_ref 0 1)) [PMaterial; PNode 1])
  /\ use_nodes Fixtures.wrapped_material = true
  /\ feeds_active_output Fixtures.g_wrapped Fixtures.wrapped_active
  /\ input_of_class Fixtures.g_wrapped (in_ref 0 1) "BSDF_PRINCIPLED"
                    "Alpha".
Proof.
  split; [reflexivity|].
  destruct (get_socket_classes Fixtures.g_wrapped (fun _ => false)
              Fixtures.wrapped_active (fun _ => "Wrapper") "glTF Settings" 2
              Fixtures.wrapped_material "Alpha" false (in_ref 0 1)
              [PMaterial; PNode 1] eq_refl)
    as (Hu & Ha & _ & Hc).
  exact (conj Hu (conj Ha Hc)).
Defined.

(** ** The Draco library *)

Section DracoProperties.
Variable Path : string -> py_path.
Variable resolve : py_path -> py_path.
Variable exists_ : py_path -> bool.
Variable is_file : py_path -> bool.
Variable absolute : py_path -> py_path.
Variable str : py_path -> string.
Variable bpy_file binary_path blender_version python_version : string.

Lemma dll_path_silent (env : option string) (platform : string) :
  fst (dll_path Path resolve exists_ bpy_file binary_path blender_version
                python_version env platform) = [].
Proof.
  unfold dll_path, find_draco_dll_in_module, site_packages, library_names.
  destruct env as [p|]; [reflexivity|].
  destruct (parents (resolve (Path bpy_file)) 4) as [d| |];
    cbn [mbind outcome_bind]; try reflexivity.
  destruct (String.eqb platform "win32");
    [destruct (exists_ _); reflexivity|].
  destruct (String.eqb platform "linux");
    [destruct (exists_ _); reflexivity|].
  destruct (String.eqb platform "darwin");
    [destruct (exists_ _); reflexivity|].
  reflexivity.
Qed.

(** X21: [dll_path] never prints its warning.  On a platform other than
    win32, linux and darwin, without the environment variable, it does not
    return: looking for the library beside the module raises first. *)
Theorem dll_path_warning_unreachable (env : option string)
    (platform : string) :
  fst (dll_path Path resolve exists_ bpy_file binary_path blender_version
                python_version env platform) = []
  /\ (env = None ->
      library_names platform = None ->
      snd (dll_path Path resolve exists_ bpy_file binary_path
                    blender_version python_version env platform)
      = Raise IndexError
      \/ snd (dll_path Path resolve exists_ bpy_file binary_path
                       blender_version python_version env platform)
         = Raise TypeError).
Proof.
  split; [apply dll_path_silent|].
  unfold dll_path, find_draco_dll_in_module.
  intros -> Hn. rewrite Hn. unfold parents.
  destruct (4 <? length (parts (resolve (Path bpy_file))))%nat;
    cbn [mbind outcome_bind snd]; auto.
Qed.

(** X22: without the environment variable, a path that [dll_path] returns
    ends with the library's file name for the platform, which is one of
    win32, linux and darwin. *)
Theorem dll_path_library_name (platform : string) (path : py_path) :
  snd (dll_path Path resolve exists_ bpy_file binary_path blender_version
                python_version None platform) = Ret path ->
  exists library_name,
    library_names platform = Some library_name
    /\ last (parts path) = Some library_name.
Proof.
  unfold dll_path, find_draco_dll_in_module.
  destruct (parents (resolve (Path bpy_file)) 4) as [d| |];
    cbn [mbind outcome_bind snd]; try discriminate.
  destruct (library_names platform) as [name|] eqn:En;
    cbn [snd]; [|discriminate].
  intros H. exists name. split; [reflexivity|].
  destruct (exists_ _).
  - cbn [snd] in H. injection H as <-. unfold joinpath. cbn [parts].
    apply last_snoc.
  - unfold site_packages in H. unfold library_names in En.
    destruct (String.eqb platform "win32");
      [cbn [snd] in H; injection H as <-; apply last_snoc|].
    destruct (String.eqb platform "linux");
      [cbn [snd] in H; injection H as <-; apply last_snoc|].
    destruct (String.eqb platform "darwin");
      [cbn [snd] in H; injection H as <-; apply last_snoc|].
    discriminate En.
Qed.

(** X23: [dll_exists] answers whether the path of [dll_path] exists and is a
    file; it prints one line when it is not quiet and none when it is. *)
Theorem dll_exists_prints_once (env : option string) (platform : string)
    (quiet : bool) (path : py_path) :
  snd (dll_path Path resolve exists_ bpy_file binary_path blender_version
                python_version env platform) = Ret path ->
  snd (dll_exists Path resolve exists_ is_file absolute str bpy_file
                  binary_path blender_version python_version env platform
                  quiet)
  = Ret (exists_ path && is_file path)
  /\ length (fst (dll_exists Path resolve exists_ is_file absolute str
                             bpy_file binary_path blender_version
                             python_version env platform quiet))
     = if quiet then 0 else 1.
Proof.
  intros H. unfold dll_exists.
  pose proof (dll_path_silent env platform) as Hp.
  destruct (dll_path Path resolve exists_ bpy_file binary_path
                     blender_version python_version env platform)
    as [printed r].
  cbn [fst snd] in *. subst printed r.
  destruct quiet; cbn [negb fst snd]; split; reflexivity.
Qed.

End DracoProperties.

Lemma dll_path_warning_unreachable_witness :
  fst (Fixtures.dll_path_on None "freebsd") = []
  /\ (snd (Fixtures.dll_path_on None "freebsd") = Raise IndexError
      \/ snd (Fixtures.dll_path_on None "freebsd") = Raise TypeError).
Proof.
  destruct (dll_path_warning_unreachable Fixtures.host_path (fun p => p)
              (fun _ => false) "bpy" "blender" "4.2" "python3.11" None
              "freebsd") as [Hs Hr].
  exact (conj Hs (Hr eq_refl eq_refl)).
Defined.

Lemma dll_path_library_name_witness :
  snd (Fixtures.dll_path_on None "linux")
  = Ret (PyPath "/" ["srv"; "a"; "b"; "c"; "d"; "4.2"; "python"; "lib";
                     "python3.11"; "site-packages"; "libextern_draco.so"])
  /\ exists library_name,
       library_names "linux" = Some library_name
       /\ last ["srv"; "a"; "b"; "c"; "d"; "4.2"; "python"; "lib";
                "python3.11"; "site-packages"; "libextern_draco.so"]
          = Some library_name.
Proof.
  split; [reflexivity|].
  exact (dll_path_library_name Fixtures.host_path (fun p => p)
           (fun _ => false) "bpy" "blender" "4.2" "python3.11" "linux"
           _ eq_refl).
Defined.

Lemma dll_exists_prints_once_witness :
  snd (Fixtures.dll_path_on (Some "libdraco.so") "freebsd")
  = Ret (Fixtures.host_path "libdraco.so")
  /\ snd (dll_exists Fixtures.host_path (fun p => p) (fun _ => false)
            (fun _ => false) (fun p => p)
            (fun p => default "" (last (parts p)))
            "bpy" "blender" "4.2" "python3.11" (Some "libdraco.so")
            "freebsd" false)
     = Ret false
  /\ length (fst (dll_exists Fixtures.host_path (fun p => p)
                    (fun _ => false) (fun _ => false) (fun p => p)
                    (fun p => default "" (last (parts p)))
                    "bpy" "blender" "4.2" "python3.11"
                    (Some "libdraco.so") "freebsd" false))
     = 1.
Proof.
  split; [reflexivity|].
  exact (dll_exists_prints_once Fixtures.host_path (fun p => p)
           (fun _ => false) (fun _ => false) (fun p => p)
           (fun p => default "" (last (parts p))) "bpy" "blender" "4.2"
           "python3.11" (Some "libdraco.so") "freebsd" false
           (Fixtures.host_path "libdraco.so") eq_refl).
Defined.

(** ** Where [move_back] leaves the cursor *)

Lemma select_input_socket_moved (G : graph) (sel : selector)
    (self self' : NodeNav) :
  select_input_socket G sel self = Ret self' -> moved self' = moved self.
Proof.
  unfold select_input_socket. intros H.
  destruct sel as [|s|i|key].
  - injection H as <-. reflexivity.
  - destruct (Nat.eqb (sr_node s) (node self)); [|discriminate H].
    injection H as <-. reflexivity.
  - destruct (input_by_index G (node self) i) as [s| |];
      try discriminate H.
    injection H as <-. reflexivity.
  - assert (Hn : (s ← input_by_name G (node self) key;
                  Ret (set_in_socket (Some s) self)) = Ret self' ->
                 moved self' = moved self).
    { destruct (input_by_name G (node self) key) as [s| |];
        try discriminate.
      intros E. injection E as <-. reflexivity. }
    cbv zeta in H.
    destruct key as [|c ident]; [exact (Hn H)|].
    destruct (Ascii.eqb c "#") eqn:Ec.
    + apply Ascii.eqb_eq in Ec. subst c.
      destruct (find_index _ _) as [i|]; [|exact (Hn H)].
      injection H as <-. reflexivity.
    + destruct c as [[] [] [] [] [] [] [] []];
        try exact (Hn H); discriminate Ec.
Qed.

(** X24: where [move_back] leaves the cursor.  If it reports a move, the
    cursor is on an output socket of its node, has no input socket
    selected, and the node is no reroute, group or group input; if it
    reports none, the cursor has no input socket selected or the selected
    one is not connected. *)
Theorem move_back_lands (G : graph) (fuel : nat) :
  forall (in_soc : selector) (self nav : NodeNav),
    move_back G fuel in_soc self = Ret nav ->
    if moved nav then
      in_socket nav = None
      /\ (exists i, out_socket nav = Some (out_ref (node nav) i))
      /\ is_pass_through (node_of G (node nav)) = false
    else
      match in_socket nav with
      | None => True
      | Some s => is_linked G s = false
      end.
Proof.
  induction fuel as [|fuel IH]; intros in_soc self nav H;
    rewrite move_back_unfold in H;
    (destruct (select_input_socket G in_soc (set_moved false self))
       as [self1| |] eqn:Es; try discriminate H;
     cbn [mbind outcome_bind] in H;
     apply select_input_socket_moved in Es; cbn [set_moved moved] in Es;
     destruct (in_socket self1) as [s|] eqn:Ein;
     [|injection H as <-; rewrite Es, Ein; exact I];
     destruct (is_linked G s) eqn:El; cbn [negb] in H;
     [|injection H as <-; rewrite Es, Ein; exact El];
     destruct (links_of G s) as [|l ls]; [discriminate H|];
     unfold arrive in H; cbv zeta in H; cbn [landed node] in H;
     destruct (String.eqb (n_type (node_of G (link_from_node l))) "REROUTE")
       eqn:Hr;
     [|destruct (String.eqb (n_type (node_of G (link_from_node l))) "GROUP")
         eqn:Hg;
       [|destruct (String.eqb (n_type (node_of G (link_from_node l)))
                              "GROUP_INPUT") eqn:Hgi]]).
  - discriminate H.
  - destruct (descend G _) as [d| |]; discriminate H.
  - destruct (ascend G _) as [d| |]; discriminate H.
  - injection H as <-. cbn [landed moved in_socket out_socket node].
    split; [reflexivity|]. split; [eauto|].
    unfold is_pass_through. rewrite Hr, Hg, Hgi. reflexivity.
  - exact (IH _ _ _ H).
  - destruct (descend G _) as [d| |]; try discriminate H.
    cbn [mbind outcome_bind] in H. exact (IH _ _ _ H).
  - destruct (ascend G _) as [d| |]; try discriminate H.
    cbn [mbind outcome_bind] in H. exact (IH _ _ _ H).
  - injection H as <-. cbn [landed moved in_socket out_socket node].
    split; [reflexivity|]. split; [eauto|].
    unfold is_pass_through. rewrite Hr, Hg, Hgi. reflexivity.
Qed.

Lemma move_back_lands_witness :
  move_back Fixtures.g_reroute 2 SelNone (Fixtures.at_input 1 1)
  = Ret (mkNav 4 None (Some (out_ref 4 1)) [(PMaterial, None)] true)
  /\ (None : option sockref) = None
  /\ (exists i, Some (out_ref 4 1) = Some (out_ref 4 i))
  /\ is_pass_through (node_of Fixtures.g_reroute 4) = false.
Proof.
  split; [reflexivity|].
  exact (move_back_lands Fixtures.g_reroute 2 SelNone
           (Fixtures.at_input 1 1)
           (mkNav 4 None (Some (out_ref 4 1)) [(PMaterial, None)] true)
           eq_refl).
Defined.

(** ** The default value and the constant of a socket *)

(** X25: on an input socket that is not connected, the default value read
    by [get_const_from_default_value_socket] is the constant
    [get_const_from_socket] finds, when the kind asked for is the kind of
    the socket: RGB on a color socket, VALUE on a scalar one. *)
Theorem default_value_is_the_constant (G : graph) (fuel : nat)
    (socket : NodeSocket) (s : sockref) (kind : string) :
  ns_socket socket = Some s ->
  sr_is_output s = false ->
  is_linked G s = false ->
  (kind = "RGB" /\ s_type (sock_of G s) = "RGBA")
  \/ (kind = "VALUE" /\ s_type (sock_of G s) = "VALUE") ->
  get_const_from_default_value_socket G socket kind
  = get_const_from_socket G fuel socket kind.
Proof.
  intros Hs Ho Hl Hk.
  unfold get_const_from_default_value_socket, get_const_from_socket,
    to_node_nav, get_constant.
  rewrite Hs, Ho. cbn [mbind outcome_bind select_input_socket in_socket].
  rewrite Hl. cbn [negb].
  destruct Hk as [[-> Hty] | [-> Hty]]; rewrite Hty; simpl String.eqb;
    cbn [negb].
  - destruct (py_list (s_default_value (sock_of G s))) as [color| |];
      reflexivity.
  - reflexivity.
Qed.

Lemma default_value_is_the_constant_witness :
  get_const_from_default_value_socket Fixtures.g_const
    (mkNodeSocket (Some (in_ref 0 1)) [PMaterial]) "VALUE"
  = get_const_from_socket Fixtures.g_const 0
      (mkNodeSocket (Some (in_ref 0 1)) [PMaterial]) "VALUE"
  /\ get_const_from_socket Fixtures.g_const 0
       (mkNodeSocket (Some (in_ref 0 1)) [PMaterial]) "VALUE"
     = Ret (Some (VFloat 0.7)).
Proof.
  split; [|reflexivity].
  exact (default_value_is_the_constant Fixtures.g_const 0
           (mkNodeSocket (Some (in_ref 0 1)) [PMaterial]) (in_ref 0 1)
           "VALUE" eq_refl eq_refl eq_refl
           (or_intror (conj eq_refl eq_refl))).
Defined.
